(** * Shop inventory and sales ledger over CSV files: a model of [shop.py]

    The development embeds the classes of [shop.py] ([Product], [Inventory],
    [Sale], [SalesManager], [ShopSystem]) as executable definitions and proves
    the properties of the specification about them.

    Conventions of the model.
    - A Python [str] is a [string]; a character is a code point below 256.
    - A Python [int] is a [Z].  The conversions between [int] and [str]
      raise [ValueError] beyond 4300 digits, the default of the
      interpreter, which the program does not change.
    - A Python [float] is a binary64 number ([PrimFloat.float]).
    - A file is an [option string]: [None] when the path does not exist,
      [Some text] with the characters of the file otherwise.  Errors of
      the operating system and of the text encoding are not modelled.
    - [csv.reader] raises [csv.Error] on a field of more than 131072
      characters, the default limit of the module, which the program does
      not change.
    - A raised exception that no handler of the program catches ends the
      run; operations that may raise return an [outcome].  The operations
      that write the inventory file before they raise give the world they
      leave together with the exception.
    - The text of a table is what the library [tabulate] returns: it is a
      parameter of the reports and of the menu. *)

From Stdlib Require Import ZArith List String Ascii Lia Bool.
From Stdlib Require Import Floats DecimalString DecimalZ DecimalPos DecimalN.
From stdpp Require Import gmap strings.

Local Open Scope string_scope.
Local Open Scope Z_scope.

(** ** Characters and strings *)

Module Text.

Definition code (c : ascii) : Z := Z.of_N (N_of_ascii c).

(** [str.isspace] on the code points below 256. *)
Definition is_space (c : ascii) : bool :=
  let n := code c in
  ((9 <=? n) && (n <=? 13)) || ((28 <=? n) && (n <=? 32))
  || (n =? 133) || (n =? 160).

Definition is_digit (c : ascii) : bool :=
  let n := code c in (48 <=? n) && (n <=? 57).

Definition digit_value (c : ascii) : Z := code c - 48.

Fixpoint lstrip (s : string) : string :=
  match s with
  | EmptyString => EmptyString
  | String c r => if is_space c then lstrip r else s
  end.

Fixpoint rstrip (s : string) : string :=
  match s with
  | EmptyString => EmptyString
  | String c r =>
      match rstrip r with
      | EmptyString => if is_space c then EmptyString else String c EmptyString
      | r' => String c r'
      end
  end.

(** [s.strip()] *)
Definition strip (s : string) : string := rstrip (lstrip s).

(** The white space that [int] and [float] skip around a number: the white
    space of C, and the spaces above U+007F, which the conversions turn
    into blanks first.  The separators U+001C to U+001F, which [str.strip]
    removes, are not skipped. *)
Definition is_number_space (c : ascii) : bool :=
  let n := code c in
  ((9 <=? n) && (n <=? 13)) || (n =? 32) || (n =? 133) || (n =? 160).

Fixpoint skip_left (space : ascii -> bool) (s : string) : string :=
  match s with
  | EmptyString => EmptyString
  | String c r => if space c then skip_left space r else s
  end.

Fixpoint skip_right (space : ascii -> bool) (s : string) : string :=
  match s with
  | EmptyString => EmptyString
  | String c r =>
      match skip_right space r with
      | EmptyString => if space c then EmptyString else String c EmptyString
      | r' => String c r'
      end
  end.

(** The text of a number without the white space around it. *)
Definition number_text (s : string) : string :=
  skip_right is_number_space (skip_left is_number_space s).

Definition lower_char (c : ascii) : ascii :=
  let n := code c in
  if (65 <=? n) && (n <=? 90) then ascii_of_N (Z.to_N (n + 32)) else c.

(** [s.lower()], on the letters A to Z.  No other character lowers to an
    ASCII letter, so comparisons of the result with an ASCII word are those
    of Python. *)
Fixpoint lower (s : string) : string :=
  match s with
  | EmptyString => EmptyString
  | String c r => String (lower_char c) (lower r)
  end.

Fixpoint contains_char (p : ascii -> bool) (s : string) : bool :=
  match s with
  | EmptyString => false
  | String c r => p c || contains_char p r
  end.

Fixpoint concat_strings (l : list string) : string :=
  match l with
  | [] => EmptyString
  | s :: r => s +:+ concat_strings r
  end.

End Text.

(** ** Conversions between [int] and [str] *)

Module PyInt.
Import Text.

(** The limit of the interpreter on the number of digits of a decimal
    conversion between [int] and [str] ([sys.get_int_max_str_digits()], at
    its default). *)
Definition max_str_digits : Z := 4300.

(** The decimal text of an integer. *)
Definition decimal (n : Z) : string := NilZero.string_of_int (Z.to_int n).

(** The number of decimal digits of an integer. *)
Definition digit_count (n : Z) : Z :=
  Z.of_nat (String.length (decimal (Z.abs n))).

(** [str(n)] for an [int]: [None] stands for [ValueError], raised when [n]
    has more digits than the limit. *)
Definition str (n : Z) : option string :=
  if digit_count n <=? max_str_digits then Some (decimal n) else None.

Inductive prev_char := PStart | PDigit | PUnderscore.

(** The digits of an integer literal: decimal digits, with single
    underscores allowed between two digits. *)
Fixpoint digits (prev : prev_char) (acc : Z) (s : string) : option Z :=
  match s with
  | EmptyString => match prev with PDigit => Some acc | _ => None end
  | String c r =>
      if is_digit c then digits PDigit (10 * acc + digit_value c) r
      else if Ascii.eqb c "_" then
        match prev with PDigit => digits PUnderscore acc r | _ => None end
      else None
  end.

(** The number of decimal digits of a text. *)
Fixpoint count_digits (s : string) : Z :=
  match s with
  | EmptyString => 0
  | String c r => (if is_digit c then 1 else 0) + count_digits r
  end.

(** An integer literal without its sign: a literal with more digits than
    the limit is refused, leading zeros counted. *)
Definition literal (s : string) : option Z :=
  if count_digits s <=? max_str_digits then digits PStart 0 s else None.

(** [int(s)] for a [str]: [None] stands for [ValueError]. *)
Definition parse (s : string) : option Z :=
  match number_text s with
  | String "-" r => option_map Z.opp (literal r)
  | String "+" r => literal r
  | t => literal t
  end.

End PyInt.

(** ** Binary64 numbers and their text *)

Module PyFloat.
Import Text.

(** [float(n)] for an [int] (also the conversion of the right operand of
    [x * n]): rounded to nearest, ties to even; [None] stands for
    [OverflowError], raised when the result is out of the range of a
    binary64 number. *)
Definition of_int (n : Z) : option float :=
  match binary_normalize prec emax n 0 false with
  | S754_infinity _ => None
  | f => Some (SF2Prim f)
  end.

(** [x * n] for a [float] [x] and an [int] [n]. *)
Definition mul_int (x : float) (n : Z) : option float :=
  option_map (PrimFloat.mul x) (of_int n).

(** The binary64 number nearest to [(-1)^neg * m * 10^e], ties to even,
    infinite when out of range. *)
Definition round_decimal (neg : bool) (m e : Z) : float :=
  match m with
  | Zpos p =>
      if 0 <=? e
      then SF2Prim (binary_normalize prec emax
                      ((if neg then Z.opp else id) (m * 10 ^ e)) 0 neg)
      else match 10 ^ (- e) with
           | Zpos d => SF2Prim (SFdiv prec emax (S754_finite neg p 0)
                                                (S754_finite false d 0))
           | _ => nan
           end
  | _ => if neg then neg_zero else zero
  end.

(** The longest prefix of decimal digits, and what follows it. *)
Fixpoint span_digits (s : string) : string * string :=
  match s with
  | EmptyString => (EmptyString, EmptyString)
  | String c r =>
      if is_digit c
      then let (d, t) := span_digits r in (String c d, t)
      else (EmptyString, s)
  end.

Fixpoint digits_value (acc : Z) (s : string) : Z :=
  match s with
  | EmptyString => acc
  | String c r => digits_value (10 * acc + digit_value c) r
  end.

(** Underscores of a numeric literal: each one between two digits; they are
    removed before the number is read. *)
Fixpoint remove_underscores (prev : option ascii) (s : string) : option string :=
  match s with
  | EmptyString =>
      match prev with
      | Some c => if Ascii.eqb c "_" then None else Some EmptyString
      | None => Some EmptyString
      end
  | String c r =>
      let prev_digit := match prev with Some p => is_digit p | None => false end in
      let prev_under := match prev with Some p => Ascii.eqb p "_" | None => false end in
      if Ascii.eqb c "_" then
        if prev_digit then remove_underscores (Some c) r else None
      else if prev_under && negb (is_digit c) then None
      else option_map (String c) (remove_underscores (Some c) r)
  end.

Definition split_sign (s : string) : bool * string :=
  match s with
  | String "-" r => (true, r)
  | String "+" r => (false, r)
  | _ => (false, s)
  end.

(** The exponent part of a decimal literal: empty, or [e] or [E], an
    optional sign and at least one digit. *)
Definition parse_exponent (s : string) : option Z :=
  match s with
  | EmptyString => Some 0
  | String c r =>
      if Ascii.eqb (lower_char c) "e" then
        let (neg, r') := split_sign r in
        match span_digits r' with
        | (String d ds, EmptyString) =>
            let v := digits_value 0 (String d ds) in
            Some (if neg then - v else v)
        | _ => None
        end
      else None
  end.

Definition parse_decimal (neg : bool) (s : string) : option float :=
  let (ip, r1) := span_digits s in
  let (fp, r2) := match r1 with
                  | String "." r => span_digits r
                  | _ => (EmptyString, r1)
                  end in
  match ip +:+ fp with
  | EmptyString => None
  | ds =>
      match parse_exponent r2 with
      | Some ex => Some (round_decimal neg (digits_value 0 ds)
                           (ex - Z.of_nat (String.length fp)))
      | None => None
      end
  end.

(** [float(s)] for a [str]: [None] stands for [ValueError]. *)
Definition parse (s : string) : option float :=
  match remove_underscores None (number_text s) with
  | None => None
  | Some t =>
      let (neg, body) := split_sign t in
      let word := lower body in
      if String.eqb word "inf" || String.eqb word "infinity"
      then Some (if neg then neg_infinity else infinity)
      else if String.eqb word "nan" then Some nan
      else parse_decimal neg body
  end.

(** *** [repr(x)]: the shortest decimal text that reads back as [x] *)

(** [x = num / den] for a positive finite [x = m * 2^e]. *)
Definition ratio (m : positive) (e : Z) : Z * Z :=
  if 0 <=? e then (Zpos m * 2 ^ e, 1) else (Zpos m, 2 ^ (- e)).

(** [num / den < 10^p] *)
Definition below_pow10 (num den p : Z) : bool :=
  if 0 <=? p then num <? den * 10 ^ p else num * 10 ^ (- p) <? den.

(** The least [p] from [start] on with [num / den < 10^p]. *)
Fixpoint find_decpt (fuel : nat) (num den p : Z) : Z :=
  match fuel with
  | O => p
  | S k => if below_pow10 num den p then p else find_decpt k num den (p + 1)
  end.

Definition decpt (m : positive) (e : Z) : Z :=
  let (num, den) := ratio m e in
  let bits := Zpos (digits2_pos m) + e in
  find_decpt 8 num den ((bits - 1) * 30103 / 100000 - 1).

(** The [n]-digit decimals below and above [x = num / den < 10^p], as
    integers scaled by [10^(n - p)], and which of them is nearer to [x]. *)
Definition neighbours (num den p : Z) (n : Z) : Z * Z * comparison :=
  let a := n - p in
  let (sn, sd) := if 0 <=? a then (num * 10 ^ a, den) else (num, den * 10 ^ (- a)) in
  let lo := sn / sd in
  let r := sn mod sd in
  (lo, if r =? 0 then lo else lo + 1, (2 * r ?= sd)).

(** The shortest digits: the first [n] for which one of the two [n]-digit
    neighbours of [x] reads back as [x], and then the nearer such one (the
    even one when [x] is half way). *)
Fixpoint shortest (fuel : nat) (x : float) (num den p n : Z) : Z * Z :=
  let '(lo, hi, side) := neighbours num den p n in
  let ok d := match Prim2SF (round_decimal false d (p - n)), Prim2SF x with
              | S754_finite _ m1 e1, S754_finite _ m2 e2 =>
                  Pos.eqb m1 m2 && (e1 =? e2)
              | _, _ => false
              end in
  match fuel with
  | O => (lo, p - n)
  | S k =>
      match ok lo, ok hi with
      | true, true =>
          (match side with
           | Gt => hi
           | Eq => if Z.even lo then lo else hi
           | Lt => lo
           end, p - n)
      | true, false => (lo, p - n)
      | false, true => (hi, p - n)
      | false, false => shortest k x num den p (n + 1)
      end
  end.

Fixpoint strip_zeros_rev (s : list ascii) : list ascii :=
  match s with
  | "0"%char :: r => strip_zeros_rev r
  | _ => s
  end.

(** The digits of [d] without its trailing zeros, and how many digits [d]
    has. *)
Definition significant (d : Z) : string * Z :=
  let s := PyInt.decimal d in
  (string_of_list_ascii (rev (strip_zeros_rev (rev (list_ascii_of_string s)))),
   Z.of_nat (String.length s)).

Fixpoint zeros (n : nat) : string :=
  match n with O => EmptyString | S k => String "0" (zeros k) end.

Definition exponent_text (e : Z) : string :=
  let a := PyInt.decimal (Z.abs e) in
  (if e <? 0 then "-" else "+") +:+ (if Z.abs e <? 10 then "0" else "") +:+ a.

(** The layout of [repr]: digits [ds] with the decimal point after the
    first [dp] of them; exponent notation when [dp <= -4] or [dp > 16]. *)
Definition layout (ds : string) (dp : Z) : string :=
  let len := Z.of_nat (String.length ds) in
  if (dp <=? -4) || (16 <? dp) then
    match ds with
    | String c EmptyString => String c EmptyString +:+ "e" +:+ exponent_text (dp - 1)
    | String c r => String c ("." +:+ r) +:+ "e" +:+ exponent_text (dp - 1)
    | EmptyString => EmptyString
    end
  else if dp <=? 0 then "0." +:+ zeros (Z.to_nat (- dp)) +:+ ds
  else if len <=? dp then ds +:+ zeros (Z.to_nat (dp - len)) +:+ ".0"
  else String.substring 0 (Z.to_nat dp) ds +:+ "."
       +:+ String.substring (Z.to_nat dp) (Z.to_nat (len - dp)) ds.

(** [repr(x)], which is also [str(x)] and what [csv.writer] writes. *)
Definition repr (x : float) : string :=
  match Prim2SF x with
  | S754_nan => "nan"
  | S754_infinity s => if s then "-inf" else "inf"
  | S754_zero s => if s then "-0.0" else "0.0"
  | S754_finite s m e =>
      let (num, den) := ratio m e in
      let p := decpt m e in
      let (d, k) := shortest 17 (PrimFloat.abs x) num den p 1 in
      let (ds, nd) := significant d in
      (if s then "-" else "") +:+ layout ds (k + nd)
  end.

End PyFloat.

(** ** The [csv] module, default dialect

    Delimiter comma, quote character the double quote, doubled quotes
    inside quoted fields, minimal quoting, line terminator CR LF, not
    strict, no escape character. *)

Module Csv.
Import Text.

Definition CR : ascii := "013"%char.
Definition LF : ascii := "010"%char.
Definition QUOTE : ascii := "034"%char.
Definition COMMA : ascii := ","%char.

Definition row := list string.

(** *** [csv.writer] *)

(** A field is quoted when it holds the delimiter, the quote character or a
    character of the line terminator. *)
Definition is_special (c : ascii) : bool :=
  Ascii.eqb c COMMA || Ascii.eqb c QUOTE || Ascii.eqb c CR || Ascii.eqb c LF.

Fixpoint double_quotes (s : string) : string :=
  match s with
  | EmptyString => EmptyString
  | String c r =>
      if Ascii.eqb c QUOTE then String QUOTE (String QUOTE (double_quotes r))
      else String c (double_quotes r)
  end.

Definition write_field (f : string) : string :=
  if contains_char is_special f
  then String QUOTE (double_quotes f +:+ String QUOTE EmptyString)
  else f.

Fixpoint join_fields (fs : list string) : string :=
  match fs with
  | [] => EmptyString
  | [f] => write_field f
  | f :: r => write_field f +:+ String COMMA (join_fields r)
  end.

Definition line_terminator : string := String CR (String LF EmptyString).

(** [writer.writerow(fields)]: the text written.  A record that is a single
    empty field is written as an empty quoted field. *)
Definition writerow (fields : row) : string :=
  match fields with
  | [EmptyString] => String QUOTE (String QUOTE line_terminator)
  | _ => join_fields fields +:+ line_terminator
  end.

Definition writerows (rows : list row) : string :=
  concat_strings (map writerow rows).

(** A loop of [writer.writerow] over rows whose fields are turned into
    text as each row is written.  A row whose conversion raises ([None])
    ends the loop, and nothing of that row is written: the text written,
    and whether the loop came to its end. *)
Fixpoint writerows_until (rows : list (option row)) : string * bool :=
  match rows with
  | [] => (EmptyString, true)
  | None :: _ => (EmptyString, false)
  | Some fields :: rest =>
      let (text, ok) := writerows_until rest in (writerow fields +:+ text, ok)
  end.

(** *** [csv.reader] *)

Inductive state :=
| START_RECORD | START_FIELD | IN_FIELD
| IN_QUOTED_FIELD | QUOTE_IN_QUOTED_FIELD | EAT_CRNL.

Record parser := {
  st : state;
  field : string;      (* the characters of the field being read *)
  fields : row         (* the fields of the record read so far *)
}.

Definition parse_reset : parser :=
  {| st := START_RECORD; field := EmptyString; fields := [] |}.

(** [csv.field_size_limit()], at its default. *)
Definition field_limit : Z := 131072.

(** A character is added to the field; [None] stands for [csv.Error],
    raised when the field has reached the limit. *)
Definition parse_add_char (p : parser) (c : ascii) : option parser :=
  if Z.of_nat (String.length (field p)) <? field_limit
  then Some {| st := st p; field := field p +:+ String c EmptyString;
               fields := fields p |}
  else None.

(** A character is added, and the parser goes to the state [s]. *)
Definition add_char_to (p : parser) (c : ascii) (s : state) : option parser :=
  match parse_add_char p c with
  | Some p' => Some {| st := s; field := field p'; fields := fields p' |}
  | None => None
  end.

Definition parse_save_field (p : parser) : parser :=
  {| st := st p; field := EmptyString; fields := (fields p ++ [field p])%list |}.

Definition set_state (p : parser) (s : state) : parser :=
  {| st := s; field := field p; fields := fields p |}.

(** What the parser is fed: a character of a line, or the end of a line. *)
Inductive input := Char (c : ascii) | EOL.

Definition is_newline (i : input) : bool :=
  match i with Char c => Ascii.eqb c LF || Ascii.eqb c CR | EOL => false end.

Definition start_field (p : parser) (i : input) : option parser :=
  match i with
  | EOL => Some (set_state (parse_save_field p) START_RECORD)
  | Char c =>
      if is_newline i then Some (set_state (parse_save_field p) EAT_CRNL)
      else if Ascii.eqb c QUOTE then Some (set_state p IN_QUOTED_FIELD)
      else if Ascii.eqb c COMMA then Some (parse_save_field p)
      else add_char_to p c IN_FIELD
  end.

(** One step of the parser; [None] stands for [csv.Error]. *)
Definition parse_process_char (p : parser) (i : input) : option parser :=
  match st p with
  | START_RECORD =>
      match i with
      | EOL => Some p
      | Char c =>
          if is_newline i then Some (set_state p EAT_CRNL)
          else start_field (set_state p START_FIELD) i
      end
  | START_FIELD => start_field p i
  | IN_FIELD =>
      match i with
      | EOL => Some (set_state (parse_save_field p) START_RECORD)
      | Char c =>
          if is_newline i then Some (set_state (parse_save_field p) EAT_CRNL)
          else if Ascii.eqb c COMMA
               then Some (set_state (parse_save_field p) START_FIELD)
               else parse_add_char p c
      end
  | IN_QUOTED_FIELD =>
      match i with
      | EOL => Some p
      | Char c =>
          if Ascii.eqb c QUOTE then Some (set_state p QUOTE_IN_QUOTED_FIELD)
          else parse_add_char p c
      end
  | QUOTE_IN_QUOTED_FIELD =>
      match i with
      | EOL => Some (set_state (parse_save_field p) START_RECORD)
      | Char c =>
          if Ascii.eqb c QUOTE
          then add_char_to p c IN_QUOTED_FIELD
          else if Ascii.eqb c COMMA
               then Some (set_state (parse_save_field p) START_FIELD)
               else if is_newline i
                    then Some (set_state (parse_save_field p) EAT_CRNL)
                    else add_char_to p c IN_FIELD
      end
  | EAT_CRNL =>
      match i with
      | EOL => Some (set_state p START_RECORD)
      | Char c => if is_newline i then Some p else None
      end
  end.

Definition is_start_record (s : state) : bool :=
  match s with START_RECORD => true | _ => false end.

Definition is_in_quoted (s : state) : bool :=
  match s with IN_QUOTED_FIELD => true | _ => false end.

(** The records read from a text: the rows, and [false] when reading ended
    with [csv.Error]. *)
Definition records := (list row * bool)%type.

Definition push (r : row) (rs : records) : records := (r :: fst rs, snd rs).

(** The end of the input: a record that is being read is closed. *)
Definition at_eof (p : parser) : records :=
  if negb (String.eqb (field p) EmptyString) || is_in_quoted (st p)
  then ([fields (parse_save_field p)], true)
  else ([], true).

(** The end of a line: the record is complete when the parser is back at
    the start of a record. *)
Definition end_of_line (p : parser) (continue : parser -> records) : records :=
  match parse_process_char p EOL with
  | None => ([], false)
  | Some p' =>
      if is_start_record (st p') then push (fields p') (continue parse_reset)
      else continue p'
  end.

(** Iterating over the reader.  The file object yields the lines of the
    text, each with its terminator LF; the reader feeds the characters of a
    line to the parser, then the end of the line.  [midline] tells that the
    current line has characters already. *)
Fixpoint feed (p : parser) (midline : bool) (s : string) : records :=
  match s with
  | EmptyString =>
      if midline then end_of_line p at_eof else at_eof p
  | String c rest =>
      match parse_process_char p (Char c) with
      | None => ([], false)
      | Some p' =>
          if Ascii.eqb c LF
          then end_of_line p' (fun q => feed q false rest)
          else feed p' true rest
      end
  end.

(** Reading a file in text mode with the default [newline=None]: the line
    ends CR LF and CR are translated to LF. *)
Fixpoint universal_newlines (s : string) : string :=
  match s with
  | EmptyString => EmptyString
  | String c r =>
      if Ascii.eqb c CR then
        String LF match r with
                  | String c' r' =>
                      if Ascii.eqb c' LF then universal_newlines r'
                      else universal_newlines r
                  | EmptyString => EmptyString
                  end
      else String c (universal_newlines r)
  end.

(** [csv.reader(file)] for a file opened with [open(name, "r")]. *)
Definition reader (text : string) : records :=
  feed parse_reset false (universal_newlines text).

End Csv.

(** ** Dictionaries

    A Python [dict] with [str] keys: entries in insertion order, one per
    key.  Assigning to a key that is present replaces its value in place;
    assigning to a new key appends an entry. *)

Module Dict.
Section Dict.
Context {V : Type}.

Definition t := list (string * V).

Definition empty : t := [].

Fixpoint get (d : t) (k : string) : option V :=
  match d with
  | [] => None
  | (k', v) :: r => if String.eqb k k' then Some v else get r k
  end.

(** [k in d] *)
Definition contains (d : t) (k : string) : bool :=
  match get d k with Some _ => true | None => false end.

(** [d[k] = v] *)
Fixpoint set (d : t) (k : string) (v : V) : t :=
  match d with
  | [] => [(k, v)]
  | (k', v') :: r =>
      if String.eqb k k' then (k, v) :: r else (k', v') :: set r k v
  end.

Definition keys (d : t) : list string := map fst d.

(** [d.values()] *)
Definition values (d : t) : list V := map snd d.

End Dict.
Arguments t : clear implicits.
End Dict.

(** ** The program *)

Inductive exn := ValueError | OverflowError | EOFError | CsvError.

(** What a call does: it returns a value, or raises.  An exception that no
    handler of the program catches ends the run. *)
Inductive outcome (A : Type) :=
| Returned (a : A)
| Raised (e : exn).
Arguments Returned {A} a.
Arguments Raised {A} e.

(** *** class Product *)

Record Product := {
  product_id : string;
  name : string;
  price : float;
  quantity : Z
}.

Definition with_quantity (p : Product) (q : Z) : Product :=
  {| product_id := product_id p; name := name p; price := price p;
     quantity := q |}.

(** *** The world outside the objects: files, log and console *)

Inductive level := WARNING | ERROR | INFO.

(** A record of [shop.log]: its level and message.  The message of the
    error caught while loading names the exception. *)
Inductive log_message :=
| Message (text : string)
| ErrorLoadingInventory (e : exn).

Definition log_record := (level * log_message)%type.

(** A line printed on the console.  The prompts of [input] are not
    recorded. *)
Inductive printed :=
| Line (text : string)
| AddedToSale (quantity : Z) (name : string) (total_price : float).

Record world := {
  inventory_csv : option string;   (* the file inventory.csv *)
  sales_csv : option string;       (* the file sales.csv *)
  shop_log : list log_record;      (* the records of shop.log, oldest first *)
  console : list printed           (* the lines printed, oldest first *)
}.

Definition log (w : world) (l : level) (m : log_message) : world :=
  {| inventory_csv := inventory_csv w; sales_csv := sales_csv w;
     shop_log := (shop_log w ++ [(l, m)])%list; console := console w |}.

Definition print (w : world) (p : printed) : world :=
  {| inventory_csv := inventory_csv w; sales_csv := sales_csv w;
     shop_log := shop_log w; console := (console w ++ [p])%list |}.

Definition write_inventory_csv (w : world) (text : string) : world :=
  {| inventory_csv := Some text; sales_csv := sales_csv w;
     shop_log := shop_log w; console := console w |}.

Definition write_sales_csv (w : world) (text : string) : world :=
  {| inventory_csv := inventory_csv w; sales_csv := Some text;
     shop_log := shop_log w; console := console w |}.

(** *** class Inventory *)

Module Inventory.

Definition header : Csv.row :=
  ["product_id"; "product_name"; "price"; "quantity"].

(** The body of the loop of [load_inventory] over the rows that follow the
    header: the products read, and the exception that ended the loop, if
    any. *)
Fixpoint load_rows (rows : list Csv.row) (products : Dict.t Product)
  : Dict.t Product * option exn :=
  match rows with
  | [] => (products, None)
  | row :: rest =>
      if (length row <? 4)%nat then load_rows rest products
      else
        match row with
        | [product_id; name; price; quantity] =>
            match PyFloat.parse price with
            | None => (products, Some ValueError)
            | Some p =>
                match PyInt.parse quantity with
                | None => (products, Some ValueError)
                | Some q =>
                    load_rows rest
                      (Dict.set products product_id
                         {| product_id := product_id; name := name;
                            price := p; quantity := q |})
                end
            end
        | _ => (products, Some ValueError)   (* too many values to unpack *)
        end
  end.

(** [load_inventory]: the products, and the records logged. *)
Definition load_inventory (file : option string)
  : Dict.t Product * list log_record :=
  match file with
  | None =>
      (Dict.empty,
       [(WARNING, Message "Inventory file not found. Creating a new one.")])
  | Some text =>
      let (rows, ok) := Csv.reader text in
      match load_rows (tl rows) Dict.empty with
      | (products, Some e) => (products, [(ERROR, ErrorLoadingInventory e)])
      | (products, None) =>
          (products,
           if ok then [] else [(ERROR, ErrorLoadingInventory CsvError)])
      end
  end.

(** The row of a product, as the writer turns it into text: [None] when
    the text of the quantity raises [ValueError]. *)
Definition product_row (p : Product) : option Csv.row :=
  match PyInt.str (quantity p) with
  | Some q => Some [product_id p; name p; PyFloat.repr (price p); q]
  | None => None
  end.

(** What the loop of [save_inventory] writes, and whether it came to its
    end. *)
Definition written (products : Dict.t Product) : string * bool :=
  Csv.writerows_until (Some header :: map product_row (Dict.values products)).

(** The text that [save_inventory] leaves in the file. *)
Definition inventory_text (products : Dict.t Product) : string :=
  fst (written products).

(** [save_inventory]: the file is overwritten; the world after the call,
    and the exception that left it, if any.  When the quantity of a product
    has no text, the file is left with the rows written before that
    product. *)
Definition save_inventory (products : Dict.t Product) (w : world)
  : world * option exn :=
  (write_inventory_csv w (inventory_text products),
   if snd (written products) then None else Some ValueError).

(** [add_product]: the products and the world after the call, and the
    exception that left it, if any. *)
Definition add_product_call (products : Dict.t Product) (w : world)
    (product_id name : string) (price : float) (quantity : Z)
  : Dict.t Product * world * option exn :=
  if Dict.contains products product_id then
    (products,
     print (log w ERROR (Message "Product ID already exists"))
           (Line "Product ID already exists!"),
     None)
  else
    let products' :=
      Dict.set products product_id
        {| product_id := product_id; name := name; price := price;
           quantity := quantity |} in
    match save_inventory products' w with
    | (w1, Some e) => (products', w1, Some e)
    | (w1, None) =>
        let w2 := log w1 INFO
                    (Message ("Added product " +:+ name +:+ " with ID "
                              +:+ product_id +:+ ".")) in
        (products', print w2 (Line "Product added successfully!"), None)
    end.

(** The products and the world that [add_product] leaves. *)
Definition add_product (products : Dict.t Product) (w : world)
    (product_id name : string) (price : float) (quantity : Z)
  : Dict.t Product * world :=
  fst (add_product_call products w product_id name price quantity).

End Inventory.

(** *** class Sale *)

Module Sale.

(** An item of a sale: [[product_id, name, quantity, total_price]]. *)
Record item := {
  item_product_id : string;
  item_name : string;
  item_quantity : Z;
  item_total_price : float
}.

Record t := {
  sale_id : string;
  items : list item
}.

Definition new (sale_id : string) : t := {| sale_id := sale_id; items := [] |}.

(** [add_item]: the sale with the item appended, and the total returned.
    The product of the price by the quantity raises [OverflowError] when
    the quantity is out of the range of a [float]. *)
Definition add_item (sale : t) (product : Product) (quantity : Z)
  : outcome (t * float) :=
  match PyFloat.mul_int (price product) quantity with
  | None => Raised OverflowError
  | Some total_price =>
      Returned
        ({| sale_id := sale_id sale;
            items := (items sale ++
                      [{| item_product_id := product_id product;
                          item_name := name product;
                          item_quantity := quantity;
                          item_total_price := total_price |}])%list |},
         total_price)
  end.

End Sale.

(** *** class SalesManager *)

Module SalesManager.

Definition header : Csv.row :=
  ["Sale ID"; "Product ID"; "Product Name"; "Quantity Sold"; "Total Price"].

(** [ensure_sales_file] *)
Definition ensure_sales_file (w : world) : world :=
  match sales_csv w with
  | Some _ => w
  | None => write_sales_csv w (Csv.writerow header)
  end.

Fixpoint sale_ids (rows : list Csv.row) : gset string :=
  match rows with
  | [] => ∅
  | [] :: rest => sale_ids rest
  | (id :: _) :: rest => {[ id ]} ∪ sale_ids rest
  end.

(** [get_existing_sales]: the set of the first fields of the rows that
    follow the header; empty when the file does not exist. *)
Definition get_existing_sales (file : option string) : outcome (gset string) :=
  match file with
  | None => Returned ∅
  | Some text =>
      match Csv.reader text with
      | (rows, true) => Returned (sale_ids (tl rows))
      | (_, false) => Raised CsvError
      end
  end.

(** The row of an item, as the writer turns it into text: [None] when the
    text of the quantity raises [ValueError]. *)
Definition item_row (sale_id : string) (i : Sale.item) : option Csv.row :=
  match PyInt.str (Sale.item_quantity i) with
  | Some q =>
      Some [sale_id; Sale.item_product_id i; Sale.item_name i; q;
            PyFloat.repr (Sale.item_total_price i)]
  | None => None
  end.

(** What the loop of [save_sale] writes, and whether it came to its end. *)
Definition appended (sale : Sale.t) : string * bool :=
  Csv.writerows_until (map (item_row (Sale.sale_id sale)) (Sale.items sale)).

(** The text that [save_sale] appends: one row for each item. *)
Definition sale_text (sale : Sale.t) : string := fst (appended sale).

Definition file_text (file : option string) : string :=
  match file with Some text => text | None => EmptyString end.

Definition save_sale (w : world) (sale : Sale.t) : outcome world :=
  match get_existing_sales (sales_csv w) with
  | Raised e => Raised e
  | Returned existing_sales =>
      if bool_decide (Sale.sale_id sale ∈ existing_sales) then
        Returned
          (print
             (log w ERROR
                (Message ("Sale ID " +:+ Sale.sale_id sale
                          +:+ " already exists. Choose a different ID.")))
             (Line "Sale ID already exists. Choose a different ID."))
      else
        let w1 := write_sales_csv w
                    (file_text (sales_csv w) +:+ sale_text sale) in
        if snd (appended sale) then
          Returned
            (log w1 INFO
               (Message ("Sale " +:+ Sale.sale_id sale
                         +:+ " recorded successfully.")))
        else Raised ValueError
  end.

End SalesManager.

(** *** class ShopSystem *)

Module ShopSystem.

(** The shop: the products of its inventory, and the world around it. *)
Record t := {
  products : Dict.t Product;
  env : world
}.

Definition with_env (s : t) (w : world) : t :=
  {| products := products s; env := w |}.

Definition say (s : t) (p : printed) : t := with_env s (print (env s) p).

(** [ShopSystem()]: the inventory is loaded, the sales file created. *)
Definition init (w : world) : t :=
  let (products, records) := Inventory.load_inventory (inventory_csv w) in
  let w1 := fold_left (fun w r => log w (fst r) (snd r)) records w in
  {| products := products; env := SalesManager.ensure_sales_file w1 |}.

(** [ShopSystem.add_product]: the operator's answers are the lines of
    [stdin]; the result comes with the lines left. *)
Definition add_product (stdin : list string) (s : t)
  : outcome (t * list string) :=
  match stdin with
  | id_line :: name_line :: price_line :: rest =>
      let product_id := Text.strip id_line in
      let name := Text.strip name_line in
      match PyFloat.parse (Text.strip price_line) with
      | None =>
          Returned
            (say s (Line "Invalid input! Price must be a number, and quantity must be an integer."),
             rest)
      | Some price =>
          match rest with
          | [] => Raised EOFError
          | quantity_line :: rest' =>
              match PyInt.parse (Text.strip quantity_line) with
              | None =>
                  Returned
                    (say s (Line "Invalid input! Price must be a number, and quantity must be an integer."),
                     rest')
              | Some quantity =>
                  match Inventory.add_product_call (products s) (env s)
                          product_id name price quantity with
                  | (_, _, Some e) => Raised e
                  | (products', w', None) =>
                      Returned ({| products := products'; env := w' |}, rest')
                  end
              end
          end
      end
  | _ => Raised EOFError
  end.

(** The body of the [try] of [process_sale], for the product found under
    the key [product_id] and the operator's answer to the quantity prompt:
    the shop and the sale after it. *)
Definition sell (s : t) (sale : Sale.t) (product_id : string)
    (product : Product) (answer : string) : outcome (t * Sale.t) :=
  match PyInt.parse (Text.strip answer) with
  | None => Returned (say s (Line "Invalid quantity! Enter a valid integer."), sale)
  | Some qty =>
      if qty >? quantity product then
        Returned (say s (Line "Not enough stock available."), sale)
      else
        match Sale.add_item sale product qty with
        | Raised e => Raised e
        | Returned (sale', total_price) =>
            let products' :=
              Dict.set (products s) product_id
                (with_quantity product (quantity product - qty)) in
            Returned
              (say {| products := products'; env := env s |}
                   (AddedToSale qty (name product) total_price),
               sale')
        end
  end.

(** The loop of [process_sale] that collects the items. *)
Fixpoint collect (stdin : list string) (s : t) (sale : Sale.t)
  : outcome (t * Sale.t * list string) :=
  match stdin with
  | [] => Raised EOFError
  | line :: rest =>
      let product_id := Text.strip line in
      if String.eqb (Text.lower product_id) "done" then
        Returned (s, sale, rest)
      else
        match Dict.get (products s) product_id with
        | None => collect rest (say s (Line "Invalid Product ID. Try again.")) sale
        | Some product =>
            match rest with
            | [] => Raised EOFError
            | answer :: rest' =>
                match sell s sale product_id product answer with
                | Raised e => Raised e
                | Returned (s', sale') => collect rest' s' sale'
                end
            end
        end
  end.

(** What [process_sale] does once the items are collected: the inventory
    is saved, then the sale. *)
Definition finish_sale (s : t) (sale : Sale.t) : outcome t :=
  match Inventory.save_inventory (products s) (env s) with
  | (_, Some e) => Raised e
  | (w1, None) =>
      match SalesManager.save_sale w1 sale with
      | Raised e => Raised e
      | Returned w2 =>
          Returned
            (say (with_env s w2)
               (Line ("Sale " +:+ Sale.sale_id sale
                      +:+ " recorded successfully.")))
      end
  end.

Definition process_sale (stdin : list string) (s : t)
  : outcome (t * list string) :=
  match stdin with
  | [] => Raised EOFError
  | line :: rest =>
      let sale_id := Text.strip line in
      match collect rest s (Sale.new sale_id) with
      | Raised e => Raised e
      | Returned (s1, sale, rest') =>
          match finish_sale s1 sale with
          | Raised e => Raised e
          | Returned s2 => Returned (s2, rest')
          end
      end
  end.

End ShopSystem.

(** *** The reports and the menu

    [tabulate] is the function of the library of that name, called with
    [tablefmt="grid"]: the text it returns is not modelled, the program
    prints it as it is. *)

(** A cell of a table given to [tabulate]. *)
Inductive cell := Str (s : string) | Float (x : float) | Int (n : Z).

(** The [headers] argument of [tabulate]: a list of names, or
    ["firstrow"]. *)
Inductive headers := Headers (names : list string) | FirstRow.

Section Reports.
Variable tabulate : list (list cell) -> headers -> string.

Definition inventory_table (products : Dict.t Product) : list (list cell) :=
  map (fun p => [Str (product_id p); Str (name p); Float (price p);
                 Int (quantity p)])
      (Dict.values products).

(** [Inventory.view_inventory] *)
Definition view_inventory (products : Dict.t Product) (w : world) : world :=
  match products with
  | [] => print w (Line "No products in inventory.")
  | _ =>
      print w
        (Line (tabulate (inventory_table products)
                 (Headers ["Product ID"; "Name"; "Price"; "Stock"])))
  end.

(** [SalesManager.view_sales] *)
Definition view_sales (w : world) : outcome world :=
  match sales_csv w with
  | None => Returned (print w (Line "No sales recorded yet."))
  | Some text =>
      match Csv.reader text with
      | (sales, true) =>
          if (length sales <=? 1)%nat
          then Returned (print w (Line "No sales recorded yet."))
          else Returned
                 (print w (Line (tabulate (map (map Str) sales) FirstRow)))
      | (_, false) => Raised CsvError
      end
  end.

Definition menu_text : list printed :=
  [Line (String Csv.LF "--- Small Shop Management System ---");
   Line "1. View Inventory";
   Line "2. Add Product to Inventory";
   Line "3. Process a Sale";
   Line "4. View Sales Report";
   Line "5. Exit"].

(** [ShopSystem.menu]: [fuel] bounds the number of turns of the loop, and
    [None] tells that it was too small; the result comes with the lines of
    [stdin] left. *)
Fixpoint menu (fuel : nat) (stdin : list string) (s : ShopSystem.t)
  : option (outcome (ShopSystem.t * list string)) :=
  match fuel with
  | O => None
  | S fuel' =>
      let s0 := fold_left ShopSystem.say menu_text s in
      match stdin with
      | [] => Some (Raised EOFError)
      | line :: rest =>
          let choice := Text.strip line in
          if String.eqb choice "1" then
            menu fuel' rest
              (ShopSystem.with_env s0
                 (view_inventory (ShopSystem.products s0) (ShopSystem.env s0)))
          else if String.eqb choice "2" then
            match ShopSystem.add_product rest s0 with
            | Raised e => Some (Raised e)
            | Returned (s1, rest1) => menu fuel' rest1 s1
            end
          else if String.eqb choice "3" then
            match ShopSystem.process_sale rest s0 with
            | Raised e => Some (Raised e)
            | Returned (s1, rest1) => menu fuel' rest1 s1
            end
          else if String.eqb choice "4" then
            match view_sales (ShopSystem.env s0) with
            | Raised e => Some (Raised e)
            | Returned w1 => menu fuel' rest (ShopSystem.with_env s0 w1)
            end
          else if String.eqb choice "5" then
            Some (Returned
                    (ShopSystem.say s0 (Line "Exiting system. Goodbye!"), rest))
          else
            menu fuel' rest
              (ShopSystem.say s0 (Line "Invalid choice. Please try again."))
      end
  end.

End Reports.

(** * Notions of the statements *)

(** Whether a text holds a carriage return. *)
Definition has_cr (s : string) : bool :=
  Text.contains_char (fun c => Ascii.eqb c Csv.CR) s.

(** A product at 9.99, ten on hand. *)
Definition widget : Product :=
  {| product_id := "p1"; name := "Widget";
     price := 0x1.3fae147ae147bp+3%float;    (* 9.99 *)
     quantity := 10 |}.

(** The first run: no file, nothing logged or printed. *)
Definition empty_world : world :=
  {| inventory_csv := None; sales_csv := None; shop_log := []; console := [] |}.

(** The identifiers that [get_existing_sales] finds. *)
Definition existing_ids (file : option string) : gset string :=
  match file with
  | None => ∅
  | Some text => SalesManager.sale_ids (tl (fst (Csv.reader text)))
  end.

(** Every quantity within the stock is sold, whatever its size: a
    proposition about [sell]. *)
Definition every_quantity_within_stock_is_sold : Prop :=
  forall (s : ShopSystem.t) (sale : Sale.t) (pid : string)
         (product : Product) (answer : string) (q : Z),
    Dict.get (ShopSystem.products s) pid = Some product ->
    PyInt.parse (Text.strip answer) = Some q ->
    q <= quantity product ->
    exists s' sale',
      ShopSystem.sell s sale pid product answer = Returned (s', sale')
      /\ Dict.get (ShopSystem.products s') pid
         = Some (with_quantity product (quantity product - q)).

(** A product with a stock of 310 digits. *)
Definition bulk : Product :=
  {| product_id := "p2"; name := "Grain"; price := 1%float;
     quantity := 10 ^ 309 |}.

(** Every integer up to the stock is accepted, whatever its size: a
    proposition about [sell]. *)
Definition every_integer_up_to_stock_is_accepted : Prop :=
  forall (s : ShopSystem.t) (sale : Sale.t) (pid : string)
         (product : Product) (answer : string) (q : Z),
    Dict.get (ShopSystem.products s) pid = Some product ->
    PyInt.parse (Text.strip answer) = Some q ->
    q <= quantity product ->
    exists s' sale' p',
      ShopSystem.sell s sale pid product answer = Returned (s', sale')
      /\ Dict.get (ShopSystem.products s') pid = Some p'
      /\ quantity p' = quantity product - q.

(** Every quantity on hand is non-negative. *)
Definition stock_nonneg (d : Dict.t Product) : Prop :=
  Forall (fun e => 0 <= quantity (snd e)) d.

(** A shop with ten widgets, whose ledger holds the sale S1. *)
Definition shop_after_S1 : ShopSystem.t :=
  {| ShopSystem.products := [("p1", widget)];
     ShopSystem.env :=
       {| inventory_csv := Some (Inventory.inventory_text [("p1", widget)]);
          sales_csv :=
            Some (Csv.writerows
                    [SalesManager.header;
                     ["S1"; "p1"; "Widget"; "3"; "29.97"]]);
          shop_log := []; console := [] |} |}.

(** The product of a row of four fields whose price and quantity are
    numbers. *)
Definition row_product (r : Csv.row) : option Product :=
  match r with
  | [i; n; p; q] =>
      match PyFloat.parse p, PyInt.parse q with
      | Some pv, Some qv =>
          Some {| product_id := i; name := n; price := pv; quantity := qv |}
      | _, _ => None
      end
  | _ => None
  end.

(** A row that the loop of [load_inventory] gets past: it has fewer than
    four fields, or it is the row of a product. *)
Definition loadable (r : Csv.row) : Prop :=
  (length r < 4)%nat \/ row_product r <> None.

(** The products of the rows: a row with fewer than four fields adds
    nothing, the row of a product sets the entry of its identifier. *)
Fixpoint products_of (rows : list Csv.row) (d : Dict.t Product) : Dict.t Product :=
  match rows with
  | [] => d
  | r :: rest =>
      match row_product r with
      | Some p => products_of rest (Dict.set d (product_id p) p)
      | None => products_of rest d
      end
  end.

(** A row with a number that does not parse, whatever follows its four
    first fields. *)
Definition malformed_number (r : Csv.row) : Prop :=
  exists i n p q more,
    r = i :: n :: p :: q :: more
    /\ (PyFloat.parse p = None \/ PyInt.parse q = None).

(** The load goes on until the first row with a malformed number: the rows
    of four fields before that row are among the products.  A proposition
    about [load_rows]. *)
Definition load_stops_at_first_malformed_number : Prop :=
  forall pre bad post,
    Forall (fun r => ~ malformed_number r) pre ->
    malformed_number bad ->
    forall i n p q,
      In [i; n; p; q] pre ->
      Dict.get (fst (Inventory.load_rows (pre ++ bad :: post) Dict.empty)) i
      <> None.

(** An inventory file with a product, a row of two fields, a row whose
    price is not a number, and a product after it. *)
Definition damaged_inventory : string :=
  Csv.writerows
    [Inventory.header;
     ["p1"; "Widget"; "9.99"; "10"];
     ["x"; "y"];
     ["p2"; "Gadget"; "abc"; "1"];
     ["p3"; "Thing"; "1.0"; "1"]].

(** The fields of a product. *)
Definition tuple_of (p : Product) : string * string * float * Z :=
  (product_id p, name p, price p, quantity p).

(** The (identifier, name, price, quantity) tuples of an inventory. *)
Definition tuples (d : Dict.t Product) : list (string * string * float * Z) :=
  map tuple_of (Dict.values d).

(** Two inventories with the same set of tuples. *)
Definition same_tuples (d d' : Dict.t Product) : Prop :=
  forall t, In t (tuples d) <-> In t (tuples d').

(** Each product is under the key of its own identifier, as
    [load_inventory] and [add_product] store it. *)
Definition keyed (d : Dict.t Product) : Prop :=
  Forall (fun e => fst e = product_id (snd e)) d.

(** Every inventory is loaded back from the file written from it with the
    same set of tuples. *)
Definition every_inventory_round_trips : Prop :=
  forall d : Dict.t Product,
    NoDup (Dict.keys d) -> keyed d ->
    same_tuples (fst (Inventory.load_inventory
                        (Some (Inventory.inventory_text d)))) d.

(** A product whose name holds a carriage return. *)
Definition two_lines : Product :=
  {| product_id := "p1"; name := "a" +:+ String Csv.CR "b";
     price := 1%float; quantity := 1 |}.

(** The same product, with a line feed in its name. *)
Definition two_lines_read_back : Product :=
  {| product_id := "p1"; name := "a" +:+ String Csv.LF "b";
     price := 1%float; quantity := 1 |}.

(** A text within the limit of [csv] on the size of a field. *)
Definition within_limit (f : string) : Prop :=
  Z.of_nat (String.length f) <= Csv.field_limit.

(** A field that is read back as it was written: it holds no carriage
    return and is within the limit on the size of a field. *)
Definition field_ok (f : string) : Prop :=
  has_cr f = false /\ within_limit f.

(** The fields of the row of a product. *)
Definition product_fields (p : Product) : Csv.row :=
  [product_id p; name p; PyFloat.repr (price p); PyInt.decimal (quantity p)].

(** A product whose identifier and name are read back as written, whose
    price is read back from its own text, and whose quantity has a text. *)
Definition text_ok (p : Product) : Prop :=
  field_ok (product_id p)
  /\ field_ok (name p)
  /\ PyFloat.parse (PyFloat.repr (price p)) = Some (price p)
  /\ within_limit (PyFloat.repr (price p))
  /\ PyInt.str (quantity p) <> None.

(** A product whose identifier, name and price are read back as written. *)
Definition fields_ok (p : Product) : Prop :=
  field_ok (product_id p)
  /\ field_ok (name p)
  /\ PyFloat.parse (PyFloat.repr (price p)) = Some (price p)
  /\ within_limit (PyFloat.repr (price p)).

(** Every quantity on hand has a text: none has more digits than the limit
    of [str]. *)
Definition printable (d : Dict.t Product) : Prop :=
  Forall (fun e => PyInt.str (quantity (snd e)) <> None) d.

(** A product whose name is written between quotes. *)
Definition nut : Product :=
  {| product_id := "p2"; name := "Nut, 5 mm"; price := 0.5%float;
     quantity := 0 |}.

(** ** Notions of the proofs *)

Section ProofNotions.
Import Text Csv.

(** The value of decimal digits read from the left. *)
Fixpoint uint_value (acc : Z) (d : Decimal.uint) : Z :=
  match d with
  | Decimal.Nil => acc
  | Decimal.D0 l => uint_value (10 * acc + 0) l
  | Decimal.D1 l => uint_value (10 * acc + 1) l
  | Decimal.D2 l => uint_value (10 * acc + 2) l
  | Decimal.D3 l => uint_value (10 * acc + 3) l
  | Decimal.D4 l => uint_value (10 * acc + 4) l
  | Decimal.D5 l => uint_value (10 * acc + 5) l
  | Decimal.D6 l => uint_value (10 * acc + 6) l
  | Decimal.D7 l => uint_value (10 * acc + 7) l
  | Decimal.D8 l => uint_value (10 * acc + 8) l
  | Decimal.D9 l => uint_value (10 * acc + 9) l
  end.

(** What [int] does with a text without white space around it. *)
Definition parse_stripped (t : string) : option Z :=
  match t with
  | String "-" r => option_map Z.opp (PyInt.literal r)
  | String "+" r => PyInt.literal r
  | _ => PyInt.literal t
  end.

(** A decimal digit put before decimal digits. *)
Definition digit_of (c : ascii) (d : Decimal.uint) : Decimal.uint :=
  match digit_value c with
  | 0 => Decimal.D0 d
  | 1 => Decimal.D1 d
  | 2 => Decimal.D2 d
  | 3 => Decimal.D3 d
  | 4 => Decimal.D4 d
  | 5 => Decimal.D5 d
  | 6 => Decimal.D6 d
  | 7 => Decimal.D7 d
  | 8 => Decimal.D8 d
  | 9 => Decimal.D9 d
  | _ => d
  end.

(** The decimal digits of a text, its other characters left out. *)
Fixpoint digits_uint (s : string) : Decimal.uint :=
  match s with
  | EmptyString => Decimal.Nil
  | String c r =>
      if is_digit c then digit_of c (digits_uint r) else digits_uint r
  end.

(** The parser in state [s], with the field [f] begun after the fields
    [fs]. *)
Definition mk (s : state) (f : string) (fs : row) : parser :=
  {| st := s; field := f; fields := fs |}.

(** A written field, from the start of a field to the state that precedes
    its terminator. *)
Definition after_field (f : string) (fs : row) : parser :=
  if contains_char is_special f
  then mk QUOTE_IN_QUOTED_FIELD f fs
  else match f with
       | EmptyString => mk START_FIELD EmptyString fs
       | _ => mk IN_FIELD f fs
       end.

(** The fields written before a field of the same record, each with the
    comma that follows it. *)
Definition fields_prefix (a : row) : string :=
  concat_strings (map (fun x => write_field x +:+ String COMMA "") a).

(** What [writerow] writes before the line terminator. *)
Definition record_text (fields : row) : string :=
  match fields with
  | [EmptyString] => String QUOTE (String QUOTE EmptyString)
  | _ => join_fields fields
  end.

End ProofNotions.

(** ** Notions of the further properties *)

(** The identifiers are unique, and each product is under its own. *)
Definition well_keyed (d : Dict.t Product) : Prop :=
  NoDup (Dict.keys d) /\ keyed d.

(** The quantity on hand under a key; zero without a product. *)
Definition quantity_at (d : Dict.t Product) (k : string) : Z :=
  match Dict.get d k with
  | Some p => quantity p
  | None => 0
  end.

(** The quantity of the items of a sale recorded for an identifier. *)
Fixpoint sold (items : list Sale.item) (k : string) : Z :=
  match items with
  | [] => 0
  | i :: rest =>
      (if String.eqb (Sale.item_product_id i) k then Sale.item_quantity i else 0)
      + sold rest k
  end.

(** An item of a sale agrees with the inventory: the product of its
    identifier has its name, and its total is the price of that product
    times its quantity. *)
Definition item_agrees (d : Dict.t Product) (i : Sale.item) : Prop :=
  exists p,
    Dict.get d (Sale.item_product_id i) = Some p
    /\ name p = Sale.item_name i
    /\ PyFloat.mul_int (price p) (Sale.item_quantity i)
       = Some (Sale.item_total_price i).

(** The inventory file holds the products in memory: it was written from
    them, or they were loaded from it. *)
Definition in_sync (s : ShopSystem.t) : Prop :=
  inventory_csv (ShopSystem.env s)
  = Some (Inventory.inventory_text (ShopSystem.products s))
  \/ ShopSystem.products s
     = fst (Inventory.load_inventory (inventory_csv (ShopSystem.env s))).

(** The fields of the row of an item. *)
Definition item_fields (sale_id : string) (i : Sale.item) : Csv.row :=
  [sale_id; Sale.item_product_id i; Sale.item_name i;
   PyInt.decimal (Sale.item_quantity i);
   PyFloat.repr (Sale.item_total_price i)].

(** The quantities of the items of a sale have a text, as those that
    [add_item] records have: they are within the range of a [float]. *)
Definition items_printable (sale : Sale.t) : Prop :=
  Forall (fun i => PyInt.str (Sale.item_quantity i) <> None) (Sale.items sale).

(** The fields of the rows of a sale are read back as written. *)
Definition sale_text_ok (sale : Sale.t) : Prop :=
  field_ok (Sale.sale_id sale)
  /\ Forall (fun i => field_ok (Sale.item_product_id i)
                      /\ field_ok (Sale.item_name i)
                      /\ within_limit (PyFloat.repr (Sale.item_total_price i)))
            (Sale.items sale).

(** The rows of a file whose fields are read back as written. *)
Definition rows_ok (rows : list Csv.row) : Prop :=
  Forall (Forall field_ok) rows.

(** A rendering of tables, to run the reports and the menu. *)
Definition cells_text (table : list (list cell)) (h : headers) : string :=
  Text.concat_strings
    (map (fun r =>
            Text.concat_strings
              (map (fun c => match c with
                             | Str s => s
                             | Float x => PyFloat.repr x
                             | Int n => PyInt.decimal n
                             end +:+ " ") r)
            +:+ "|") table).

(** A session: a product is added, three of it are sold, the reports are
    shown, and the operator leaves. *)
Definition session : list string :=
  ["2"; "p1"; "Widget"; "9.99"; "10";
   "3"; "S1"; "p1"; "3"; "done";
   "1"; "4"; "x"; "5"].

(** The shop at the end of the session. *)
Definition session_end : ShopSystem.t :=
  match menu cells_text 20 session (ShopSystem.init empty_world) with
  | Some (Returned (s', _)) => s'
  | _ => ShopSystem.init empty_world
  end.

(** An inventory file with two rows for the identifier p1. *)
Definition repeated_inventory : string :=
  Csv.writerows
    [Inventory.header;
     ["p1"; "Old"; "1.0"; "1"];
     ["p2"; "Nut, 5 mm"; "0.5"; "0"];
     ["p1"; "Widget"; "9.99"; "10"]].

(** The sale of three widgets under the identifier S2. *)
Definition sale_S2 : Sale.t :=
  {| Sale.sale_id := "S2";
     Sale.items :=
       [{| Sale.item_product_id := "p1"; Sale.item_name := "Widget";
           Sale.item_quantity := 3;
           Sale.item_total_price := 0x1.df851eb851eb8p+4%float |}] |}.

(** The quantity of 4301 digits that a sale of -1 leaves of a stock of
    4300 nines. *)
Definition past_limit : Z := 10 ^ 4300.

(** A product with a stock of 4300 nines. *)
Definition hoard : Product :=
  {| product_id := "p2"; name := "Grain"; price := 1%float;
     quantity := past_limit - 1 |}.

(** A name of 131073 characters. *)
Definition long_name : string := PyFloat.zeros (Z.to_nat 131073).

(** The parser holds no carriage return and no field over the limit. *)
Definition parser_ok (p : Csv.parser) : Prop :=
  field_ok (Csv.field p) /\ Forall field_ok (Csv.fields p).

(** A sale of three widgets whose identifier holds a carriage return. *)
Definition sale_two_lines : Sale.t :=
  {| Sale.sale_id := "S" +:+ String Csv.CR "1";
     Sale.items := Sale.items sale_S2 |}.

(** * Properties *)

(** ** Text *)

Section TextFacts.
Import Text.

Lemma str_app_cons (c : ascii) (s t : string) :
  String c s +:+ t = String c (s +:+ t).
Proof. reflexivity. Qed.

Lemma str_app_nil_l (s : string) : "" +:+ s = s.
Proof. reflexivity. Qed.

Lemma str_app_nil_r (s : string) : s +:+ "" = s.
Proof.
  induction s as [|c s IH]; [reflexivity |]. now rewrite str_app_cons, IH.
Qed.

Lemma str_app_assoc (a b c : string) : (a +:+ b) +:+ c = a +:+ (b +:+ c).
Proof.
  induction a as [|x a IH]; [reflexivity |]. now rewrite !str_app_cons, IH.
Qed.

Lemma contains_char_app (p : ascii -> bool) (a b : string) :
  contains_char p (a +:+ b) = contains_char p a || contains_char p b.
Proof.
  induction a as [|x a IH]; [reflexivity |].
  rewrite str_app_cons. cbn. rewrite IH. now rewrite orb_assoc.
Qed.

End TextFacts.

Lemma has_cr_cons (c : ascii) (s : string) :
  has_cr (String c s) = false <-> c <> Csv.CR /\ has_cr s = false.
Proof.
  unfold has_cr. cbn. rewrite orb_false_iff.
  now rewrite Ascii.eqb_neq.
Qed.

Lemma has_cr_app (a b : string) :
  has_cr (a +:+ b) = false <-> has_cr a = false /\ has_cr b = false.
Proof.
  unfold has_cr. rewrite contains_char_app. apply orb_false_iff.
Qed.

(** ** Text mode and the end of a line *)

Section ReaderFacts.
Import Csv.

Lemma universal_newlines_no_cr_aux (n : nat) :
  forall s, (String.length s <= n)%nat -> has_cr (universal_newlines s) = false.
Proof.
  induction n as [|n IH]; intros s Hlen.
  - destruct s; [reflexivity | cbn in Hlen; lia].
  - destruct s as [|c r]; [reflexivity |].
    cbn in Hlen. cbn [universal_newlines].
    destruct (Ascii.eqb c CR) eqn:Hc.
    + apply has_cr_cons. split; [discriminate |].
      destruct r as [|c' r']; [reflexivity |].
      cbn in Hlen.
      destruct (Ascii.eqb c' LF); apply IH; cbn; lia.
    + apply has_cr_cons. split; [now apply Ascii.eqb_neq |].
      apply IH. lia.
Qed.

Lemma universal_newlines_no_cr (s : string) :
  has_cr (universal_newlines s) = false.
Proof. now apply (universal_newlines_no_cr_aux (String.length s)). Qed.

End ReaderFacts.

(** ** Adding a product *)

Section AddProduct.
Variables (products : Dict.t Product) (w : world).
Variables (id nm : string) (pr : float) (q : Z).

Lemma add_product_present :
  Dict.contains products id = true ->
  Inventory.add_product products w id nm pr q =
    (products,
     print (log w ERROR (Message "Product ID already exists"))
           (Line "Product ID already exists!")).
Proof.
  intros Hin. unfold Inventory.add_product, Inventory.add_product_call.
  now rewrite Hin.
Qed.

Lemma add_product_absent :
  Dict.contains products id = false ->
  fst (Inventory.add_product products w id nm pr q) =
    Dict.set products id
      {| product_id := id; name := nm; price := pr; quantity := q |}.
Proof.
  intros Hin. unfold Inventory.add_product, Inventory.add_product_call.
  rewrite Hin. unfold Inventory.save_inventory.
  now destruct (snd (Inventory.written _)).
Qed.

End AddProduct.

(** C4. Adding a product under an identifier that is present is rejected:
    the products are the same (so the record of that identifier is the
    same, and no product is inserted or removed), neither file is written,
    and the rejection is logged and printed. *)
Theorem add_product_duplicate_rejected
    (products : Dict.t Product) (w : world)
    (id nm : string) (pr : float) (q : Z) :
  Dict.contains products id = true ->
  let (products', w') := Inventory.add_product products w id nm pr q in
  products' = products
  /\ Dict.get products' id = Dict.get products id
  /\ inventory_csv w' = inventory_csv w
  /\ sales_csv w' = sales_csv w
  /\ shop_log w' = (shop_log w ++ [(ERROR, Message "Product ID already exists")])%list
  /\ console w' = (console w ++ [Line "Product ID already exists!"])%list.
Proof.
  intros Hin. rewrite add_product_present by exact Hin.
  cbn. repeat split; reflexivity.
Qed.

Lemma add_product_duplicate_rejected_witness :
  let (products', w') :=
    Inventory.add_product [("p1", widget)] empty_world "p1" "Gadget" 1%float 3 in
  products' = [("p1", widget)]
  /\ Dict.get products' "p1" = Dict.get [("p1", widget)] "p1"
  /\ inventory_csv w' = inventory_csv empty_world
  /\ sales_csv w' = sales_csv empty_world
  /\ shop_log w' = (shop_log empty_world ++ [(ERROR, Message "Product ID already exists")])%list
  /\ console w' = (console empty_world ++ [Line "Product ID already exists!"])%list.
Proof.
  apply (add_product_duplicate_rejected [("p1", widget)] empty_world
           "p1" "Gadget" 1%float 3).
  reflexivity.
Defined.

(** ** Dictionaries *)

Section DictFacts.
Context {V : Type}.
Implicit Types (d : Dict.t V) (k : string) (v : V).

Lemma get_set_eq d k v : Dict.get (Dict.set d k v) k = Some v.
Proof.
  induction d as [|[k' v'] d IH]; cbn.
  - now rewrite String.eqb_refl.
  - destruct (String.eqb k k') eqn:E; cbn; rewrite ?String.eqb_refl, ?E; auto.
Qed.

Lemma get_set_ne d k k' v :
  k' <> k -> Dict.get (Dict.set d k v) k' = Dict.get d k'.
Proof.
  intros Hne. induction d as [|[k0 v0] d IH]; cbn.
  - apply String.eqb_neq in Hne. now rewrite Hne.
  - destruct (String.eqb k k0) eqn:E; cbn.
    + apply String.eqb_eq in E. subst k0.
      apply String.eqb_neq in Hne. now rewrite Hne.
    + now rewrite IH.
Qed.

Lemma keys_set_present d k v v0 :
  Dict.get d k = Some v0 -> Dict.keys (Dict.set d k v) = Dict.keys d.
Proof.
  unfold Dict.keys.
  induction d as [|[k' v'] d IH]; cbn; [discriminate |].
  destruct (String.eqb k k') eqn:E; cbn.
  - intros _. apply String.eqb_eq in E. now subst.
  - intros H. f_equal. now apply IH.
Qed.

Lemma set_absent d k v :
  Dict.get d k = None -> Dict.set d k v = (d ++ [(k, v)])%list.
Proof.
  induction d as [|[k' v'] d IH]; cbn; [reflexivity |].
  destruct (String.eqb k k'); [discriminate |].
  intros H. now rewrite IH.
Qed.

Lemma get_none_not_in d k : Dict.get d k = None <-> ~ In k (Dict.keys d).
Proof.
  induction d as [|[k' v'] d IH]; cbn; [tauto |].
  destruct (String.eqb_spec k k') as [->|Hne].
  - split; [discriminate | intros H; exfalso; apply H; now left].
  - rewrite IH. split; [intros H [E|E]; [congruence | tauto] | tauto].
Qed.

End DictFacts.

(** ** The sales ledger *)

Lemma str_some (z : Z) :
  PyInt.str z <> None -> PyInt.str z = Some (PyInt.decimal z).
Proof. unfold PyInt.str. now destruct (_ <=? _). Qed.

Lemma writerows_until_some (rows : list Csv.row) :
  Csv.writerows_until (map Some rows) = (Csv.writerows rows, true).
Proof.
  induction rows as [|r rows IH]; [reflexivity |].
  cbn [map Csv.writerows_until]. now rewrite IH.
Qed.

(** When the quantities of the items have a text, the loop of [save_sale]
    writes the row of each item. *)
Lemma appended_printable (sale : Sale.t) :
  items_printable sale ->
  SalesManager.appended sale
  = (Csv.writerows (map (item_fields (Sale.sale_id sale)) (Sale.items sale)),
     true).
Proof.
  intros H. unfold SalesManager.appended.
  rewrite <- writerows_until_some. f_equal.
  unfold items_printable in H.
  induction H as [|i items Hi _ IH]; [reflexivity |].
  cbn [map]. rewrite IH. f_equal.
  unfold SalesManager.item_row. now rewrite (str_some _ Hi).
Qed.

Lemma sale_text_printable (sale : Sale.t) :
  items_printable sale ->
  SalesManager.sale_text sale
  = Csv.writerows (map (item_fields (Sale.sale_id sale)) (Sale.items sale)).
Proof.
  intros H. unfold SalesManager.sale_text. now rewrite appended_printable.
Qed.

(** When the quantities on hand have a text, the loop of [save_inventory]
    writes the row of each product. *)
Lemma written_printable (d : Dict.t Product) :
  printable d ->
  Inventory.written d
  = (Csv.writerows (Inventory.header :: map product_fields (Dict.values d)),
     true).
Proof.
  intros H. unfold Inventory.written.
  change (Some Inventory.header :: map Inventory.product_row (Dict.values d))
    with (map Some [Inventory.header]
          ++ map Inventory.product_row (Dict.values d))%list.
  rewrite <- writerows_until_some. f_equal.
  cbn [map app]. f_equal. unfold Dict.values.
  induction H as [|[k p] d' Hp _ IH]; [reflexivity |].
  cbn [map snd] in *. rewrite IH. f_equal.
  unfold Inventory.product_row, product_fields. now rewrite (str_some _ Hp).
Qed.

Lemma save_inventory_printable (d : Dict.t Product) (w : world) :
  printable d ->
  Inventory.save_inventory d w
  = (write_inventory_csv w (Inventory.inventory_text d), None).
Proof.
  intros H. unfold Inventory.save_inventory.
  now rewrite (written_printable d H).
Qed.

Lemma get_existing_sales_ids (file : option string) (ids : gset string) :
  SalesManager.get_existing_sales file = Returned ids ->
  ids = existing_ids file.
Proof.
  destruct file as [text|]; cbn; [| congruence].
  destruct (Csv.reader text) as [rows [|]]; cbn; congruence.
Qed.

Lemma get_existing_sales_file_text (file : option string) (ids : gset string) :
  SalesManager.get_existing_sales file = Returned ids ->
  SalesManager.get_existing_sales (Some (SalesManager.file_text file))
  = Returned ids.
Proof. destruct file; [auto |]. now intros [= <-]. Qed.

Lemma save_sale_duplicate (w : world) (sale : Sale.t) (ids : gset string) :
  SalesManager.get_existing_sales (sales_csv w) = Returned ids ->
  Sale.sale_id sale ∈ ids ->
  SalesManager.save_sale w sale =
    Returned
      (print
         (log w ERROR
            (Message ("Sale ID " +:+ Sale.sale_id sale
                      +:+ " already exists. Choose a different ID.")))
         (Line "Sale ID already exists. Choose a different ID.")).
Proof.
  intros Hids Hin. unfold SalesManager.save_sale. rewrite Hids.
  now rewrite bool_decide_eq_true_2.
Qed.

Lemma save_sale_fresh (w : world) (sale : Sale.t) (ids : gset string) :
  SalesManager.get_existing_sales (sales_csv w) = Returned ids ->
  Sale.sale_id sale ∉ ids ->
  items_printable sale ->
  SalesManager.save_sale w sale =
    Returned
      (log (write_sales_csv w
              (SalesManager.file_text (sales_csv w)
               +:+ SalesManager.sale_text sale))
           INFO
           (Message ("Sale " +:+ Sale.sale_id sale
                     +:+ " recorded successfully."))).
Proof.
  intros Hids Hout Hp. unfold SalesManager.save_sale. rewrite Hids.
  rewrite bool_decide_eq_false_2 by exact Hout.
  now rewrite (appended_printable sale Hp).
Qed.

(** ** Selling an item *)

Section Sell.
Import ShopSystem.
Variables (s : t) (sale : Sale.t) (pid : string) (product : Product).
Variables (answer : string) (q : Z).
Hypothesis Hanswer : PyInt.parse (Text.strip answer) = Some q.

Lemma sell_not_enough :
  quantity product < q ->
  sell s sale pid product answer =
    Returned (say s (Line "Not enough stock available."), sale).
Proof.
  intros Hq. unfold sell. rewrite Hanswer.
  destruct (Z.gtb_spec q (quantity product)); [reflexivity | lia].
Qed.

Lemma sell_accepted (qf : float) :
  q <= quantity product ->
  PyFloat.of_int q = Some qf ->
  sell s sale pid product answer =
    Returned
      (say {| products :=
                Dict.set (products s) pid
                  (with_quantity product (quantity product - q));
              env := env s |}
           (AddedToSale q (name product) (PrimFloat.mul (price product) qf)),
       {| Sale.sale_id := Sale.sale_id sale;
          Sale.items :=
            (Sale.items sale ++
             [{| Sale.item_product_id := product_id product;
                 Sale.item_name := name product;
                 Sale.item_quantity := q;
                 Sale.item_total_price := PrimFloat.mul (price product) qf |}])%list |}).
Proof.
  intros Hq Hf. unfold sell. rewrite Hanswer.
  destruct (Z.gtb_spec q (quantity product)); [lia |].
  unfold Sale.add_item, PyFloat.mul_int. now rewrite Hf.
Qed.

Lemma sell_overflow :
  q <= quantity product ->
  PyFloat.of_int q = None ->
  sell s sale pid product answer = Raised OverflowError.
Proof.
  intros Hq Hf. unfold sell. rewrite Hanswer.
  destruct (Z.gtb_spec q (quantity product)); [lia |].
  unfold Sale.add_item, PyFloat.mul_int. now rewrite Hf.
Qed.

End Sell.

(** What a returning [sell] did: it printed a line and left the products
    and the sale alone, or it accepted a quantity within the stock. *)
Lemma sell_returned (s s' : ShopSystem.t) (sale sale' : Sale.t)
    (pid : string) (product : Product) (answer : string) :
  ShopSystem.sell s sale pid product answer = Returned (s', sale') ->
  (exists line, s' = ShopSystem.say s line /\ sale' = sale)
  \/ (exists q qf line,
        q <= quantity product
        /\ PyFloat.of_int q = Some qf
        /\ s' = ShopSystem.say
                  {| ShopSystem.products :=
                       Dict.set (ShopSystem.products s) pid
                         (with_quantity product (quantity product - q));
                     ShopSystem.env := ShopSystem.env s |} line
        /\ Sale.sale_id sale' = Sale.sale_id sale).
Proof.
  unfold ShopSystem.sell.
  destruct (PyInt.parse (Text.strip answer)) as [q|].
  - destruct (Z.gtb_spec q (quantity product)) as [Hgt|Hle].
    + intros [= <- <-]. left. eauto.
    + unfold Sale.add_item, PyFloat.mul_int.
      destruct (PyFloat.of_int q) as [qf|] eqn:Hf; cbn; [| discriminate].
      intros [= <- <-]. right. exists q, qf. eexists. repeat split; eauto.
  - intros [= <- <-]. left. eauto.
Qed.

(** An invariant of the shop and the sale that printing keeps and that
    [sell] keeps for a product of the inventory is kept by the loop. *)
Lemma collect_invariant (P : ShopSystem.t -> Sale.t -> Prop) :
  (forall s sale line, P s sale -> P (ShopSystem.say s line) sale) ->
  (forall s sale pid product answer s' sale',
     P s sale ->
     Dict.get (ShopSystem.products s) pid = Some product ->
     ShopSystem.sell s sale pid product answer = Returned (s', sale') ->
     P s' sale') ->
  forall stdin s sale s' sale' rest,
    P s sale ->
    ShopSystem.collect stdin s sale = Returned (s', sale', rest) ->
    P s' sale'.
Proof.
  intros Hsay Hsell stdin.
  assert (H : forall n stdin, (length stdin <= n)%nat ->
            forall s sale s' sale' rest,
              P s sale ->
              ShopSystem.collect stdin s sale = Returned (s', sale', rest) ->
              P s' sale').
  { clear stdin. induction n as [|n IH]; intros stdin Hlen s sale s' sale' rest HP.
    - destruct stdin; [discriminate | cbn in Hlen; lia].
    - destruct stdin as [|line tail]; [discriminate |].
      cbn in Hlen. cbn [ShopSystem.collect].
      destruct (String.eqb _ "done").
      + now intros [= <- <- <-].
      + destruct (Dict.get (ShopSystem.products s) (Text.strip line))
          as [product|] eqn:Hget.
        * destruct tail as [|answer tail']; [discriminate |].
          cbn in Hlen.
          destruct (ShopSystem.sell s sale (Text.strip line) product answer)
            as [[s1 sale1]|e] eqn:Hs; [| discriminate].
          apply IH; [lia |]. eapply Hsell; eauto.
        * apply IH; [lia |]. now apply Hsay. }
  intros s sale s' sale' rest. now apply (H (length stdin)).
Qed.

(** The loop writes no file and no log record, and keeps the identifier of
    the sale. *)
Lemma collect_keeps_files (stdin rest : list string)
    (s s' : ShopSystem.t) (sale sale' : Sale.t) :
  ShopSystem.collect stdin s sale = Returned (s', sale', rest) ->
  inventory_csv (ShopSystem.env s') = inventory_csv (ShopSystem.env s)
  /\ sales_csv (ShopSystem.env s') = sales_csv (ShopSystem.env s)
  /\ shop_log (ShopSystem.env s') = shop_log (ShopSystem.env s)
  /\ Sale.sale_id sale' = Sale.sale_id sale.
Proof.
  intros H.
  apply (collect_invariant
           (fun s1 sale1 =>
              inventory_csv (ShopSystem.env s1) = inventory_csv (ShopSystem.env s)
              /\ sales_csv (ShopSystem.env s1) = sales_csv (ShopSystem.env s)
              /\ shop_log (ShopSystem.env s1) = shop_log (ShopSystem.env s)
              /\ Sale.sale_id sale1 = Sale.sale_id sale))
    with (stdin := stdin) (s := s) (sale := sale) (rest := rest);
    [ | | auto | exact H].
  - intros s1 sale1 line (? & ? & ? & ?). cbn. auto.
  - intros s1 sale1 pid product answer s2 sale2 (? & ? & ? & ?) _ Hs.
    apply sell_returned in Hs
      as [(line & -> & ->) | (q & qf & line & _ & _ & -> & Hid)]; cbn; auto.
    repeat split; auto. congruence.
Qed.

(** C8. A requested quantity greater than the quantity on hand of a product
    of the inventory is rejected: the sale has the items it had, the
    products are what they were (so is the quantity on hand), and the loop
    goes on with the next line. *)
Theorem sale_item_over_stock_rejected
    (s : ShopSystem.t) (sale : Sale.t) (line answer : string)
    (rest : list string) (product : Product) (q : Z) :
  String.eqb (Text.lower (Text.strip line)) "done" = false ->
  Dict.get (ShopSystem.products s) (Text.strip line) = Some product ->
  PyInt.parse (Text.strip answer) = Some q ->
  quantity product < q ->
  let s' := ShopSystem.say s (Line "Not enough stock available.") in
  ShopSystem.sell s sale (Text.strip line) product answer = Returned (s', sale)
  /\ ShopSystem.products s' = ShopSystem.products s
  /\ Dict.get (ShopSystem.products s') (Text.strip line) = Some product
  /\ ShopSystem.collect (line :: answer :: rest) s sale
     = ShopSystem.collect rest s' sale.
Proof.
  intros Hdone Hget Hq Hlt s'.
  pose proof (sell_not_enough s sale (Text.strip line) product answer q Hq Hlt)
    as Hsell.
  repeat split; auto.
  cbn [ShopSystem.collect]. now rewrite Hdone, Hget, Hsell.
Qed.

Lemma sale_item_over_stock_rejected_witness :
  let s := {| ShopSystem.products := [("p1", widget)];
              ShopSystem.env := empty_world |} in
  let s' := ShopSystem.say s (Line "Not enough stock available.") in
  ShopSystem.sell s (Sale.new "S1") (Text.strip " p1 ") widget "11"
    = Returned (s', Sale.new "S1")
  /\ ShopSystem.products s' = ShopSystem.products s
  /\ Dict.get (ShopSystem.products s') (Text.strip " p1 ") = Some widget
  /\ ShopSystem.collect [" p1 "; "11"; "done"] s (Sale.new "S1")
     = ShopSystem.collect ["done"] s' (Sale.new "S1").
Proof.
  apply (sale_item_over_stock_rejected
           {| ShopSystem.products := [("p1", widget)];
              ShopSystem.env := empty_world |}
           (Sale.new "S1") " p1 " "11" ["done"] widget 11);
    [reflexivity | reflexivity | reflexivity | cbn; lia].
Defined.

(** A quantity of 310 digits is within the stock of [bulk], and its product
    with the price raises [OverflowError]: the item is not recorded. *)
Lemma sale_item_within_stock_overflows :
  ~ every_quantity_within_stock_is_sold.
Proof.
  intros H.
  destruct (H {| ShopSystem.products := [("p2", bulk)];
                 ShopSystem.env := empty_world |}
              (Sale.new "S1") "p2" bulk ("1" +:+ PyFloat.zeros 309) (10 ^ 309))
    as (s' & sale' & Hsell & _).
  - reflexivity.
  - vm_compute. reflexivity.
  - cbn. lia.
  - rewrite (sell_overflow _ _ _ _ _ (10 ^ 309)) in Hsell.
    + discriminate.
    + vm_compute. reflexivity.
    + cbn. lia.
    + vm_compute. reflexivity.
Qed.

(** C5 (amended). A requested quantity within the quantity on hand of a
    product of the inventory, and within the range of a [float], is sold:
    the quantity on hand of that product goes down by exactly the requested
    quantity, the record of every other key is what it was, no key is added
    or removed, and the sale gets one more item, whose total is the price
    times the quantity. *)
Theorem sale_item_within_stock
    (s : ShopSystem.t) (sale : Sale.t) (line answer : string)
    (rest : list string) (product : Product) (q : Z) (qf : float) :
  String.eqb (Text.lower (Text.strip line)) "done" = false ->
  Dict.get (ShopSystem.products s) (Text.strip line) = Some product ->
  PyInt.parse (Text.strip answer) = Some q ->
  q <= quantity product ->
  PyFloat.of_int q = Some qf ->
  exists s' sale',
    ShopSystem.sell s sale (Text.strip line) product answer = Returned (s', sale')
    /\ Dict.get (ShopSystem.products s') (Text.strip line)
       = Some (with_quantity product (quantity product - q))
    /\ (forall k, k <> Text.strip line ->
          Dict.get (ShopSystem.products s') k = Dict.get (ShopSystem.products s) k)
    /\ Dict.keys (ShopSystem.products s') = Dict.keys (ShopSystem.products s)
    /\ Sale.items sale'
       = (Sale.items sale ++
          [{| Sale.item_product_id := product_id product;
              Sale.item_name := name product;
              Sale.item_quantity := q;
              Sale.item_total_price := PrimFloat.mul (price product) qf |}])%list
    /\ ShopSystem.collect (line :: answer :: rest) s sale
       = ShopSystem.collect rest s' sale'.
Proof.
  intros Hdone Hget Hq Hle Hf.
  pose proof (sell_accepted s sale (Text.strip line) product answer q Hq qf Hle Hf)
    as Hsell.
  eexists _, _. split; [exact Hsell |]. cbn.
  split; [apply get_set_eq |].
  split; [intros k Hk; now apply get_set_ne |].
  split; [eapply keys_set_present; eassumption |].
  split; [reflexivity |].
  now rewrite Hdone, Hget, Hsell.
Qed.

(** Three of a product at 9.99 are sold for 29.97. *)
Lemma sale_item_within_stock_witness :
  let s := {| ShopSystem.products := [("p1", widget)];
              ShopSystem.env := empty_world |} in
  exists s' sale',
    ShopSystem.sell s (Sale.new "S1") (Text.strip "p1") widget "3"
      = Returned (s', sale')
    /\ Dict.get (ShopSystem.products s') (Text.strip "p1")
       = Some (with_quantity widget (10 - 3))
    /\ (forall k, k <> Text.strip "p1" ->
          Dict.get (ShopSystem.products s') k = Dict.get (ShopSystem.products s) k)
    /\ Dict.keys (ShopSystem.products s') = Dict.keys (ShopSystem.products s)
    /\ Sale.items sale'
       = ([] ++
          [{| Sale.item_product_id := "p1";
              Sale.item_name := "Widget";
              Sale.item_quantity := 3;
              Sale.item_total_price := 0x1.df851eb851eb8p+4%float (* 29.97 *) |}])%list
    /\ ShopSystem.collect ["p1"; "3"; "done"] s (Sale.new "S1")
       = ShopSystem.collect ["done"] s' sale'.
Proof.
  apply (sale_item_within_stock
           {| ShopSystem.products := [("p1", widget)];
              ShopSystem.env := empty_world |}
           (Sale.new "S1") "p1" "3" ["done"] widget 3 3%float);
    [reflexivity | reflexivity | reflexivity | cbn; lia | reflexivity].
Defined.

(** A negative quantity of 310 digits passes the stock check, and its
    product with the price raises [OverflowError]. *)
Lemma negative_quantity_overflows :
  ~ every_integer_up_to_stock_is_accepted.
Proof.
  intros H.
  destruct (H {| ShopSystem.products := [("p1", widget)];
                 ShopSystem.env := empty_world |}
              (Sale.new "S1") "p1" widget ("-1" +:+ PyFloat.zeros 309)
              (- 10 ^ 309))
    as (s' & sale' & p' & Hsell & _).
  - reflexivity.
  - vm_compute. reflexivity.
  - cbn. lia.
  - rewrite (sell_overflow _ _ _ _ _ (- 10 ^ 309)) in Hsell.
    + discriminate.
    + vm_compute. reflexivity.
    + cbn. lia.
    + vm_compute. reflexivity.
Qed.

(** C9 (amended). The stock check accepts every integer quantity up to the
    quantity on hand that is within the range of a [float], zero and the
    negative integers included: the quantity on hand becomes the stock
    minus the quantity, so a negative quantity increases it. *)
Theorem stock_check_accepts_up_to_stock
    (s : ShopSystem.t) (sale : Sale.t) (pid : string)
    (product : Product) (answer : string) (q : Z) (qf : float) :
  Dict.get (ShopSystem.products s) pid = Some product ->
  PyInt.parse (Text.strip answer) = Some q ->
  q <= quantity product ->
  PyFloat.of_int q = Some qf ->
  exists s' sale' p',
    ShopSystem.sell s sale pid product answer = Returned (s', sale')
    /\ length (Sale.items sale') = S (length (Sale.items sale))
    /\ Dict.get (ShopSystem.products s') pid = Some p'
    /\ quantity p' = quantity product - q
    /\ (q < 0 -> quantity product < quantity p').
Proof.
  intros Hget Hq Hle Hf.
  rewrite (sell_accepted s sale pid product answer q Hq qf Hle Hf).
  eexists _, _, _. split; [reflexivity |]. cbn.
  split; [rewrite length_app; cbn; lia |].
  split; [apply get_set_eq |].
  cbn. split; [reflexivity | lia].
Qed.

Lemma stock_check_accepts_up_to_stock_witness :
  exists s' sale' p',
    ShopSystem.sell {| ShopSystem.products := [("p1", widget)];
                       ShopSystem.env := empty_world |}
      (Sale.new "S1") "p1" widget "-3" = Returned (s', sale')
    /\ length (Sale.items sale') = S (length (Sale.items (Sale.new "S1")))
    /\ Dict.get (ShopSystem.products s') "p1" = Some p'
    /\ quantity p' = 10 - (-3)
    /\ (-3 < 0 -> 10 < quantity p').
Proof.
  apply (stock_check_accepts_up_to_stock
           {| ShopSystem.products := [("p1", widget)];
              ShopSystem.env := empty_world |}
           (Sale.new "S1") "p1" widget "-3" (-3) (-3)%float);
    [reflexivity | reflexivity | cbn; lia | reflexivity].
Defined.

(** ** Quantities on hand *)

Lemma stock_nonneg_set (d : Dict.t Product) (k : string) (p : Product) :
  stock_nonneg d -> 0 <= quantity p -> stock_nonneg (Dict.set d k p).
Proof.
  unfold stock_nonneg. intros Hd Hp.
  induction d as [|[k' p'] d IH]; cbn.
  - constructor; [exact Hp | constructor].
  - inversion Hd as [|? ? Hhd Htl]; subst.
    destruct (String.eqb k k'); constructor; auto.
Qed.

Lemma stock_nonneg_get (d : Dict.t Product) (k : string) (p : Product) :
  stock_nonneg d -> Dict.get d k = Some p -> 0 <= quantity p.
Proof.
  unfold stock_nonneg. intros Hd.
  induction d as [|[k' p'] d IH]; cbn; [discriminate |].
  inversion Hd as [|? ? Hhd Htl]; subst.
  destruct (String.eqb k k'); [intros [= <-]; exact Hhd | auto].
Qed.

(** The operator adds a product with the stock quantity -5: the inventory
    was without a negative quantity and is no longer. *)
Lemma add_product_negative_stock :
  stock_nonneg (ShopSystem.products (ShopSystem.init empty_world))
  /\ exists s' rest,
       ShopSystem.add_product ["p1"; "Widget"; "9.99"; "-5"]
         (ShopSystem.init empty_world) = Returned (s', rest)
       /\ Dict.get (ShopSystem.products s') "p1"
          = Some (with_quantity widget (-5))
       /\ ~ stock_nonneg (ShopSystem.products s').
Proof.
  split; [constructor |].
  eexists _, _. split; [vm_compute; reflexivity |].
  split; [reflexivity |].
  intros H. inversion H as [|? ? Hneg _]. cbn in Hneg. lia.
Qed.

(** C2 (amended). The sale of an item keeps every quantity on hand
    non-negative, and so does [process_sale]; [add_product] keeps them
    non-negative when the quantity given is non-negative. *)
Theorem stock_stays_nonneg (s : ShopSystem.t) :
  stock_nonneg (ShopSystem.products s) ->
  (forall id nm pr q, 0 <= q ->
     stock_nonneg
       (fst (Inventory.add_product (ShopSystem.products s) (ShopSystem.env s)
               id nm pr q)))
  /\ (forall sale pid product answer s' sale',
        Dict.get (ShopSystem.products s) pid = Some product ->
        ShopSystem.sell s sale pid product answer = Returned (s', sale') ->
        stock_nonneg (ShopSystem.products s'))
  /\ (forall stdin s' rest,
        ShopSystem.process_sale stdin s = Returned (s', rest) ->
        stock_nonneg (ShopSystem.products s')).
Proof.
  intros Hs.
  assert (Hsell : forall s sale pid product answer s' sale',
             stock_nonneg (ShopSystem.products s) ->
             Dict.get (ShopSystem.products s) pid = Some product ->
             ShopSystem.sell s sale pid product answer = Returned (s', sale') ->
             stock_nonneg (ShopSystem.products s')).
  { intros s0 sale pid product answer s' sale' H0 Hget Hsell.
    apply sell_returned in Hsell
      as [(line & -> & _) | (q & qf & line & Hle & _ & -> & _)]; cbn; auto.
    apply stock_nonneg_set; [exact H0 | cbn; lia]. }
  split; [| split].
  - intros id nm pr q Hq.
    destruct (Dict.contains (ShopSystem.products s) id) eqn:Hc.
    + now rewrite add_product_present by exact Hc.
    + rewrite add_product_absent by exact Hc.
      apply stock_nonneg_set; [exact Hs | exact Hq].
  - intros sale pid product answer s' sale'. now apply Hsell.
  - intros stdin s' rest. unfold ShopSystem.process_sale.
    destruct stdin as [|line tail]; [discriminate |].
    destruct (ShopSystem.collect tail s _) as [[[s1 sale1] rest1]|e] eqn:Hc;
      [| discriminate].
    unfold ShopSystem.finish_sale.
    destruct (Inventory.save_inventory _ _) as [w1 [e|]]; [discriminate |].
    destruct (SalesManager.save_sale _ _) as [w2|e]; [| discriminate].
    intros [= <- _]. cbn.
    apply (collect_invariant (fun s0 _ => stock_nonneg (ShopSystem.products s0)))
      with (stdin := tail) (s := s) (sale := Sale.new (Text.strip line))
           (sale' := sale1) (rest := rest1); auto.
Qed.

Lemma stock_stays_nonneg_witness :
  let s := {| ShopSystem.products := [("p1", widget)];
              ShopSystem.env := empty_world |} in
  (forall id nm pr q, 0 <= q ->
     stock_nonneg
       (fst (Inventory.add_product (ShopSystem.products s) (ShopSystem.env s)
               id nm pr q)))
  /\ (forall sale pid product answer s' sale',
        Dict.get (ShopSystem.products s) pid = Some product ->
        ShopSystem.sell s sale pid product answer = Returned (s', sale') ->
        stock_nonneg (ShopSystem.products s'))
  /\ (forall stdin s' rest,
        ShopSystem.process_sale stdin s = Returned (s', rest) ->
        stock_nonneg (ShopSystem.products s')).
Proof.
  apply (stock_stays_nonneg
           {| ShopSystem.products := [("p1", widget)];
              ShopSystem.env := empty_world |}).
  repeat constructor. cbn. lia.
Defined.

(** ** Loading the inventory *)

Lemma row_product_length (r : Csv.row) (p : Product) :
  row_product r = Some p -> length r = 4%nat.
Proof.
  destruct r as [|a [|b [|c [|d [|e r]]]]]; cbn; try discriminate.
  reflexivity.
Qed.

Lemma load_rows_short (r : Csv.row) (rest : list Csv.row) (d : Dict.t Product) :
  (length r < 4)%nat ->
  Inventory.load_rows (r :: rest) d = Inventory.load_rows rest d.
Proof.
  intros H. cbn [Inventory.load_rows].
  destruct (Nat.ltb_spec (length r) 4); [reflexivity | lia].
Qed.

Lemma load_rows_product (r : Csv.row) (rest : list Csv.row)
    (d : Dict.t Product) (p : Product) :
  row_product r = Some p ->
  Inventory.load_rows (r :: rest) d
  = Inventory.load_rows rest (Dict.set d (product_id p) p).
Proof.
  intros H. pose proof (row_product_length r p H) as Hlen.
  destruct r as [|a [|b [|c [|e [|x r]]]]]; try discriminate.
  cbn in H |- *.
  destruct (PyFloat.parse c); [| discriminate].
  destruct (PyInt.parse e); [| discriminate].
  now injection H as <-.
Qed.

Lemma load_rows_abort (r : Csv.row) (rest : list Csv.row) (d : Dict.t Product) :
  (4 <= length r)%nat -> row_product r = None ->
  Inventory.load_rows (r :: rest) d = (d, Some ValueError).
Proof.
  intros Hlen H. cbn [Inventory.load_rows].
  destruct (Nat.ltb_spec (length r) 4); [lia |].
  destruct r as [|a [|b [|c [|e [|x r]]]]]; cbn in Hlen; try lia; [| reflexivity].
  cbn in H.
  destruct (PyFloat.parse c); [| reflexivity].
  destruct (PyInt.parse e); [discriminate | reflexivity].
Qed.

Lemma load_rows_loadable (pre rest : list Csv.row) (d : Dict.t Product) :
  Forall loadable pre ->
  Inventory.load_rows (pre ++ rest) d
  = Inventory.load_rows rest (products_of pre d).
Proof.
  intros H. revert d.
  induction H as [|r pre Hr _ IH]; intros d; [reflexivity |].
  rewrite <- app_comm_cons. cbn [products_of].
  destruct (row_product r) as [p|] eqn:Hp.
  - rewrite (load_rows_product r _ d p Hp). apply IH.
  - destruct Hr as [Hshort | Hne]; [| congruence].
    rewrite load_rows_short by exact Hshort. apply IH.
Qed.

(** A row of five fields, with numbers that parse, aborts the load: the
    product of the row after it is not loaded. *)
Lemma load_aborts_on_long_row :
  ~ load_stops_at_first_malformed_number.
Proof.
  intros H.
  apply (H [["a"; "b"; "1.0"; "2"; "extra"]; ["c"; "d"; "1.0"; "2"]]
           ["e"; "f"; "x"; "1"] [] ) with (i := "c") (n := "d") (p := "1.0") (q := "2").
  - repeat constructor; intros (i & n & p & q & more & [= <- <- <- <- <-] & [E|E]);
      vm_compute in E; discriminate E.
  - exists "e", "f", "x", "1", []. split; [reflexivity | left; reflexivity].
  - right. left. reflexivity.
  - reflexivity.
Qed.

(** The load of a file whose rows after the header are all loadable gives
    the products of these rows; an error is logged when the reader
    raised. *)
Lemma load_inventory_all_loadable (text : string) :
  Forall loadable (tl (fst (Csv.reader text))) ->
  Inventory.load_inventory (Some text)
  = (products_of (tl (fst (Csv.reader text))) Dict.empty,
     if snd (Csv.reader text) then []
     else [(ERROR, ErrorLoadingInventory CsvError)]).
Proof.
  intros H. unfold Inventory.load_inventory.
  destruct (Csv.reader text) as [rows ok]. cbn [fst snd] in *.
  rewrite <- (List.app_nil_r (tl rows)) at 1.
  now rewrite load_rows_loadable.
Qed.

(** C7 (amended). Without a file the inventory is empty and a warning is
    logged.  With a file, the rows with fewer than four fields are skipped
    without a log record, and the first row of at least four fields that is
    not the row of a product (a price or a quantity that does not parse,
    or more than four fields) aborts the load: the products are exactly
    those of the rows before it, and the error is logged.  When every row
    that the reader gives is loadable, the products are those of all these
    rows, and an error is logged only when the reader itself raised. *)
Theorem load_inventory_lenient
    (text : string) (pre post : list Csv.row) (bad : Csv.row) :
  tl (fst (Csv.reader text)) = (pre ++ bad :: post)%list ->
  Forall loadable pre ->
  (4 <= length bad)%nat ->
  row_product bad = None ->
  Inventory.load_inventory None
  = (Dict.empty,
     [(WARNING, Message "Inventory file not found. Creating a new one.")])
  /\ (forall (r : Csv.row) rest d, (length r < 4)%nat ->
        Inventory.load_rows (r :: rest) d = Inventory.load_rows rest d)
  /\ Inventory.load_inventory (Some text)
     = (products_of pre Dict.empty, [(ERROR, ErrorLoadingInventory ValueError)])
  /\ (forall other : string,
        Forall loadable (tl (fst (Csv.reader other))) ->
        Inventory.load_inventory (Some other)
        = (products_of (tl (fst (Csv.reader other))) Dict.empty,
           if snd (Csv.reader other) then []
           else [(ERROR, ErrorLoadingInventory CsvError)])).
Proof.
  intros Hrows Hpre Hlen Hbad.
  split; [reflexivity |]. split; [intros; now apply load_rows_short |].
  split; [| apply load_inventory_all_loadable].
  unfold Inventory.load_inventory.
  destruct (Csv.reader text) as [rows ok]. cbn [fst] in Hrows.
  rewrite Hrows, load_rows_loadable by exact Hpre.
  now rewrite load_rows_abort.
Qed.

Lemma load_inventory_lenient_witness :
  Inventory.load_inventory None
  = (Dict.empty,
     [(WARNING, Message "Inventory file not found. Creating a new one.")])
  /\ (forall (r : Csv.row) rest d, (length r < 4)%nat ->
        Inventory.load_rows (r :: rest) d = Inventory.load_rows rest d)
  /\ Inventory.load_inventory (Some damaged_inventory)
     = ([("p1", widget)], [(ERROR, ErrorLoadingInventory ValueError)])
  /\ (forall other : string,
        Forall loadable (tl (fst (Csv.reader other))) ->
        Inventory.load_inventory (Some other)
        = (products_of (tl (fst (Csv.reader other))) Dict.empty,
           if snd (Csv.reader other) then []
           else [(ERROR, ErrorLoadingInventory CsvError)])).
Proof.
  apply (load_inventory_lenient damaged_inventory
           [["p1"; "Widget"; "9.99"; "10"]; ["x"; "y"]]
           [["p3"; "Thing"; "1.0"; "1"]]
           ["p2"; "Gadget"; "abc"; "1"]).
  - vm_compute. reflexivity.
  - constructor; [right; vm_compute; discriminate |].
    constructor; [left; cbn; lia | constructor].
  - cbn. lia.
  - vm_compute. reflexivity.
Defined.

(** ** The text of numbers *)

Section NumberText.
Import Text.

Lemma uint_value_pos (d : Decimal.uint) :
  forall acc : positive, uint_value (Zpos acc) d = Zpos (Pos.of_uint_acc d acc).
Proof.
  induction d; intros acc; cbn [uint_value Pos.of_uint_acc];
    try reflexivity;
    match goal with
    | |- uint_value ?z _ = _ =>
        match goal with
        | |- _ = Zpos (Pos.of_uint_acc _ ?p) =>
            replace z with (Zpos p) by lia; apply IHd
        end
    end.
Qed.

Lemma uint_value_zero (d : Decimal.uint) :
  uint_value 0 d = Z.of_N (Pos.of_uint d).
Proof.
  induction d; cbn [uint_value Pos.of_uint]; try reflexivity;
    try exact IHd;
    match goal with
    | |- uint_value ?z _ = _ =>
        match goal with
        | |- _ = Z.of_N (Npos (Pos.of_uint_acc _ ?p)) =>
            change z with (Zpos p); apply uint_value_pos
        end
    end.
Qed.

Lemma digits_of_uint (d : Decimal.uint) :
  forall acc,
    PyInt.digits PyInt.PDigit acc (NilEmpty.string_of_uint d)
    = Some (uint_value acc d).
Proof.
  induction d; intros acc; cbn [NilEmpty.string_of_uint uint_value];
    try reflexivity;
    (etransitivity; [| apply IHd]); reflexivity.
Qed.

Lemma digits_of_uint_start (d : Decimal.uint) (acc : Z) :
  d <> Decimal.Nil ->
  PyInt.digits PyInt.PStart acc (NilEmpty.string_of_uint d)
  = Some (uint_value acc d).
Proof.
  destruct d; intros Hd; try congruence;
    cbn [NilEmpty.string_of_uint uint_value];
    (etransitivity; [| apply digits_of_uint]); reflexivity.
Qed.

(** A property of characters that holds of the decimal digits holds of the
    characters of a decimal text. *)
Lemma uint_chars (p : ascii -> bool) (d : Decimal.uint) :
  (forall c, is_digit c = true -> p c = false) ->
  contains_char p (NilEmpty.string_of_uint d) = false.
Proof.
  intros Hp. induction d; cbn [NilEmpty.string_of_uint contains_char];
    try reflexivity;
    rewrite IHd, Hp by reflexivity; reflexivity.
Qed.

Lemma decimal_chars (p : ascii -> bool) (z : Z) :
  (forall c, is_digit c = true -> p c = false) ->
  p "-"%char = false ->
  contains_char p (PyInt.decimal z) = false.
Proof.
  intros Hp Hminus. unfold PyInt.decimal.
  assert (H : forall d, contains_char p (NilZero.string_of_uint d) = false).
  { intros d. destruct d; try apply (uint_chars p _ Hp).
    cbn. now rewrite Hp. }
  destruct z; cbn [Z.to_int NilZero.string_of_int]; [apply H | apply H |].
  cbn [contains_char]. now rewrite Hminus, H.
Qed.

Lemma digit_not_number_space (c : ascii) :
  is_digit c = true -> is_number_space c = false.
Proof.
  unfold is_digit, is_number_space. generalize (code c). intros n H.
  apply andb_true_iff in H as [H1 H2].
  apply Z.leb_le in H1. apply Z.leb_le in H2.
  repeat match goal with
         | |- context [?a <=? ?b] => destruct (Z.leb_spec a b); try lia
         | |- context [?a =? ?b] => destruct (Z.eqb_spec a b); try lia
         end; reflexivity.
Qed.

Lemma digit_not_cr (c : ascii) :
  is_digit c = true -> Ascii.eqb c Csv.CR = false.
Proof.
  intros H. apply Ascii.eqb_neq. intros ->. discriminate H.
Qed.

Lemma skip_left_none (space : ascii -> bool) (s : string) :
  contains_char space s = false -> skip_left space s = s.
Proof.
  destruct s as [|c r]; [reflexivity |]. cbn.
  intros H. apply orb_false_iff in H as [-> _]. reflexivity.
Qed.

Lemma skip_right_none (space : ascii -> bool) (s : string) :
  contains_char space s = false -> skip_right space s = s.
Proof.
  induction s as [|c r IH]; [reflexivity |]. cbn.
  intros H. apply orb_false_iff in H as [Hc Hr].
  rewrite IH by exact Hr. rewrite Hc. now destruct r.
Qed.

Lemma number_text_none (s : string) :
  contains_char is_number_space s = false -> number_text s = s.
Proof.
  intros H. unfold number_text. rewrite skip_left_none by exact H.
  now apply skip_right_none.
Qed.

Lemma parse_eq (s : string) : PyInt.parse s = parse_stripped (number_text s).
Proof.
  unfold PyInt.parse, parse_stripped.
  destruct (number_text s) as [|[[] [] [] [] [] [] [] []] r]; reflexivity.
Qed.

Lemma count_digits_uint (d : Decimal.uint) :
  PyInt.count_digits (NilEmpty.string_of_uint d)
  = Z.of_nat (String.length (NilEmpty.string_of_uint d)).
Proof.
  induction d; cbn [NilEmpty.string_of_uint PyInt.count_digits String.length];
    try reflexivity;
    rewrite IHd, Nat2Z.inj_succ;
    match goal with
    | |- context [is_digit ?c] => change (is_digit c) with true
    end; lia.
Qed.

Lemma literal_unsigned (d : Decimal.uint) :
  d <> Decimal.Nil ->
  Z.of_nat (String.length (NilEmpty.string_of_uint d)) <= PyInt.max_str_digits ->
  PyInt.literal (NilEmpty.string_of_uint d) = Some (uint_value 0 d).
Proof.
  intros Hd Hlen. unfold PyInt.literal. rewrite count_digits_uint.
  destruct (Z.leb_spec (Z.of_nat (String.length (NilEmpty.string_of_uint d)))
              PyInt.max_str_digits); [| lia].
  now apply digits_of_uint_start.
Qed.

Lemma parse_unsigned (d : Decimal.uint) :
  d <> Decimal.Nil ->
  parse_stripped (NilEmpty.string_of_uint d)
  = PyInt.literal (NilEmpty.string_of_uint d).
Proof. destruct d; try congruence; reflexivity. Qed.

Lemma str_digit_count (z : Z) :
  PyInt.str z <> None -> PyInt.digit_count z <= PyInt.max_str_digits.
Proof.
  unfold PyInt.str.
  destruct (Z.leb_spec (PyInt.digit_count z) PyInt.max_str_digits);
    [auto | congruence].
Qed.

(** [int(str(n)) == n], for an integer that [str] gives a text. *)
Lemma int_str_round_trip (z : Z) :
  PyInt.str z <> None -> PyInt.parse (PyInt.decimal z) = Some z.
Proof.
  intros Hstr. apply str_digit_count in Hstr as Hlen.
  rewrite parse_eq.
  rewrite number_text_none
    by (apply decimal_chars; [apply digit_not_number_space | reflexivity]).
  destruct z as [|p|p]; [reflexivity | |];
    unfold PyInt.digit_count in Hlen;
    change (Z.abs _) with (Zpos p) in Hlen;
    unfold PyInt.decimal in *; cbn [Z.to_int NilZero.string_of_int] in *;
    pose proof (DecimalPos.Unsigned.to_uint_nonnil p) as Hnil;
    assert (Hs : NilZero.string_of_uint (Pos.to_uint p)
                 = NilEmpty.string_of_uint (Pos.to_uint p))
      by (destruct (Pos.to_uint p); congruence || reflexivity);
    rewrite Hs in *.
  - rewrite parse_unsigned, literal_unsigned by assumption.
    now rewrite uint_value_zero, DecimalPos.Unsigned.of_to.
  - cbn [parse_stripped].
    rewrite literal_unsigned by assumption.
    now rewrite uint_value_zero, DecimalPos.Unsigned.of_to.
Qed.

(** *** An integer that [int] reads has a text *)

Lemma digit_cases (c : ascii) :
  is_digit c = true ->
  digit_value c = 0 \/ digit_value c = 1 \/ digit_value c = 2
  \/ digit_value c = 3 \/ digit_value c = 4 \/ digit_value c = 5
  \/ digit_value c = 6 \/ digit_value c = 7 \/ digit_value c = 8
  \/ digit_value c = 9.
Proof.
  unfold is_digit, digit_value. intros H.
  apply andb_true_iff in H as [H1 H2].
  apply Z.leb_le in H1. apply Z.leb_le in H2. lia.
Qed.

Lemma uint_value_digit (c : ascii) (d : Decimal.uint) (acc : Z) :
  is_digit c = true ->
  uint_value acc (digit_of c d) = uint_value (10 * acc + digit_value c) d.
Proof.
  intros H. unfold digit_of.
  destruct (digit_cases c H) as [E|[E|[E|[E|[E|[E|[E|[E|[E|E]]]]]]]]];
    rewrite E; reflexivity.
Qed.

Lemma nb_digits_digit (c : ascii) (d : Decimal.uint) :
  is_digit c = true ->
  Decimal.nb_digits (digit_of c d) = S (Decimal.nb_digits d).
Proof.
  intros H. unfold digit_of.
  destruct (digit_cases c H) as [E|[E|[E|[E|[E|[E|[E|[E|[E|E]]]]]]]]];
    rewrite E; reflexivity.
Qed.

(** The value that [digits] reads is that of the decimal digits of the
    text. *)
Lemma digits_uint_value (s : string) :
  forall prev acc v,
    PyInt.digits prev acc s = Some v -> v = uint_value acc (digits_uint s).
Proof.
  induction s as [|c r IH]; intros prev acc v; cbn [PyInt.digits digits_uint].
  - destruct prev; cbn [uint_value]; congruence.
  - destruct (is_digit c) eqn:Hd.
    + intros H. apply IH in H. now rewrite uint_value_digit.
    + destruct (Ascii.eqb c "_"); [| discriminate].
      destruct prev; try discriminate. apply IH.
Qed.

Lemma nb_digits_digits_uint (s : string) :
  Z.of_nat (Decimal.nb_digits (digits_uint s)) = PyInt.count_digits s.
Proof.
  induction s as [|c r IH]; [reflexivity |].
  cbn [digits_uint PyInt.count_digits].
  destruct (is_digit c) eqn:Hd; [| rewrite IH; lia].
  rewrite nb_digits_digit, Nat2Z.inj_succ, IH by exact Hd. lia.
Qed.

Lemma length_string_of_uint (d : Decimal.uint) :
  String.length (NilEmpty.string_of_uint d) = Decimal.nb_digits d.
Proof.
  induction d; cbn [NilEmpty.string_of_uint String.length Decimal.nb_digits];
    congruence.
Qed.

(** The integer of at most [max_str_digits] decimal digits has a text. *)
Lemma uint_value_printable (d : Decimal.uint) :
  Z.of_nat (Decimal.nb_digits d) <= PyInt.max_str_digits ->
  PyInt.str (uint_value 0 d) <> None
  /\ PyInt.str (- uint_value 0 d) <> None.
Proof.
  intros Hd.
  assert (Hcount : PyInt.digit_count (uint_value 0 d) <= PyInt.max_str_digits).
  { rewrite uint_value_zero. unfold PyInt.digit_count.
    rewrite Z.abs_eq by apply N2Z.is_nonneg.
    assert (Hdec : PyInt.decimal (Z.of_N (Pos.of_uint d))
                   = NilZero.string_of_uint (N.to_uint (Pos.of_uint d)))
      by now destruct (Pos.of_uint d).
    rewrite Hdec, DecimalPos.Unsigned.to_of.
    assert (Hnil : Decimal.unorm d <> Decimal.Nil).
    { unfold Decimal.unorm. now destruct (Decimal.nzhead d). }
    assert (Hs : NilZero.string_of_uint (Decimal.unorm d)
                 = NilEmpty.string_of_uint (Decimal.unorm d))
      by (destruct (Decimal.unorm d); congruence || reflexivity).
    rewrite Hs, length_string_of_uint.
    destruct d as [| | | | | | | | | |];
      try (etransitivity; [| exact Hd]; apply inj_le;
           apply DecimalFacts.nb_digits_unorm; discriminate).
    cbn. unfold PyInt.max_str_digits. lia. }
  assert (Hopp : PyInt.digit_count (- uint_value 0 d)
                 = PyInt.digit_count (uint_value 0 d))
    by (unfold PyInt.digit_count; now rewrite Z.abs_opp).
  unfold PyInt.str. rewrite Hopp.
  destruct (Z.leb_spec (PyInt.digit_count (uint_value 0 d))
              PyInt.max_str_digits);
    [split; discriminate | lia].
Qed.

Lemma literal_printable (s : string) (v : Z) :
  PyInt.literal s = Some v ->
  PyInt.str v <> None /\ PyInt.str (- v) <> None.
Proof.
  unfold PyInt.literal.
  destruct (Z.leb_spec (PyInt.count_digits s) PyInt.max_str_digits)
    as [Hle|]; [| discriminate].
  intros Hv. apply digits_uint_value in Hv. subst v.
  apply uint_value_printable. now rewrite nb_digits_digits_uint.
Qed.

Lemma parse_stripped_cases (t : string) (q : Z) :
  parse_stripped t = Some q ->
  exists r v, PyInt.literal r = Some v /\ (q = v \/ q = - v).
Proof.
  unfold parse_stripped.
  destruct t as [|[[] [] [] [] [] [] [] []] r];
    try (intros H; eexists _, q; split; [exact H | now left]).
  destruct (PyInt.literal r) as [v|] eqn:E; [| discriminate].
  intros [= <-]. exists r, v. auto.
Qed.

(** An integer that [int] reads has at most as many digits as its text:
    [str] gives it a text. *)
Lemma parse_printable (s : string) (q : Z) :
  PyInt.parse s = Some q -> PyInt.str q <> None.
Proof.
  rewrite parse_eq. intros H.
  apply parse_stripped_cases in H as (r & v & Hv & [-> | ->]);
    now apply literal_printable in Hv.
Qed.

Lemma decimal_no_cr (z : Z) : has_cr (PyInt.decimal z) = false.
Proof. apply decimal_chars; [apply digit_not_cr | reflexivity]. Qed.

End NumberText.

(** *** The text of a [float] has no carriage return *)

Section ReprText.
Import Text.

Let is_cr (c : ascii) : bool := Ascii.eqb c Csv.CR.

Lemma has_cr_of_list (l : list ascii) :
  has_cr (string_of_list_ascii l) = existsb is_cr l.
Proof.
  induction l as [|c l IH]; [reflexivity |].
  unfold has_cr in *. cbn. now rewrite IH.
Qed.

Lemma has_cr_to_list (s : string) :
  existsb is_cr (list_ascii_of_string s) = has_cr s.
Proof.
  induction s as [|c s IH]; [reflexivity |].
  unfold has_cr in *. cbn. now rewrite IH.
Qed.

Lemma existsb_rev_false (l : list ascii) :
  existsb is_cr l = false -> existsb is_cr (rev l) = false.
Proof.
  induction l as [|c l IH]; [reflexivity |]. cbn.
  intros H. apply orb_false_iff in H as [Hc Hl].
  rewrite existsb_app, IH by exact Hl. cbn. now rewrite Hc.
Qed.

Lemma strip_zeros_rev_false (l : list ascii) :
  existsb is_cr l = false -> existsb is_cr (PyFloat.strip_zeros_rev l) = false.
Proof.
  induction l as [|c l IH]; [reflexivity |].
  intros H. pose proof H as H'. cbn in H'.
  apply orb_false_iff in H' as [_ Hl]. specialize (IH Hl).
  destruct c as [[] [] [] [] [] [] [] []]; solve [exact H | exact IH].
Qed.

Lemma significant_no_cr (d : Z) : has_cr (fst (PyFloat.significant d)) = false.
Proof.
  unfold PyFloat.significant. cbn [fst]. rewrite has_cr_of_list.
  apply existsb_rev_false, strip_zeros_rev_false, existsb_rev_false.
  rewrite has_cr_to_list. apply decimal_no_cr.
Qed.

Lemma zeros_no_cr (n : nat) : has_cr (PyFloat.zeros n) = false.
Proof. induction n as [|n IH]; [reflexivity |]. exact IH. Qed.

Lemma substring_no_cr (s : string) :
  has_cr s = false -> forall n m, has_cr (String.substring n m s) = false.
Proof.
  induction s as [|c s IH]; intros Hs n m.
  - destruct n, m; reflexivity.
  - apply has_cr_cons in Hs as [Hc Hs].
    destruct n as [|n]; [destruct m as [|m] |]; cbn;
      [reflexivity | | now apply IH].
    apply has_cr_cons. split; [exact Hc | now apply IH].
Qed.

Lemma exponent_text_no_cr (e : Z) : has_cr (PyFloat.exponent_text e) = false.
Proof.
  unfold PyFloat.exponent_text.
  apply has_cr_app. split; [now destruct (e <? 0) |].
  apply has_cr_app. split; [now destruct (Z.abs e <? 10) | apply decimal_no_cr].
Qed.

Lemma layout_no_cr (ds : string) (dp : Z) :
  has_cr ds = false -> has_cr (PyFloat.layout ds dp) = false.
Proof.
  intros Hds. unfold PyFloat.layout.
  destruct ((dp <=? -4) || (16 <? dp)).
  - destruct ds as [|c r]; [reflexivity |].
    apply has_cr_cons in Hds as [Hc Hr].
    destruct r as [|c' r'].
    + apply has_cr_app. split; [now apply has_cr_cons |].
      apply has_cr_app. split; [reflexivity | apply exponent_text_no_cr].
    + apply has_cr_app. split.
      * apply has_cr_cons. split; [exact Hc |].
        apply has_cr_app. split; [reflexivity | exact Hr].
      * apply has_cr_app. split; [reflexivity | apply exponent_text_no_cr].
  - destruct (dp <=? 0).
    + apply has_cr_app. split; [reflexivity |].
      apply has_cr_app. split; [apply zeros_no_cr | exact Hds].
    + destruct (_ <=? dp).
      * apply has_cr_app. split; [exact Hds |].
        apply has_cr_app. split; [apply zeros_no_cr | reflexivity].
      * apply has_cr_app. split; [now apply substring_no_cr |].
        apply has_cr_app. split; [reflexivity | now apply substring_no_cr].
Qed.

Lemma repr_no_cr (x : float) : has_cr (PyFloat.repr x) = false.
Proof.
  unfold PyFloat.repr.
  destruct (Prim2SF x) as [s|s| |s m e]; try (now destruct s); [reflexivity |].
  destruct (PyFloat.ratio m e) as [num den].
  destruct (PyFloat.shortest _ _ _ _ _ _) as [d k].
  pose proof (significant_no_cr d) as Hd.
  destruct (PyFloat.significant d) as [ds nd]. cbn [fst] in Hd.
  apply has_cr_app. split; [now destruct s | now apply layout_no_cr].
Qed.

End ReprText.

(** ** Reading back what the writer wrote *)

Section CsvRoundTrip.
Import Text Csv.

(** Feeding a text that begins with a character does not depend on
    [midline]. *)
Lemma feed_midline (p : parser) (m m' : bool) (c : ascii) (r : string) :
  feed p m (String c r) = feed p m' (String c r).
Proof. reflexivity. Qed.

Lemma length_str_app (a b : string) :
  String.length (a +:+ b) = (String.length a + String.length b)%nat.
Proof.
  induction a as [|x a IH]; [reflexivity |].
  rewrite str_app_cons. cbn [String.length]. now rewrite IH.
Qed.

(** A character is added to a field that has not reached the limit. *)
Lemma add_char_within (s : state) (acc : string) (fs : row) (c : ascii) :
  Z.of_nat (String.length acc) < field_limit ->
  parse_add_char (mk s acc fs) c = Some (mk s (acc +:+ String c "") fs).
Proof.
  intros H. unfold parse_add_char. cbn [field mk].
  destruct (Z.ltb_spec (Z.of_nat (String.length acc)) field_limit);
    [reflexivity | lia].
Qed.

Lemma within_limit_snoc (acc : string) (a : ascii) (f : string) :
  within_limit (acc +:+ String a f) ->
  Z.of_nat (String.length acc) < field_limit
  /\ within_limit ((acc +:+ String a "") +:+ f).
Proof.
  unfold within_limit. rewrite str_app_assoc, str_app_cons, str_app_nil_l.
  rewrite length_str_app. cbn [String.length]. lia.
Qed.

Lemma within_limit_empty : Z.of_nat (String.length "") < field_limit.
Proof. reflexivity. Qed.

(** The body of a quoted field. *)
Lemma feed_in_quoted (f : string) :
  forall acc fs m m' c r,
    within_limit (acc +:+ f) ->
    feed (mk IN_QUOTED_FIELD acc fs) m (double_quotes f +:+ String c r)
    = feed (mk IN_QUOTED_FIELD (acc +:+ f) fs) m' (String c r).
Proof.
  induction f as [|a f IH]; intros acc fs m m' c r Hlim.
  - rewrite str_app_nil_r. reflexivity.
  - apply within_limit_snoc in Hlim as [Hacc Hlim].
    cbn [double_quotes].
    replace (acc +:+ String a f) with ((acc +:+ String a "") +:+ f)
      by now rewrite str_app_assoc.
    destruct (Ascii.eqb a QUOTE) eqn:Hq.
    + apply Ascii.eqb_eq in Hq. subst a.
      rewrite !str_app_cons. cbn [feed].
      change (parse_process_char (mk IN_QUOTED_FIELD acc fs) (Char QUOTE))
        with (Some (mk QUOTE_IN_QUOTED_FIELD acc fs)).
      cbn iota. change (Ascii.eqb QUOTE LF) with false. cbn iota.
      assert (Hp : parse_process_char (mk QUOTE_IN_QUOTED_FIELD acc fs)
                     (Char QUOTE)
                   = Some (mk IN_QUOTED_FIELD (acc +:+ String QUOTE "") fs)).
      { unfold parse_process_char, add_char_to. cbn [st mk].
        change (Ascii.eqb QUOTE QUOTE) with true. cbn iota.
        now rewrite (add_char_within _ _ _ _ Hacc). }
      rewrite Hp. apply (IH _ fs true m' c r Hlim).
    + rewrite str_app_cons. cbn [feed].
      assert (Hp : parse_process_char (mk IN_QUOTED_FIELD acc fs) (Char a)
                   = Some (mk IN_QUOTED_FIELD (acc +:+ String a "") fs)).
      { unfold parse_process_char. cbn [st mk]. rewrite Hq.
        now apply add_char_within. }
      rewrite Hp.
      destruct (Ascii.eqb a LF); [| apply (IH _ fs true m' c r Hlim)].
      unfold end_of_line.
      change (parse_process_char (mk IN_QUOTED_FIELD (acc +:+ String a "") fs) EOL)
        with (Some (mk IN_QUOTED_FIELD (acc +:+ String a "") fs)).
      cbn iota. cbn [st mk is_start_record]. apply (IH _ fs false m' c r Hlim).
Qed.

Lemma not_special (a : ascii) :
  is_special a = false ->
  Ascii.eqb a COMMA = false /\ Ascii.eqb a QUOTE = false
  /\ Ascii.eqb a CR = false /\ Ascii.eqb a LF = false.
Proof.
  unfold is_special. intros H.
  apply orb_false_iff in H as [H H4].
  apply orb_false_iff in H as [H H3].
  apply orb_false_iff in H as [H1 H2]. auto.
Qed.

(** The body of a field written without quotes. *)
Lemma feed_in_field (f : string) :
  contains_char is_special f = false ->
  forall acc fs m m' c r,
    within_limit (acc +:+ f) ->
    feed (mk IN_FIELD acc fs) m (f +:+ String c r)
    = feed (mk IN_FIELD (acc +:+ f) fs) m' (String c r).
Proof.
  induction f as [|a f IH]; intros Hf acc fs m m' c r Hlim.
  - rewrite str_app_nil_r. reflexivity.
  - apply within_limit_snoc in Hlim as [Hacc Hlim].
    cbn in Hf. apply orb_false_iff in Hf as [Ha Hf].
    apply not_special in Ha as (Hcomma & Hquote & Hcr & Hlf).
    replace (acc +:+ String a f) with ((acc +:+ String a "") +:+ f)
      by now rewrite str_app_assoc.
    rewrite str_app_cons. cbn [feed].
    assert (Hp : parse_process_char (mk IN_FIELD acc fs) (Char a)
                 = Some (mk IN_FIELD (acc +:+ String a "") fs)).
    { unfold parse_process_char, is_newline. cbn [st mk].
      rewrite Hlf, Hcr, Hcomma. cbn. now apply add_char_within. }
    rewrite Hp, Hlf. now apply (IH Hf _ fs true m' c r).
Qed.

Lemma feed_field (f : string) (fs : row) (m : bool) (c : ascii) (r : string) :
  Ascii.eqb c QUOTE = false ->
  within_limit f ->
  feed (mk START_FIELD EmptyString fs) m (write_field f +:+ String c r)
  = feed (after_field f fs) true (String c r).
Proof.
  intros Hc Hlim. unfold write_field, after_field.
  destruct (contains_char is_special f) eqn:Hf.
  - rewrite str_app_cons, str_app_assoc, str_app_cons, str_app_nil_l.
    cbn [feed].
    change (parse_process_char (mk START_FIELD "" fs) (Char QUOTE))
      with (Some (mk IN_QUOTED_FIELD "" fs)).
    cbn iota. change (Ascii.eqb QUOTE LF) with false. cbn iota.
    rewrite (feed_in_quoted f "" fs true true QUOTE (String c r))
      by exact Hlim.
    rewrite str_app_nil_l. reflexivity.
  - destruct f as [|a f]; [reflexivity |].
    cbn in Hf. apply orb_false_iff in Hf as [Ha Hf].
    apply not_special in Ha as (Hcomma & Hquote & Hcr & Hlf).
    rewrite str_app_cons. cbn [feed].
    assert (Hp : parse_process_char (mk START_FIELD "" fs) (Char a)
                 = Some (mk IN_FIELD (String a "") fs)).
    { unfold parse_process_char, start_field, is_newline, add_char_to.
      cbn [st mk]. rewrite Hlf, Hcr, Hquote, Hcomma. cbn [orb].
      now rewrite (add_char_within START_FIELD "" fs a within_limit_empty). }
    rewrite Hp, Hlf.
    now rewrite (feed_in_field f Hf (String a "") fs true true c r)
      by exact Hlim.
Qed.

(** After a field, the comma saves it. *)
Lemma after_field_comma (f : string) (fs : row) (r : string) :
  feed (after_field f fs) true (String COMMA r)
  = feed (mk START_FIELD EmptyString (fs ++ [f])%list) true r.
Proof.
  unfold after_field.
  destruct (contains_char is_special f); [reflexivity |].
  destruct f; reflexivity.
Qed.

(** After a field, the end of the line saves it and ends the record. *)
Lemma after_field_newline (f : string) (fs : row) (r : string) :
  feed (after_field f fs) true (String LF r)
  = push (fs ++ [f])%list (feed parse_reset false r).
Proof.
  unfold after_field.
  destruct (contains_char is_special f); [reflexivity |].
  destruct f; reflexivity.
Qed.

(** The fields of a record, from the start of a field. *)
Lemma feed_fields (fields : row) :
  fields <> [] ->
  Forall within_limit fields ->
  forall fs m r,
    feed (mk START_FIELD EmptyString fs) m (join_fields fields +:+ String LF r)
    = push (fs ++ fields)%list (feed parse_reset false r).
Proof.
  induction fields as [|f rest IH]; [congruence |]. intros _ Hlim fs m r.
  apply Forall_cons in Hlim as [Hf Hrest].
  destruct rest as [|g rest].
  - cbn [join_fields]. rewrite feed_field by (reflexivity || exact Hf).
    apply after_field_newline.
  - change (join_fields (f :: g :: rest))
      with (write_field f +:+ String COMMA (join_fields (g :: rest))).
    rewrite str_app_assoc, str_app_cons.
    rewrite feed_field by (reflexivity || exact Hf).
    rewrite after_field_comma.
    rewrite IH by (discriminate || exact Hrest).
    now rewrite <- List.app_assoc.
Qed.

Lemma writerow_record_text (fields : row) :
  writerow fields = record_text fields +:+ line_terminator.
Proof.
  unfold writerow, record_text.
  destruct fields as [|[|c f] [|g rest]]; reflexivity.
Qed.

(** At the start of a record, a character that is not a line end is read
    as at the start of a field. *)
Lemma feed_start_record (m : bool) (c : ascii) (r : string) :
  Ascii.eqb c LF = false -> Ascii.eqb c CR = false ->
  feed parse_reset m (String c r)
  = feed (mk START_FIELD EmptyString []) m (String c r).
Proof.
  intros Hlf Hcr. cbn [feed].
  unfold parse_process_char, is_newline. cbn [st parse_reset mk].
  now rewrite Hlf, Hcr.
Qed.

(** The text of a record other than [[]] and [[""]] begins with a
    character that is not a line end. *)
Lemma record_text_head (fields : row) (r : string) :
  fields <> [] -> fields <> [EmptyString] ->
  Forall (fun f => has_cr f = false) fields ->
  exists c t,
    join_fields fields +:+ String LF r = String c t
    /\ Ascii.eqb c LF = false /\ Ascii.eqb c CR = false.
Proof.
  intros Hnil Hone Hcr.
  destruct fields as [|f rest]; [congruence |].
  assert (Hf : forall tail,
             (f <> EmptyString \/ exists c t, tail = String c t
                /\ Ascii.eqb c LF = false /\ Ascii.eqb c CR = false) ->
             exists c t, write_field f +:+ tail = String c t
               /\ Ascii.eqb c LF = false /\ Ascii.eqb c CR = false).
  { intros tail Htail. unfold write_field.
    destruct (contains_char is_special f) eqn:Hs.
    - rewrite str_app_cons. eexists _, _. repeat split; reflexivity.
    - destruct f as [|a f'].
      + destruct Htail as [? | (c & t & -> & ? & ?)]; [congruence |].
        rewrite str_app_nil_l. eauto.
      + cbn in Hs. apply orb_false_iff in Hs as [Ha _].
        apply not_special in Ha as (_ & _ & ? & ?).
        rewrite str_app_cons. eauto. }
  destruct rest as [|g rest].
  - cbn [join_fields]. apply Hf. left. congruence.
  - change (join_fields (f :: g :: rest))
      with (write_field f +:+ String COMMA (join_fields (g :: rest))).
    rewrite str_app_assoc. apply Hf. right.
    rewrite str_app_cons. eexists _, _. repeat split; reflexivity.
Qed.

(** A record and its line end, at the start of a record. *)
Lemma feed_record (fields : row) (r : string) :
  Forall field_ok fields ->
  feed parse_reset false (record_text fields +:+ String LF r)
  = push fields (feed parse_reset false r).
Proof.
  intros Hok.
  assert (Hcr : Forall (fun f => has_cr f = false) fields)
    by (eapply Forall_impl; [exact Hok | now intros f []]).
  assert (Hlim : Forall within_limit fields)
    by (eapply Forall_impl; [exact Hok | now intros f []]).
  destruct (decide (fields = [])) as [-> | Hnil]; [reflexivity |].
  destruct (decide (fields = [EmptyString])) as [-> | Hone];
    [reflexivity |].
  assert (Ht : record_text fields = join_fields fields).
  { unfold record_text. destruct fields as [|[|c f] [|g rest]]; congruence. }
  rewrite Ht.
  destruct (record_text_head fields r Hnil Hone Hcr) as (c & t & Heq & Hlf & Hc).
  pose proof (feed_fields fields Hnil Hlim [] false r) as Hfeed.
  rewrite Heq in *. rewrite feed_start_record by assumption.
  exact Hfeed.
Qed.

(** Text mode turns the line terminators of the writer into line ends, and
    nothing else when no field holds a carriage return. *)
Lemma universal_newlines_line (a b : string) :
  has_cr a = false ->
  universal_newlines (a +:+ line_terminator +:+ b)
  = a +:+ String LF (universal_newlines b).
Proof.
  intros Ha. induction a as [|c a IH].
  - rewrite str_app_nil_l. reflexivity.
  - apply has_cr_cons in Ha as [Hc Ha]. apply Ascii.eqb_neq in Hc.
    rewrite !str_app_cons. cbn [universal_newlines]. rewrite Hc.
    now rewrite IH.
Qed.

Lemma double_quotes_no_cr (f : string) :
  has_cr f = false -> has_cr (double_quotes f) = false.
Proof.
  induction f as [|c f IH]; [reflexivity |]. intros H.
  apply has_cr_cons in H as [Hc Hf]. cbn [double_quotes].
  destruct (Ascii.eqb c QUOTE) eqn:Hq.
  - apply has_cr_cons. split; [discriminate |].
    apply has_cr_cons. split; [discriminate | auto].
  - apply has_cr_cons. split; auto.
Qed.

Lemma write_field_no_cr (f : string) :
  has_cr f = false -> has_cr (write_field f) = false.
Proof.
  intros H. unfold write_field. destruct (contains_char is_special f); [| exact H].
  apply has_cr_cons. split; [discriminate |].
  apply has_cr_app. split; [now apply double_quotes_no_cr | reflexivity].
Qed.

Lemma record_text_no_cr (fields : row) :
  Forall (fun f => has_cr f = false) fields ->
  has_cr (record_text fields) = false.
Proof.
  intros H.
  assert (Hj : has_cr (join_fields fields) = false).
  { induction H as [|f rest Hf Hrest IH]; [reflexivity |].
    destruct rest as [|g rest]; [now apply write_field_no_cr |].
    change (join_fields (f :: g :: rest))
      with (write_field f +:+ String COMMA (join_fields (g :: rest))).
    apply has_cr_app. split; [now apply write_field_no_cr |].
    apply has_cr_cons. split; [discriminate | exact IH]. }
  unfold record_text. destruct fields as [|[|c f] [|g rest]]; auto.
Qed.

(** The reader reads back the rows that the writer wrote, when no field
    holds a carriage return or is over the limit on the size of a field. *)
Theorem reader_writerows (rows : list row) :
  rows_ok rows ->
  reader (writerows rows) = (rows, true).
Proof.
  intros H. unfold reader, writerows.
  induction H as [|fields rest Hf _ IH]; [reflexivity |].
  cbn [map concat_strings]. rewrite writerow_record_text, str_app_assoc.
  rewrite universal_newlines_line
    by (apply record_text_no_cr; eapply Forall_impl;
        [exact Hf | now intros f []]).
  rewrite feed_record by exact Hf.
  now rewrite IH.
Qed.

End CsvRoundTrip.

(** ** Writing the inventory and loading it again *)

(** C6. The product is added to an empty inventory, which writes the file:
    the name is written between quotes with its carriage return.  Text mode
    reads the carriage return as a line feed, and loading the file gives
    the product under another name. *)
Lemma carriage_return_is_read_back_as_line_feed :
  let (products, w) :=
    Inventory.add_product Dict.empty empty_world
      "p1" ("a" +:+ String Csv.CR "b") 1%float 1 in
  products = [("p1", two_lines)]
  /\ inventory_csv w = Some (Inventory.inventory_text products)
  /\ Inventory.load_inventory (inventory_csv w)
     = ([("p1", two_lines_read_back)], [])
  /\ two_lines_read_back <> two_lines.
Proof.
  vm_compute. repeat split. discriminate.
Qed.

(** The round trip does not hold for every inventory. *)
Lemma round_trip_fails_with_carriage_return :
  ~ every_inventory_round_trips.
Proof.
  intros H.
  specialize (H [("p1", two_lines)]).
  destruct (H ltac:(repeat constructor; cbn; intros Hin; inversion Hin)
              ltac:(repeat constructor) (tuple_of two_lines)) as [_ Hback].
  specialize (Hback ltac:(left; reflexivity)).
  vm_compute in Hback. destruct Hback as [Heq | []]. discriminate Heq.
Qed.

Lemma row_product_of_product (p : Product) :
  PyFloat.parse (PyFloat.repr (price p)) = Some (price p) ->
  PyInt.str (quantity p) <> None ->
  row_product (product_fields p) = Some p.
Proof.
  intros Hp Hq. unfold row_product, product_fields.
  rewrite Hp, int_str_round_trip by exact Hq. now destruct p.
Qed.

Lemma load_rows_products (d2 : Dict.t Product) :
  forall d1 : Dict.t Product,
    NoDup (Dict.keys (d1 ++ d2)%list) -> keyed d2 ->
    Forall (fun e => text_ok (snd e)) d2 ->
    Inventory.load_rows (map product_fields (Dict.values d2)) d1
    = ((d1 ++ d2)%list, None).
Proof.
  induction d2 as [|[k p] d2 IH]; intros d1 Hnd Hk Hok.
  - cbn. now rewrite List.app_nil_r.
  - apply Forall_cons in Hk as [Hkp Hk']. cbn in Hkp.
    apply Forall_cons in Hok as [(_ & _ & Hp & _ & Hq) Hok']. cbn in Hp, Hq.
    cbn [Dict.values map snd].
    rewrite (load_rows_product _ _ d1 p (row_product_of_product p Hp Hq)).
    assert (Habs : Dict.get d1 (product_id p) = None).
    { apply get_none_not_in. rewrite <- Hkp.
      unfold Dict.keys in Hnd. rewrite map_app in Hnd. cbn in Hnd.
      apply NoDup_app in Hnd as (_ & Hdisj & _).
      intros Hin. apply list_elem_of_In in Hin.
      apply (Hdisj k Hin). left. }
    rewrite (set_absent d1 _ p Habs), <- Hkp.
    fold (Dict.values d2).
    rewrite IH; [now rewrite <- List.app_assoc | | exact Hk' | exact Hok'].
    now rewrite <- List.app_assoc.
Qed.

(** The text of an integer is at most one character longer than its
    digits. *)
Lemma decimal_length (z : Z) :
  Z.of_nat (String.length (PyInt.decimal z)) <= PyInt.digit_count z + 1.
Proof.
  unfold PyInt.digit_count.
  destruct z as [|p|p];
    [cbn; lia | change (Z.abs (Zpos p)) with (Zpos p); lia |].
  change (Z.abs (Zneg p)) with (Zpos p). unfold PyInt.decimal.
  cbn [Z.to_int NilZero.string_of_int String.length]. lia.
Qed.

(** The text that [str] gives an integer is within the limit on the size
    of a field. *)
Lemma decimal_field_ok (z : Z) :
  PyInt.str z <> None -> field_ok (PyInt.decimal z).
Proof.
  intros H. split; [apply decimal_no_cr |].
  pose proof (str_digit_count z H). pose proof (decimal_length z).
  unfold within_limit, Csv.field_limit, PyInt.max_str_digits in *. lia.
Qed.

Lemma text_ok_printable (d : Dict.t Product) :
  Forall (fun e => text_ok (snd e)) d -> printable d.
Proof.
  intros H. eapply Forall_impl; [exact H |].
  now intros e (_ & _ & _ & _ & Hq).
Qed.

Lemma product_rows_ok (d : Dict.t Product) :
  Forall (fun e => text_ok (snd e)) d ->
  rows_ok (map product_fields (Dict.values d)).
Proof.
  intros Hok. unfold Dict.values.
  induction Hok as [|[k p] d' (Hid & Hname & _ & Hprice & Hq) _ IH];
    [constructor |].
  cbn [map snd] in *. constructor; [| exact IH].
  constructor; [exact Hid |]. constructor; [exact Hname |].
  constructor; [split; [apply repr_no_cr | exact Hprice] |].
  constructor; [apply decimal_field_ok, Hq | constructor].
Qed.

Lemma header_ok : Forall field_ok Inventory.header.
Proof. repeat (constructor; [split; [reflexivity | discriminate] |]). constructor. Qed.

Lemma load_inventory_of_rows (h : Csv.row) (rows : list Csv.row) :
  rows_ok (h :: rows) ->
  Inventory.load_inventory (Some (Csv.writerows (h :: rows)))
  = match Inventory.load_rows rows Dict.empty with
    | (products, Some e) => (products, [(ERROR, ErrorLoadingInventory e)])
    | (products, None) => (products, [])
    end.
Proof.
  intros Hok. unfold Inventory.load_inventory.
  now rewrite reader_writerows.
Qed.

(** The file written from products whose texts are read back as written
    is loaded as these products. *)
Lemma load_saved_inventory (d : Dict.t Product) :
  well_keyed d ->
  Forall (fun e => text_ok (snd e)) d ->
  Inventory.load_inventory (Some (Inventory.inventory_text d)) = (d, []).
Proof.
  intros [Hnd Hk] Hok.
  unfold Inventory.inventory_text.
  rewrite written_printable by now apply text_ok_printable.
  cbn [fst]. rewrite load_inventory_of_rows.
  - now rewrite (load_rows_products d Dict.empty Hnd Hk Hok).
  - constructor; [apply header_ok | now apply product_rows_ok].
Qed.

(** X17. An inventory whose identifiers, names and prices are read back as
    written (no carriage return, no field over the limit of [csv], each
    price read back from its own text) and whose quantities have a text is
    saved without an exception, and is loaded from the file that
    [save_inventory] writes exactly as it was: the same products in the
    same order, without a log record. *)
Theorem inventory_round_trip (d : Dict.t Product) (w : world) :
  NoDup (Dict.keys d) ->
  keyed d ->
  Forall (fun e => text_ok (snd e)) d ->
  snd (Inventory.save_inventory d w) = None
  /\ Inventory.load_inventory
       (inventory_csv (fst (Inventory.save_inventory d w)))
     = (d, [])
  /\ same_tuples
       (fst (Inventory.load_inventory
               (inventory_csv (fst (Inventory.save_inventory d w))))) d.
Proof.
  intros Hnd Hk Hok.
  rewrite save_inventory_printable by now apply text_ok_printable.
  cbn [fst snd write_inventory_csv inventory_csv].
  rewrite load_saved_inventory by first [exact (conj Hnd Hk) | exact Hok].
  split; [reflexivity |]. split; [reflexivity |]. intros t. reflexivity.
Qed.

Lemma inventory_round_trip_witness :
  snd (Inventory.save_inventory [("p1", widget); ("p2", nut)] empty_world)
  = None
  /\ Inventory.load_inventory
       (inventory_csv
          (fst (Inventory.save_inventory [("p1", widget); ("p2", nut)]
                  empty_world)))
     = ([("p1", widget); ("p2", nut)], [])
  /\ same_tuples
       (fst (Inventory.load_inventory
               (inventory_csv
                  (fst (Inventory.save_inventory [("p1", widget); ("p2", nut)]
                          empty_world)))))
       [("p1", widget); ("p2", nut)].
Proof.
  apply (inventory_round_trip [("p1", widget); ("p2", nut)] empty_world).
  - apply (bool_decide_unpack _). vm_compute. reflexivity.
  - repeat constructor.
  - repeat constructor; vm_compute; congruence.
Defined.

(** ** Saving a sale *)

Lemma concat_strings_app (a b : list string) :
  Text.concat_strings (a ++ b)
  = Text.concat_strings a +:+ Text.concat_strings b.
Proof.
  induction a as [|x a IH]; [reflexivity |].
  cbn [app Text.concat_strings]. now rewrite IH, str_app_assoc.
Qed.

Lemma writerows_app (a b : list Csv.row) :
  Csv.writerows (a ++ b) = Csv.writerows a +:+ Csv.writerows b.
Proof. unfold Csv.writerows. now rewrite map_app, concat_strings_app. Qed.

Lemma item_rows_ok (sale : Sale.t) :
  sale_text_ok sale ->
  items_printable sale ->
  rows_ok (map (item_fields (Sale.sale_id sale)) (Sale.items sale)).
Proof.
  intros [Hid Hitems] Hp. unfold items_printable in Hp.
  induction Hitems as [|i items (Hpid & Hname & Htotal) _ IH];
    [constructor |].
  apply Forall_cons in Hp as [Hq Hp].
  cbn [map]. constructor; [| now apply IH].
  constructor; [exact Hid |]. constructor; [exact Hpid |].
  constructor; [exact Hname |].
  constructor; [apply decimal_field_ok, Hq |].
  constructor; [split; [apply repr_no_cr | exact Htotal] | constructor].
Qed.

Lemma item_rows_shape (id : string) (items : list Sale.item) :
  length (map (item_fields id) items) = length items
  /\ Forall (fun r => hd_error r = Some id) (map (item_fields id) items).
Proof.
  split; [apply length_map |].
  induction items; constructor; auto.
Qed.

(** C3. When [get_existing_sales] returns the identifiers of the ledger
    and the quantities of the items have a text, [save_sale] returns.
    When the identifier of the sale is among them, the sale is rejected:
    the sales file is what it was, and the rejection is logged and
    printed.  Otherwise the sales file is its former text followed by one
    row for each item of the sale, each with the identifier of the sale as
    its first field: read back from a file that was written from rows,
    the ledger is these rows followed by one row for each item. *)
Theorem save_sale_rejects_or_appends
    (w : world) (sale : Sale.t) (ids : gset string) :
  SalesManager.get_existing_sales (sales_csv w) = Returned ids ->
  items_printable sale ->
  exists w',
    SalesManager.save_sale w sale = Returned w'
    /\ inventory_csv w' = inventory_csv w
    /\ let rows := map (item_fields (Sale.sale_id sale)) (Sale.items sale) in
       length rows = length (Sale.items sale)
       /\ Forall (fun r => hd_error r = Some (Sale.sale_id sale)) rows
       /\ (Sale.sale_id sale ∈ ids ->
           sales_csv w' = sales_csv w
           /\ shop_log w'
              = (shop_log w ++
                 [(ERROR,
                   Message ("Sale ID " +:+ Sale.sale_id sale
                            +:+ " already exists. Choose a different ID."))])%list
           /\ console w'
              = (console w ++
                 [Line "Sale ID already exists. Choose a different ID."])%list)
       /\ (Sale.sale_id sale ∉ ids ->
           sales_csv w'
           = Some (SalesManager.file_text (sales_csv w) +:+ Csv.writerows rows)
           /\ forall old : list Csv.row,
                SalesManager.file_text (sales_csv w) = Csv.writerows old ->
                rows_ok old ->
                sale_text_ok sale ->
                Csv.reader (SalesManager.file_text (sales_csv w'))
                = ((old ++ rows)%list, true)).
Proof.
  intros Hids Hp.
  destruct (item_rows_shape (Sale.sale_id sale) (Sale.items sale))
    as [Hlen Hhd].
  destruct (decide (Sale.sale_id sale ∈ ids)) as [Hin | Hout].
  - rewrite (save_sale_duplicate w sale ids Hids Hin).
    eexists. split; [reflexivity |]. split; [reflexivity |]. cbn zeta.
    split; [exact Hlen |]. split; [exact Hhd |].
    split; [intros _; cbn; auto | intros Hout; contradiction].
  - rewrite (save_sale_fresh w sale ids Hids Hout Hp).
    rewrite (sale_text_printable sale Hp).
    eexists. split; [reflexivity |]. split; [reflexivity |]. cbn zeta.
    split; [exact Hlen |]. split; [exact Hhd |].
    split; [intros Hin; contradiction | intros _].
    split; [reflexivity |].
    intros old Hold Hok Hsale.
    cbn [log write_sales_csv sales_csv SalesManager.file_text].
    rewrite Hold, <- writerows_app. apply reader_writerows.
    apply Forall_app. split; [exact Hok | now apply item_rows_ok].
Qed.

(** The sale S2 is saved after the sale S1: its row is appended. *)
Lemma save_sale_rejects_or_appends_witness :
  exists w',
    SalesManager.save_sale (ShopSystem.env shop_after_S1) sale_S2 = Returned w'
    /\ inventory_csv w' = inventory_csv (ShopSystem.env shop_after_S1)
    /\ let rows := map (item_fields "S2") (Sale.items sale_S2) in
       length rows = length (Sale.items sale_S2)
       /\ Forall (fun r => hd_error r = Some "S2") rows
       /\ ("S2" ∈ existing_ids (sales_csv (ShopSystem.env shop_after_S1)) ->
           sales_csv w' = sales_csv (ShopSystem.env shop_after_S1)
           /\ shop_log w'
              = (shop_log (ShopSystem.env shop_after_S1) ++
                 [(ERROR,
                   Message ("Sale ID " +:+ "S2"
                            +:+ " already exists. Choose a different ID."))])%list
           /\ console w'
              = (console (ShopSystem.env shop_after_S1) ++
                 [Line "Sale ID already exists. Choose a different ID."])%list)
       /\ ("S2" ∉ existing_ids (sales_csv (ShopSystem.env shop_after_S1)) ->
           sales_csv w'
           = Some (SalesManager.file_text
                     (sales_csv (ShopSystem.env shop_after_S1))
                   +:+ Csv.writerows rows)
           /\ forall old : list Csv.row,
                SalesManager.file_text
                  (sales_csv (ShopSystem.env shop_after_S1))
                = Csv.writerows old ->
                rows_ok old ->
                sale_text_ok sale_S2 ->
                Csv.reader (SalesManager.file_text (sales_csv w'))
                = ((old ++ rows)%list, true)).
Proof.
  apply (save_sale_rejects_or_appends (ShopSystem.env shop_after_S1) sale_S2
           (existing_ids (sales_csv (ShopSystem.env shop_after_S1)))).
  - vm_compute. reflexivity.
  - repeat constructor; vm_compute; congruence.
Defined.

(** ** Processing a sale *)

Lemma finish_sale_duplicate (s : ShopSystem.t) (sale : Sale.t)
    (ids : gset string) :
  SalesManager.get_existing_sales (sales_csv (ShopSystem.env s))
  = Returned ids ->
  Sale.sale_id sale ∈ ids ->
  printable (ShopSystem.products s) ->
  exists s',
    ShopSystem.finish_sale s sale = Returned s'
    /\ ShopSystem.products s' = ShopSystem.products s
    /\ inventory_csv (ShopSystem.env s')
       = Some (Inventory.inventory_text (ShopSystem.products s))
    /\ sales_csv (ShopSystem.env s') = sales_csv (ShopSystem.env s).
Proof.
  intros Hids Hin Hp. unfold ShopSystem.finish_sale.
  rewrite save_inventory_printable by exact Hp.
  rewrite (save_sale_duplicate _ sale ids) by assumption.
  eexists. split; [reflexivity |]. cbn. auto.
Qed.

(** C1. When the identifier of the sale is already in the ledger and every
    quantity on hand has a text, [process_sale] returns: the products are
    those that the collection of the items left, with their decremented
    quantities, the inventory file holds the row of each of these
    products, and the ledger is what it was.  Loading the inventory file
    gives these products back when their texts are read back as
    written. *)
Theorem process_sale_duplicate_keeps_decrements
    (s s1 : ShopSystem.t) (line : string) (stdin rest : list string)
    (sale : Sale.t) (ids : gset string) :
  ShopSystem.collect stdin s (Sale.new (Text.strip line))
    = Returned (s1, sale, rest) ->
  SalesManager.get_existing_sales (sales_csv (ShopSystem.env s))
  = Returned ids ->
  Text.strip line ∈ ids ->
  printable (ShopSystem.products s1) ->
  exists s2,
    ShopSystem.process_sale (line :: stdin) s = Returned (s2, rest)
    /\ ShopSystem.products s2 = ShopSystem.products s1
    /\ inventory_csv (ShopSystem.env s2)
       = Some (Csv.writerows
                 (Inventory.header ::
                  map product_fields (Dict.values (ShopSystem.products s1))))
    /\ sales_csv (ShopSystem.env s2) = sales_csv (ShopSystem.env s)
    /\ (well_keyed (ShopSystem.products s1) ->
        Forall (fun e => text_ok (snd e)) (ShopSystem.products s1) ->
        Inventory.load_inventory (inventory_csv (ShopSystem.env s2))
        = (ShopSystem.products s1, [])).
Proof.
  intros Hc Hids Hin Hp. unfold ShopSystem.process_sale. rewrite Hc.
  destruct (collect_keeps_files _ _ _ _ _ _ Hc) as (_ & Hsales & _ & Hid).
  destruct (finish_sale_duplicate s1 sale ids) as (s2 & -> & Hprod & Hi & Hl);
    [now rewrite Hsales | now rewrite Hid | exact Hp |].
  exists s2. split; [reflexivity |]. split; [exact Hprod |].
  split; [| split; [congruence |]].
  - rewrite Hi. unfold Inventory.inventory_text.
    now rewrite (written_printable _ Hp).
  - intros Hk Hok. rewrite Hi. now apply load_saved_inventory.
Qed.

(** Three widgets are sold under the identifier S1 once more: seven are
    left in memory and in the inventory file, and the ledger is the same. *)
Lemma process_sale_duplicate_keeps_decrements_witness :
  exists s2,
    ShopSystem.process_sale ["S1"; "p1"; "3"; "done"] shop_after_S1
      = Returned (s2, [])
    /\ ShopSystem.products s2 = [("p1", with_quantity widget 7)]
    /\ inventory_csv (ShopSystem.env s2)
       = Some (Csv.writerows
                 (Inventory.header ::
                  map product_fields
                    (Dict.values [("p1", with_quantity widget 7)])))
    /\ sales_csv (ShopSystem.env s2) = sales_csv (ShopSystem.env shop_after_S1)
    /\ (well_keyed [("p1", with_quantity widget 7)] ->
        Forall (fun e => text_ok (snd e)) [("p1", with_quantity widget 7)] ->
        Inventory.load_inventory (inventory_csv (ShopSystem.env s2))
        = ([("p1", with_quantity widget 7)], [])).
Proof.
  apply (process_sale_duplicate_keeps_decrements
           shop_after_S1
           (ShopSystem.say
              {| ShopSystem.products := [("p1", with_quantity widget 7)];
                 ShopSystem.env := ShopSystem.env shop_after_S1 |}
              (AddedToSale 3 "Widget" 0x1.df851eb851eb8p+4%float))
           "S1" ["p1"; "3"; "done"] []
           {| Sale.sale_id := "S1";
              Sale.items :=
                [{| Sale.item_product_id := "p1"; Sale.item_name := "Widget";
                    Sale.item_quantity := 3;
                    Sale.item_total_price := 0x1.df851eb851eb8p+4%float |}] |}
           (existing_ids (sales_csv (ShopSystem.env shop_after_S1)))).
  - vm_compute. reflexivity.
  - vm_compute. reflexivity.
  - apply (bool_decide_unpack _). vm_compute. reflexivity.
  - repeat constructor; vm_compute; congruence.
Defined.

(** Saving a sale without items under a new identifier: nothing is
    appended, and the success is logged. *)
Lemma save_empty_sale (w : world) (id : string) (ids : gset string) :
  SalesManager.get_existing_sales (sales_csv w) = Returned ids ->
  id ∉ ids ->
  SalesManager.save_sale w (Sale.new id) =
    Returned
      (log (write_sales_csv w (SalesManager.file_text (sales_csv w)))
           INFO (Message ("Sale " +:+ id +:+ " recorded successfully."))).
Proof.
  intros Hids Hout.
  rewrite (save_sale_fresh w (Sale.new id) ids Hids Hout) by constructor.
  cbn. now rewrite str_app_nil_r.
Qed.

(** C10. The operator answers the first product prompt with the word done,
    for a sale whose identifier is not among those that
    [get_existing_sales] returns, in a shop whose quantities on hand have a
    text: the sale without items is saved, no row is appended to the ledger
    and the success is logged.  [get_existing_sales] returns the same
    identifiers afterwards, so the identifier is still not among them, and
    a later sale under the same identifier is not rejected: its rows are
    appended. *)
Theorem empty_sale_leaves_identifier_free
    (s : ShopSystem.t) (id_line done_line : string) (rest : list string)
    (ids : gset string) :
  String.eqb (Text.lower (Text.strip done_line)) "done" = true ->
  SalesManager.get_existing_sales (sales_csv (ShopSystem.env s))
  = Returned ids ->
  Text.strip id_line ∉ ids ->
  printable (ShopSystem.products s) ->
  exists s',
    ShopSystem.process_sale (id_line :: done_line :: rest) s
      = Returned (s', rest)
    /\ sales_csv (ShopSystem.env s')
       = Some (SalesManager.file_text (sales_csv (ShopSystem.env s)))
    /\ shop_log (ShopSystem.env s')
       = (shop_log (ShopSystem.env s) ++
          [(INFO, Message ("Sale " +:+ Text.strip id_line
                           +:+ " recorded successfully."))])%list
    /\ SalesManager.get_existing_sales (sales_csv (ShopSystem.env s'))
       = Returned ids
    /\ forall later : Sale.t,
         Sale.sale_id later = Text.strip id_line ->
         items_printable later ->
         exists w2,
           SalesManager.save_sale (ShopSystem.env s') later = Returned w2
           /\ sales_csv w2
              = Some (SalesManager.file_text (sales_csv (ShopSystem.env s))
                      +:+ Csv.writerows
                            (map (item_fields (Text.strip id_line))
                                 (Sale.items later))).
Proof.
  intros Hdone Hids Hout Hp.
  unfold ShopSystem.process_sale. cbn [ShopSystem.collect]. rewrite Hdone.
  unfold ShopSystem.finish_sale.
  rewrite save_inventory_printable by exact Hp.
  rewrite (save_empty_sale _ _ ids) by assumption.
  eexists. split; [reflexivity |]. cbn.
  split; [reflexivity |]. split; [reflexivity |].
  pose proof (get_existing_sales_file_text _ _ Hids) as Hids'.
  split; [exact Hids' |].
  intros later Hid Hlater.
  rewrite (save_sale_fresh _ later ids) by (cbn; congruence || assumption).
  rewrite (sale_text_printable later Hlater), Hid.
  eexists. split; reflexivity.
Qed.

Lemma empty_sale_leaves_identifier_free_witness :
  exists s',
    ShopSystem.process_sale ("S2" :: " Done " :: []) shop_after_S1
      = Returned (s', [])
    /\ sales_csv (ShopSystem.env s')
       = Some (SalesManager.file_text (sales_csv (ShopSystem.env shop_after_S1)))
    /\ shop_log (ShopSystem.env s')
       = (shop_log (ShopSystem.env shop_after_S1) ++
          [(INFO, Message ("Sale " +:+ Text.strip "S2"
                           +:+ " recorded successfully."))])%list
    /\ SalesManager.get_existing_sales (sales_csv (ShopSystem.env s'))
       = Returned (existing_ids (sales_csv (ShopSystem.env shop_after_S1)))
    /\ forall later : Sale.t,
         Sale.sale_id later = Text.strip "S2" ->
         items_printable later ->
         exists w2,
           SalesManager.save_sale (ShopSystem.env s') later = Returned w2
           /\ sales_csv w2
              = Some (SalesManager.file_text
                        (sales_csv (ShopSystem.env shop_after_S1))
                      +:+ Csv.writerows
                            (map (item_fields (Text.strip "S2"))
                                 (Sale.items later))).
Proof.
  apply (empty_sale_leaves_identifier_free shop_after_S1 "S2" " Done " []
           (existing_ids (sales_csv (ShopSystem.env shop_after_S1)))).
  - reflexivity.
  - vm_compute. reflexivity.
  - vm_compute. intros H. discriminate H.
  - repeat constructor; vm_compute; congruence.
Defined.

(** * Further properties *)

(** ** What the operations do when they return *)

Lemma sell_cases (s s' : ShopSystem.t) (sale sale' : Sale.t)
    (pid : string) (product : Product) (answer : string) :
  ShopSystem.sell s sale pid product answer = Returned (s', sale') ->
  (exists line, s' = ShopSystem.say s line /\ sale' = sale)
  \/ (exists q total,
        q <= quantity product
        /\ PyFloat.mul_int (price product) q = Some total
        /\ s' = ShopSystem.say
                  {| ShopSystem.products :=
                       Dict.set (ShopSystem.products s) pid
                         (with_quantity product (quantity product - q));
                     ShopSystem.env := ShopSystem.env s |}
                  (AddedToSale q (name product) total)
        /\ sale' = {| Sale.sale_id := Sale.sale_id sale;
                      Sale.items :=
                        (Sale.items sale ++
                         [{| Sale.item_product_id := product_id product;
                             Sale.item_name := name product;
                             Sale.item_quantity := q;
                             Sale.item_total_price := total |}])%list |}).
Proof.
  unfold ShopSystem.sell.
  destruct (PyInt.parse (Text.strip answer)) as [q|].
  - destruct (Z.gtb_spec q (quantity product)) as [Hgt|Hle].
    + intros [= <- <-]. left. eauto.
    + unfold Sale.add_item.
      destruct (PyFloat.mul_int (price product) q) as [total|] eqn:Hm;
        [| discriminate].
      intros [= <- <-]. right. exists q, total. auto.
  - intros [= <- <-]. left. eauto.
Qed.

Lemma save_sale_cases (w w' : world) (sale : Sale.t) :
  SalesManager.save_sale w sale = Returned w' ->
  inventory_csv w' = inventory_csv w
  /\ (sales_csv w' = sales_csv w
      \/ sales_csv w'
         = Some (SalesManager.file_text (sales_csv w)
                 +:+ SalesManager.sale_text sale)).
Proof.
  unfold SalesManager.save_sale.
  destruct (SalesManager.get_existing_sales (sales_csv w)) as [ids|e];
    [| discriminate].
  destruct (bool_decide (Sale.sale_id sale ∈ ids)).
  - intros [= <-]. cbn. auto.
  - destruct (snd (SalesManager.appended sale)); [| discriminate].
    intros [= <-]. cbn. auto.
Qed.

Lemma process_sale_cases (stdin rest : list string) (s s' : ShopSystem.t) :
  ShopSystem.process_sale stdin s = Returned (s', rest) ->
  exists line tail s1 sale w2,
    stdin = line :: tail
    /\ ShopSystem.collect tail s (Sale.new (Text.strip line))
       = Returned (s1, sale, rest)
    /\ SalesManager.save_sale
         (write_inventory_csv (ShopSystem.env s1)
            (Inventory.inventory_text (ShopSystem.products s1)))
         sale = Returned w2
    /\ s' = ShopSystem.say (ShopSystem.with_env s1 w2)
              (Line ("Sale " +:+ Sale.sale_id sale
                     +:+ " recorded successfully.")).
Proof.
  unfold ShopSystem.process_sale.
  destruct stdin as [|line tail]; [discriminate |].
  destruct (ShopSystem.collect tail s _) as [[[s1 sale] rest1]|e] eqn:Hc;
    [| discriminate].
  unfold ShopSystem.finish_sale, Inventory.save_inventory.
  destruct (snd (Inventory.written _)); [| discriminate].
  destruct (SalesManager.save_sale _ sale) as [w2|e] eqn:Hs; [| discriminate].
  intros [= <- <-]. exists line, tail, s1, sale, w2. auto.
Qed.

Lemma add_product_cases (stdin rest : list string) (s s' : ShopSystem.t) :
  ShopSystem.add_product stdin s = Returned (s', rest) ->
  (exists line, s' = ShopSystem.say s line)
  \/ (exists id nm pr q,
        (ShopSystem.products s', ShopSystem.env s')
        = Inventory.add_product (ShopSystem.products s) (ShopSystem.env s)
            id nm pr q).
Proof.
  unfold ShopSystem.add_product.
  destruct stdin as [|l1 [|l2 [|l3 tail]]]; try discriminate.
  destruct (PyFloat.parse (Text.strip l3)) as [pr|];
    [| intros [= <- <-]; left; eauto].
  destruct tail as [|l4 tail']; [discriminate |].
  destruct (PyInt.parse (Text.strip l4)) as [q|];
    [| intros [= <- <-]; left; eauto].
  destruct (Inventory.add_product_call _ _ _ _ pr q)
    as [[products' w'] [e|]] eqn:Ha; [discriminate |].
  intros [= <- <-]. right.
  exists (Text.strip l1), (Text.strip l2), pr, q.
  unfold Inventory.add_product. now rewrite Ha.
Qed.

(** A property of the shop that printing, adding a product and processing
    a sale keep is kept by the menu. *)
Lemma menu_invariant (tabulate : list (list cell) -> headers -> string)
    (P : ShopSystem.t -> Prop) :
  (forall s line, P s -> P (ShopSystem.say s line)) ->
  (forall stdin s s' rest,
     P s -> ShopSystem.add_product stdin s = Returned (s', rest) -> P s') ->
  (forall stdin s s' rest,
     P s -> ShopSystem.process_sale stdin s = Returned (s', rest) -> P s') ->
  forall fuel stdin s s' rest,
    P s ->
    menu tabulate fuel stdin s = Some (Returned (s', rest)) ->
    P s'.
Proof.
  intros Hsay Hadd Hsale fuel.
  induction fuel as [|fuel IH]; intros stdin s s' rest HP; [discriminate |].
  cbn [menu].
  assert (HP0 : P (fold_left ShopSystem.say menu_text s)).
  { cbn. repeat apply Hsay. exact HP. }
  set (s0 := fold_left ShopSystem.say menu_text s) in *. clearbody s0.
  destruct stdin as [|line tail]; [discriminate |].
  destruct (String.eqb (Text.strip line) "1").
  { apply IH. unfold view_inventory.
    destruct (ShopSystem.products s0); apply (Hsay s0 _ HP0). }
  destruct (String.eqb (Text.strip line) "2").
  { destruct (ShopSystem.add_product tail s0) as [[s1 rest1]|e] eqn:Ha;
      [| discriminate].
    apply IH. eapply Hadd; eauto. }
  destruct (String.eqb (Text.strip line) "3").
  { destruct (ShopSystem.process_sale tail s0) as [[s1 rest1]|e] eqn:Hp;
      [| discriminate].
    apply IH. eapply Hsale; eauto. }
  destruct (String.eqb (Text.strip line) "4").
  { destruct (view_sales tabulate (ShopSystem.env s0)) as [w1|e] eqn:Hv;
      [| discriminate].
    apply IH. unfold view_sales in Hv.
    destruct (sales_csv (ShopSystem.env s0)) as [text|].
    - destruct (Csv.reader text) as [sales [|]]; [| discriminate].
      destruct (_ <=? _)%nat; injection Hv as <-; apply (Hsay s0 _ HP0).
    - injection Hv as <-. apply (Hsay s0 _ HP0). }
  destruct (String.eqb (Text.strip line) "5").
  { intros [= <- <-]. now apply Hsay. }
  apply IH. now apply Hsay.
Qed.

(** ** The files at the start *)

Lemma fold_log_files (records : list log_record) (w : world) :
  inventory_csv (fold_left (fun w r => log w (fst r) (snd r)) records w)
  = inventory_csv w
  /\ sales_csv (fold_left (fun w r => log w (fst r) (snd r)) records w)
     = sales_csv w.
Proof.
  revert w. induction records as [|r records IH]; intros w; [auto |].
  cbn [fold_left]. destruct (IH (log w (fst r) (snd r))) as [-> ->]. auto.
Qed.

Lemma ensure_sales_file_inventory (w : world) :
  inventory_csv (SalesManager.ensure_sales_file w) = inventory_csv w.
Proof. unfold SalesManager.ensure_sales_file. now destruct (sales_csv w). Qed.

Lemma init_products (w : world) :
  ShopSystem.products (ShopSystem.init w)
  = fst (Inventory.load_inventory (inventory_csv w)).
Proof.
  unfold ShopSystem.init.
  now destruct (Inventory.load_inventory (inventory_csv w)).
Qed.

Lemma init_inventory_csv (w : world) :
  inventory_csv (ShopSystem.env (ShopSystem.init w)) = inventory_csv w.
Proof.
  unfold ShopSystem.init.
  destruct (Inventory.load_inventory (inventory_csv w)) as [d records].
  cbn. rewrite ensure_sales_file_inventory. apply fold_log_files.
Qed.

Lemma init_sales_csv (w : world) :
  sales_csv (ShopSystem.env (ShopSystem.init w))
  = Some (match sales_csv w with
          | Some text => text
          | None => Csv.writerow SalesManager.header
          end).
Proof.
  unfold ShopSystem.init.
  destruct (Inventory.load_inventory (inventory_csv w)) as [d records].
  cbn. unfold SalesManager.ensure_sales_file.
  destruct (fold_log_files records w) as [_ Hs]. rewrite Hs.
  destruct (sales_csv w) eqn:E; [congruence | reflexivity].
Qed.

(** ** Unique identifiers *)

Lemma keys_app {V : Type} (a b : Dict.t V) :
  Dict.keys (a ++ b)%list = (Dict.keys a ++ Dict.keys b)%list.
Proof. unfold Dict.keys. apply map_app. Qed.

Lemma nodup_keys_set {V : Type} (d : Dict.t V) (k : string) (v : V) :
  NoDup (Dict.keys d) -> NoDup (Dict.keys (Dict.set d k v)).
Proof.
  intros Hd. destruct (Dict.get d k) as [v0|] eqn:Hget.
  - now rewrite (keys_set_present d k v v0 Hget).
  - rewrite (set_absent d k v Hget), keys_app. cbn.
    apply NoDup_app. split; [exact Hd |]. split; [| apply NoDup_singleton].
    intros x Hx Hk. apply list_elem_of_singleton in Hk. subst x.
    apply get_none_not_in in Hget. apply Hget. now apply list_elem_of_In.
Qed.

Lemma keyed_set (d : Dict.t Product) (k : string) (p : Product) :
  keyed d -> k = product_id p -> keyed (Dict.set d k p).
Proof.
  unfold keyed. intros Hd Hk. induction d as [|[k' p'] d IH]; cbn.
  - constructor; [exact Hk | constructor].
  - apply Forall_cons in Hd as [Hhd Htl].
    destruct (String.eqb k k'); constructor; auto.
Qed.

Lemma keyed_get (d : Dict.t Product) (k : string) (p : Product) :
  keyed d -> Dict.get d k = Some p -> product_id p = k.
Proof.
  unfold keyed. intros Hd. induction d as [|[k' p'] d IH]; cbn; [discriminate |].
  apply Forall_cons in Hd as [Hhd Htl]. cbn in Hhd.
  destruct (String.eqb_spec k k') as [-> | Hne]; [| auto].
  now intros [= <-].
Qed.

Lemma well_keyed_set (d : Dict.t Product) (k : string) (p : Product) :
  well_keyed d -> k = product_id p -> well_keyed (Dict.set d k p).
Proof.
  intros [Hnd Hk] Heq. split; [now apply nodup_keys_set | now apply keyed_set].
Qed.

Lemma load_rows_well_keyed (rows : list Csv.row) :
  forall d, well_keyed d -> well_keyed (fst (Inventory.load_rows rows d)).
Proof.
  induction rows as [|row rows IH]; intros d Hd; [exact Hd |].
  cbn [Inventory.load_rows].
  destruct (length row <? 4)%nat; [now apply IH |].
  destruct row as [|a [|b [|c [|e [|x row]]]]]; try exact Hd.
  destruct (PyFloat.parse c); [| exact Hd].
  destruct (PyInt.parse e); [| exact Hd].
  apply IH. now apply well_keyed_set.
Qed.

(** X1. Whatever the inventory file holds (rows of the same identifier,
    short rows, rows that abort the load), the products loaded have unique
    identifiers, each product under its own. *)
Theorem load_inventory_well_keyed (file : option string) :
  NoDup (Dict.keys (fst (Inventory.load_inventory file)))
  /\ Forall (fun e => fst e = product_id (snd e))
       (fst (Inventory.load_inventory file)).
Proof.
  change (well_keyed (fst (Inventory.load_inventory file))).
  assert (Hempty : well_keyed (Dict.empty : Dict.t Product))
    by (split; constructor).
  destruct file as [text|]; [| exact Hempty].
  unfold Inventory.load_inventory.
  destruct (Csv.reader text) as [rows ok].
  pose proof (load_rows_well_keyed (tl rows) Dict.empty Hempty) as H.
  destruct (Inventory.load_rows (tl rows) Dict.empty) as [d [e|]]; exact H.
Qed.

Lemma add_product_well_keyed (d : Dict.t Product) (w : world)
    (id nm : string) (pr : float) (q : Z) :
  well_keyed d -> well_keyed (fst (Inventory.add_product d w id nm pr q)).
Proof.
  intros Hd. destruct (Dict.contains d id) eqn:Hc.
  - now rewrite add_product_present by exact Hc.
  - rewrite add_product_absent by exact Hc. now apply well_keyed_set.
Qed.

Lemma shop_add_product_well_keyed (stdin rest : list string)
    (s s' : ShopSystem.t) :
  well_keyed (ShopSystem.products s) ->
  ShopSystem.add_product stdin s = Returned (s', rest) ->
  well_keyed (ShopSystem.products s').
Proof.
  intros Hs Ha.
  apply add_product_cases in Ha as [(line & ->) | (id & nm & pr & q & Ha)];
    [exact Hs |].
  pose proof (add_product_well_keyed (ShopSystem.products s) (ShopSystem.env s)
                id nm pr q Hs) as H.
  rewrite <- Ha in H. exact H.
Qed.

Lemma sell_well_keyed (s s' : ShopSystem.t) (sale sale' : Sale.t)
    (pid : string) (product : Product) (answer : string) :
  well_keyed (ShopSystem.products s) ->
  Dict.get (ShopSystem.products s) pid = Some product ->
  ShopSystem.sell s sale pid product answer = Returned (s', sale') ->
  well_keyed (ShopSystem.products s').
Proof.
  intros Hs Hget Hsell.
  apply sell_cases in Hsell
    as [(line & -> & _) | (q & total & _ & _ & -> & _)]; [exact Hs |].
  cbn. apply well_keyed_set; [exact Hs |].
  cbn. symmetry. apply (keyed_get _ _ _ (proj2 Hs) Hget).
Qed.

Lemma process_sale_well_keyed (stdin rest : list string)
    (s s' : ShopSystem.t) :
  well_keyed (ShopSystem.products s) ->
  ShopSystem.process_sale stdin s = Returned (s', rest) ->
  well_keyed (ShopSystem.products s').
Proof.
  intros Hs Hp.
  apply process_sale_cases in Hp
    as (line & tail & s1 & sale & w2 & -> & Hc & _ & ->).
  cbn.
  apply (collect_invariant (fun s0 _ => well_keyed (ShopSystem.products s0)))
    with (stdin := tail) (s := s) (sale := Sale.new (Text.strip line))
         (sale' := sale) (rest := rest); auto.
  intros s0 sale0 pid product answer s0' sale0'. apply sell_well_keyed.
Qed.

(** X2. From the start of the program to the end of the menu, the
    identifiers of the inventory are unique and each product is under its
    own: adding products and processing sales keep it so. *)
Theorem menu_keeps_identifiers_unique
    (tabulate : list (list cell) -> headers -> string)
    (w : world) (fuel : nat) (stdin rest : list string) (s' : ShopSystem.t) :
  menu tabulate fuel stdin (ShopSystem.init w) = Some (Returned (s', rest)) ->
  well_keyed (ShopSystem.products s').
Proof.
  apply (menu_invariant tabulate
           (fun s => well_keyed (ShopSystem.products s))).
  - auto.
  - intros stdin0 s0 s0' rest0. apply shop_add_product_well_keyed.
  - intros stdin0 s0 s0' rest0. apply process_sale_well_keyed.
  - rewrite init_products.
    destruct (inventory_csv w) as [text|]; [| split; constructor].
    unfold Inventory.load_inventory.
    destruct (Csv.reader text) as [rows ok].
    pose proof (load_rows_well_keyed (tl rows) Dict.empty
                  ltac:(split; constructor)) as H.
    destruct (Inventory.load_rows (tl rows) Dict.empty) as [d [e|]]; exact H.
Qed.

Lemma menu_keeps_identifiers_unique_witness :
  exists s' rest,
    menu cells_text 20 session (ShopSystem.init empty_world)
      = Some (Returned (s', rest))
    /\ ShopSystem.products s' = [("p1", with_quantity widget 7)]
    /\ well_keyed (ShopSystem.products s').
Proof.
  eexists _, _. split; [vm_compute; reflexivity |].
  split; [reflexivity |].
  apply (menu_keeps_identifiers_unique cells_text empty_world 20 session []).
  vm_compute. reflexivity.
Defined.

(** ** The files while the menu runs *)

Lemma process_sale_files (stdin rest : list string) (s s' : ShopSystem.t) :
  ShopSystem.process_sale stdin s = Returned (s', rest) ->
  inventory_csv (ShopSystem.env s')
  = Some (Inventory.inventory_text (ShopSystem.products s'))
  /\ exists suffix,
       sales_csv (ShopSystem.env s')
       = match sales_csv (ShopSystem.env s) with
         | Some text => Some (text +:+ suffix)
         | None => sales_csv (ShopSystem.env s')
         end.
Proof.
  intros Hp.
  apply process_sale_cases in Hp
    as (line & tail & s1 & sale & w2 & -> & Hc & Hs & ->).
  apply collect_keeps_files in Hc as (_ & Hsales & _ & _).
  apply save_sale_cases in Hs as [Hinv Hsale]. cbn in *.
  split; [exact Hinv |].
  rewrite <- Hsales.
  destruct (sales_csv (ShopSystem.env s1)) as [text|] eqn:E;
    [| now exists EmptyString].
  destruct Hsale as [-> | ->].
  - exists EmptyString. now rewrite str_app_nil_r.
  - eexists. reflexivity.
Qed.

Lemma shop_add_product_files (stdin rest : list string) (s s' : ShopSystem.t) :
  ShopSystem.add_product stdin s = Returned (s', rest) ->
  sales_csv (ShopSystem.env s') = sales_csv (ShopSystem.env s)
  /\ (inventory_csv (ShopSystem.env s')
      = Some (Inventory.inventory_text (ShopSystem.products s'))
      \/ (ShopSystem.products s' = ShopSystem.products s
          /\ inventory_csv (ShopSystem.env s')
             = inventory_csv (ShopSystem.env s))).
Proof.
  intros Ha.
  apply add_product_cases in Ha as [(line & ->) | (id & nm & pr & q & Ha)];
    [cbn; auto |].
  unfold Inventory.add_product, Inventory.add_product_call,
    Inventory.save_inventory in Ha.
  destruct (Dict.contains (ShopSystem.products s) id);
    [| destruct (snd (Inventory.written _))];
    injection Ha as -> ->; cbn; auto.
Qed.

(** X3. While the menu runs, the inventory file holds the products in
    memory: after the start they are those loaded from it, and every
    product added and every sale processed leaves the file written from
    the products. *)
Theorem menu_keeps_inventory_in_sync
    (tabulate : list (list cell) -> headers -> string)
    (w : world) (fuel : nat) (stdin rest : list string) (s' : ShopSystem.t) :
  menu tabulate fuel stdin (ShopSystem.init w) = Some (Returned (s', rest)) ->
  in_sync s'.
Proof.
  apply (menu_invariant tabulate in_sync).
  - intros s line H. exact H.
  - intros stdin0 s0 s0' rest0 H Ha.
    apply shop_add_product_files in Ha as (_ & [Hw | [Hp Hi]]);
      [now left |].
    unfold in_sync. rewrite Hp, Hi. exact H.
  - intros stdin0 s0 s0' rest0 _ Hp.
    left. now apply process_sale_files in Hp.
  - right. now rewrite init_products, init_inventory_csv.
Qed.

Lemma menu_keeps_inventory_in_sync_witness :
  exists s' rest,
    menu cells_text 20 session (ShopSystem.init empty_world)
      = Some (Returned (s', rest))
    /\ inventory_csv (ShopSystem.env s')
       = Some (Inventory.inventory_text [("p1", with_quantity widget 7)])
    /\ in_sync s'.
Proof.
  eexists _, _. split; [vm_compute; reflexivity |].
  split; [reflexivity |].
  apply (menu_keeps_inventory_in_sync cells_text empty_world 20 session []).
  vm_compute. reflexivity.
Defined.

(** X4. The menu only appends to the sales file: when the menu ends, the
    file is the text it had when the menu began, followed by what the sales
    saved since have appended. *)
Theorem menu_appends_to_ledger
    (tabulate : list (list cell) -> headers -> string)
    (fuel : nat) (stdin rest : list string) (s s' : ShopSystem.t)
    (text : string) :
  sales_csv (ShopSystem.env s) = Some text ->
  menu tabulate fuel stdin s = Some (Returned (s', rest)) ->
  exists suffix, sales_csv (ShopSystem.env s') = Some (text +:+ suffix).
Proof.
  intros Ht.
  apply (menu_invariant tabulate
           (fun s0 => exists suffix,
                sales_csv (ShopSystem.env s0) = Some (text +:+ suffix))).
  - intros s0 line H. exact H.
  - intros stdin0 s0 s0' rest0 [suffix H] Ha.
    apply shop_add_product_files in Ha as [Hs _].
    exists suffix. now rewrite Hs.
  - intros stdin0 s0 s0' rest0 [suffix H] Hp.
    apply process_sale_files in Hp as (_ & more & Hs).
    rewrite H in Hs. exists (suffix +:+ more).
    now rewrite Hs, str_app_assoc.
  - exists EmptyString. now rewrite str_app_nil_r.
Qed.

Lemma menu_appends_to_ledger_witness :
  exists suffix,
    sales_csv (ShopSystem.env session_end)
    = Some (Csv.writerow SalesManager.header +:+ suffix).
Proof.
  apply (menu_appends_to_ledger cells_text 20 session []
           (ShopSystem.init empty_world) session_end
           (Csv.writerow SalesManager.header)).
  - reflexivity.
  - vm_compute. reflexivity.
Defined.

(** ** The end of the menu *)

Lemma collect_consumes (n : nat) :
  forall stdin, (length stdin <= n)%nat ->
  forall s sale s' sale' rest,
    ShopSystem.collect stdin s sale = Returned (s', sale', rest) ->
    (length rest < length stdin)%nat.
Proof.
  induction n as [|n IH]; intros stdin Hlen s sale s' sale' rest.
  - destruct stdin; [discriminate | cbn in Hlen; lia].
  - destruct stdin as [|line tail]; [discriminate |].
    cbn in Hlen. cbn [ShopSystem.collect].
    destruct (String.eqb _ "done").
    + intros [= <- <- <-]. cbn. lia.
    + destruct (Dict.get (ShopSystem.products s) (Text.strip line))
        as [product|].
      * destruct tail as [|answer tail']; [discriminate |]. cbn in Hlen.
        destruct (ShopSystem.sell s sale (Text.strip line) product answer)
          as [[s1 sale1]|e]; [| discriminate].
        intros Hc. apply IH in Hc; [cbn; lia | lia].
      * intros Hc. apply IH in Hc; [cbn; lia | lia].
Qed.

Lemma process_sale_consumes (stdin rest : list string) (s s' : ShopSystem.t) :
  ShopSystem.process_sale stdin s = Returned (s', rest) ->
  (length rest < length stdin)%nat.
Proof.
  intros Hp.
  apply process_sale_cases in Hp
    as (line & tail & s1 & sale & w2 & -> & Hc & _ & _).
  apply (collect_consumes (length tail)) in Hc; [cbn; lia | lia].
Qed.

Lemma add_product_consumes (stdin rest : list string) (s s' : ShopSystem.t) :
  ShopSystem.add_product stdin s = Returned (s', rest) ->
  (length rest < length stdin)%nat.
Proof.
  unfold ShopSystem.add_product.
  destruct stdin as [|l1 [|l2 [|l3 tail]]]; try discriminate.
  destruct (PyFloat.parse (Text.strip l3));
    [| intros [= _ <-]; cbn; lia].
  destruct tail as [|l4 tail']; [discriminate |].
  destruct (PyInt.parse (Text.strip l4));
    [| intros [= _ <-]; cbn; lia].
  destruct (Inventory.add_product_call _ _ _ _ _ _) as [[? ?] [e|]];
    [discriminate |].
  intros [= _ <-]. cbn. lia.
Qed.

Lemma menu_with_fuel (tabulate : list (list cell) -> headers -> string)
    (fuel : nat) :
  forall stdin s,
    (length stdin < fuel)%nat ->
    exists r,
      menu tabulate fuel stdin s = Some r
      /\ forall s' rest,
           r = Returned (s', rest) ->
           last (console (ShopSystem.env s'))
           = Some (Line "Exiting system. Goodbye!")
           /\ (length rest < length stdin)%nat.
Proof.
  induction fuel as [|fuel IH]; intros stdin s Hlen; [lia |].
  cbn [menu].
  set (s0 := fold_left ShopSystem.say menu_text s). clearbody s0.
  assert (Hstop : forall e : exn,
             exists r : outcome (ShopSystem.t * list string),
               Some (Raised e) = Some r
               /\ forall s' rest,
                    r = Returned (s', rest) ->
                    last (console (ShopSystem.env s'))
                    = Some (Line "Exiting system. Goodbye!")
                    /\ (length rest < length stdin)%nat)
    by (intros e; eexists; split; [reflexivity | discriminate]).
  assert (Hnext : forall tail s1,
             (length tail < length stdin)%nat ->
             exists r,
               menu tabulate fuel tail s1 = Some r
               /\ forall s' rest,
                    r = Returned (s', rest) ->
                    last (console (ShopSystem.env s'))
                    = Some (Line "Exiting system. Goodbye!")
                    /\ (length rest < length stdin)%nat).
  { intros tail s1 Htail.
    destruct (IH tail s1 ltac:(lia)) as (r & Hr & Hlast).
    exists r. split; [exact Hr |].
    intros s' rest E. destruct (Hlast s' rest E). split; [assumption | lia]. }
  destruct stdin as [|line tail]; [apply Hstop |].
  cbn [length] in *.
  destruct (String.eqb (Text.strip line) "1"); [apply Hnext; lia |].
  destruct (String.eqb (Text.strip line) "2").
  { destruct (ShopSystem.add_product tail s0) as [[s1 rest1]|e] eqn:Ha;
      [| apply Hstop].
    apply add_product_consumes in Ha. apply Hnext. lia. }
  destruct (String.eqb (Text.strip line) "3").
  { destruct (ShopSystem.process_sale tail s0) as [[s1 rest1]|e] eqn:Hp;
      [| apply Hstop].
    apply process_sale_consumes in Hp. apply Hnext. lia. }
  destruct (String.eqb (Text.strip line) "4").
  { destruct (view_sales tabulate (ShopSystem.env s0)) as [w1|e];
      [apply Hnext; lia | apply Hstop]. }
  destruct (String.eqb (Text.strip line) "5").
  { eexists; split; [reflexivity |]. intros s' rest [= <- <-].
    split; [cbn; apply last_snoc | lia]. }
  apply Hnext. lia.
Qed.

(** X5. The menu ends on every finite input, within one turn for each line
    and one more: it stops on an exception, or it returns, and then the
    operator has chosen 5: the last line printed is the goodbye, and lines
    of the input were read. *)
Theorem menu_ends (tabulate : list (list cell) -> headers -> string)
    (stdin : list string) (s : ShopSystem.t) :
  exists r,
    menu tabulate (S (length stdin)) stdin s = Some r
    /\ forall s' rest,
         r = Returned (s', rest) ->
         last (console (ShopSystem.env s'))
         = Some (Line "Exiting system. Goodbye!")
         /\ (length rest < length stdin)%nat.
Proof. apply menu_with_fuel. lia. Qed.

Lemma menu_ends_witness :
  exists r,
    menu cells_text (S (length session)) session (ShopSystem.init empty_world)
    = Some r
    /\ forall s' rest,
         r = Returned (s', rest) ->
         last (console (ShopSystem.env s'))
         = Some (Line "Exiting system. Goodbye!")
         /\ (length rest < length session)%nat.
Proof. apply (menu_ends cells_text session (ShopSystem.init empty_world)). Defined.

(** ** What a sale records *)

Lemma sold_app (a b : list Sale.item) (k : string) :
  sold (a ++ b) k = sold a k + sold b k.
Proof.
  induction a as [|i a IH]; [reflexivity |].
  cbn [app sold]. rewrite IH. lia.
Qed.

Lemma quantity_at_set_eq (d : Dict.t Product) (k : string) (p : Product) :
  quantity_at (Dict.set d k p) k = quantity p.
Proof. unfold quantity_at. now rewrite get_set_eq. Qed.

Lemma quantity_at_set_ne (d : Dict.t Product) (k k' : string) (p : Product) :
  k' <> k -> quantity_at (Dict.set d k p) k' = quantity_at d k'.
Proof. intros H. unfold quantity_at. now rewrite get_set_ne. Qed.

(** What [sell] keeps: the quantity on hand and the quantity recorded of
    each identifier make the same sum, and the keys are the same. *)
Lemma sell_accounts (s s' : ShopSystem.t) (sale sale' : Sale.t)
    (pid : string) (product : Product) (answer : string) :
  keyed (ShopSystem.products s) ->
  Dict.get (ShopSystem.products s) pid = Some product ->
  ShopSystem.sell s sale pid product answer = Returned (s', sale') ->
  keyed (ShopSystem.products s')
  /\ Dict.keys (ShopSystem.products s') = Dict.keys (ShopSystem.products s)
  /\ forall k,
       quantity_at (ShopSystem.products s') k + sold (Sale.items sale') k
       = quantity_at (ShopSystem.products s) k + sold (Sale.items sale) k.
Proof.
  intros Hk Hget Hsell.
  pose proof (keyed_get _ _ _ Hk Hget) as Hid.
  apply sell_cases in Hsell
    as [(line & -> & ->) | (q & total & _ & _ & -> & ->)]; [auto |].
  cbn. split; [apply keyed_set; [exact Hk | now cbn] |].
  split; [eapply keys_set_present; eassumption |].
  intros k. rewrite sold_app. cbn [sold Sale.item_product_id Sale.item_quantity].
  rewrite Hid.
  destruct (String.eqb_spec pid k) as [<- | Hne].
  - rewrite quantity_at_set_eq. unfold quantity_at. rewrite Hget. cbn. lia.
  - rewrite quantity_at_set_ne by congruence. lia.
Qed.

(** X6. The items collected for a sale account for the stock: for every
    identifier, the quantity on hand after the collection is the quantity
    on hand before it minus the quantities of the items recorded for that
    identifier; no product is added or removed. *)
Theorem collected_items_account_for_stock
    (stdin rest : list string) (s s' : ShopSystem.t)
    (id : string) (sale : Sale.t) :
  keyed (ShopSystem.products s) ->
  ShopSystem.collect stdin s (Sale.new id) = Returned (s', sale, rest) ->
  Dict.keys (ShopSystem.products s') = Dict.keys (ShopSystem.products s)
  /\ forall k,
       quantity_at (ShopSystem.products s') k
       = quantity_at (ShopSystem.products s) k - sold (Sale.items sale) k.
Proof.
  intros Hk Hc.
  assert (H : keyed (ShopSystem.products s')
              /\ Dict.keys (ShopSystem.products s')
                 = Dict.keys (ShopSystem.products s)
              /\ forall k,
                   quantity_at (ShopSystem.products s') k
                   + sold (Sale.items sale) k
                   = quantity_at (ShopSystem.products s) k
                     + sold (Sale.items (Sale.new id)) k).
  { apply (collect_invariant
             (fun s1 sale1 =>
                keyed (ShopSystem.products s1)
                /\ Dict.keys (ShopSystem.products s1)
                   = Dict.keys (ShopSystem.products s)
                /\ forall k,
                     quantity_at (ShopSystem.products s1) k
                     + sold (Sale.items sale1) k
                     = quantity_at (ShopSystem.products s) k
                       + sold (Sale.items (Sale.new id)) k))
      with (stdin := stdin) (s := s) (sale := Sale.new id) (rest := rest);
      [ | | auto | exact Hc].
    - intros s1 sale1 line H. exact H.
    - intros s1 sale1 pid product answer s2 sale2 (Hk1 & Hkeys & Hsum) Hget Hs.
      destruct (sell_accounts _ _ _ _ _ _ _ Hk1 Hget Hs) as (Hk2 & Hkeys2 & Hsum2).
      split; [exact Hk2 |]. split; [congruence |].
      intros k. now rewrite Hsum2. }
  destruct H as (_ & Hkeys & Hsum). split; [exact Hkeys |].
  intros k. specialize (Hsum k). cbn in Hsum. lia.
Qed.

Lemma collected_items_account_for_stock_witness :
  exists s' sale,
    ShopSystem.collect ["p1"; "3"; "p1"; "-1"; "p1"; "9"; "done"]
      {| ShopSystem.products := [("p1", widget)];
         ShopSystem.env := empty_world |} (Sale.new "S1")
    = Returned (s', sale, [])
    /\ sold (Sale.items sale) "p1" = 2
    /\ Dict.keys (ShopSystem.products s') = ["p1"]
    /\ forall k,
         quantity_at (ShopSystem.products s') k
         = quantity_at [("p1", widget)] k - sold (Sale.items sale) k.
Proof.
  eexists _, _. split; [vm_compute; reflexivity |].
  split; [reflexivity |].
  apply (collected_items_account_for_stock
           ["p1"; "3"; "p1"; "-1"; "p1"; "9"; "done"] []
           {| ShopSystem.products := [("p1", widget)];
              ShopSystem.env := empty_world |}) with (id := "S1").
  - repeat constructor.
  - vm_compute. reflexivity.
Defined.

Lemma item_agrees_set (d : Dict.t Product) (pid : string)
    (product : Product) (q : Z) (i : Sale.item) :
  Dict.get d pid = Some product ->
  item_agrees d i ->
  item_agrees (Dict.set d pid (with_quantity product q)) i.
Proof.
  intros Hget (p & Hp & Hname & Htotal).
  destruct (String.eqb_spec (Sale.item_product_id i) pid) as [E | Hne].
  - rewrite E in Hp. assert (p = product) by congruence. subst p.
    exists (with_quantity product q). rewrite E, get_set_eq. auto.
  - exists p. rewrite get_set_ne by exact Hne. auto.
Qed.

(** X7. Every item collected for a sale agrees with the inventory: a
    product is on hand under the identifier of the item, the item has the
    name of that product, and its total is the price of that product times
    the quantity of the item. *)
Theorem collected_items_agree_with_inventory
    (stdin rest : list string) (s s' : ShopSystem.t)
    (id : string) (sale : Sale.t) :
  keyed (ShopSystem.products s) ->
  ShopSystem.collect stdin s (Sale.new id) = Returned (s', sale, rest) ->
  Sale.sale_id sale = id
  /\ Forall (item_agrees (ShopSystem.products s')) (Sale.items sale).
Proof.
  intros Hk Hc.
  assert (H : keyed (ShopSystem.products s')
              /\ Sale.sale_id sale = id
              /\ Forall (item_agrees (ShopSystem.products s'))
                   (Sale.items sale)).
  { apply (collect_invariant
             (fun s1 sale1 =>
                keyed (ShopSystem.products s1)
                /\ Sale.sale_id sale1 = id
                /\ Forall (item_agrees (ShopSystem.products s1))
                     (Sale.items sale1)))
      with (stdin := stdin) (s := s) (sale := Sale.new id) (rest := rest);
      [ | | auto | exact Hc].
    - intros s1 sale1 line H. exact H.
    - intros s1 sale1 pid product answer s2 sale2 (Hk1 & Hid & Hitems) Hget Hs.
      pose proof (keyed_get _ _ _ Hk1 Hget) as Hpid.
      apply sell_cases in Hs
        as [(line & -> & ->) | (q & total & _ & Hmul & -> & ->)]; [auto |].
      cbn. split; [apply keyed_set; [exact Hk1 | now cbn] |].
      split; [exact Hid |].
      apply Forall_app. split.
      + eapply Forall_impl; [exact Hitems |].
        intros i Hi. now apply item_agrees_set.
      + constructor; [| constructor].
        exists (with_quantity product (quantity product - q)).
        cbn. rewrite Hpid, get_set_eq. auto. }
  destruct H as (_ & Hid & Hitems). auto.
Qed.

Lemma collected_items_agree_with_inventory_witness :
  exists s' sale,
    ShopSystem.collect ["p1"; "3"; "p1"; "-1"; "done"]
      {| ShopSystem.products := [("p1", widget)];
         ShopSystem.env := empty_world |} (Sale.new "S1")
    = Returned (s', sale, [])
    /\ length (Sale.items sale) = 2%nat
    /\ Sale.sale_id sale = "S1"
    /\ Forall (item_agrees (ShopSystem.products s')) (Sale.items sale).
Proof.
  eexists _, _. split; [vm_compute; reflexivity |].
  split; [reflexivity |].
  apply (collected_items_agree_with_inventory
           ["p1"; "3"; "p1"; "-1"; "done"] []
           {| ShopSystem.products := [("p1", widget)];
              ShopSystem.env := empty_world |}).
  - repeat constructor.
  - vm_compute. reflexivity.
Defined.

(** ** Adding a product and seeing it *)

Lemma contains_get {V : Type} (d : Dict.t V) (k : string) :
  Dict.contains d k = false <-> Dict.get d k = None.
Proof.
  unfold Dict.contains. destruct (Dict.get d k); split; congruence.
Qed.

(** X8. A product added under a new identifier is the last entry of the
    inventory: it is found under its identifier with the name, price and
    quantity given, the other identifiers keep their products, the
    inventory file is written from the new inventory and the sales file is
    left alone.  A second product under the same identifier is then
    rejected.  When every quantity of the new inventory has a text, no
    exception leaves the call and the file holds the row of each
    product. *)
Theorem add_product_new_identifier
    (products : Dict.t Product) (w : world)
    (id nm : string) (pr : float) (q : Z) :
  Dict.contains products id = false ->
  let added := {| product_id := id; name := nm; price := pr; quantity := q |} in
  let (products', w') := Inventory.add_product products w id nm pr q in
  products' = (products ++ [(id, added)])%list
  /\ Dict.get products' id = Some added
  /\ (forall k, k <> id -> Dict.get products' k = Dict.get products k)
  /\ inventory_csv w' = Some (Inventory.inventory_text products')
  /\ sales_csv w' = sales_csv w
  /\ (forall nm2 pr2 q2,
        fst (Inventory.add_product products' w' id nm2 pr2 q2) = products')
  /\ (printable products' ->
      snd (Inventory.add_product_call products w id nm pr q) = None
      /\ inventory_csv w'
         = Some (Csv.writerows
                   (Inventory.header ::
                    map product_fields (Dict.values products')))).
Proof.
  intros Hnew added.
  unfold Inventory.add_product at 1.
  unfold Inventory.add_product_call, Inventory.save_inventory.
  rewrite Hnew.
  assert (Hrest :
    Dict.set products id added = (products ++ [(id, added)])%list
    /\ Dict.get (Dict.set products id added) id = Some added
    /\ (forall k, k <> id ->
          Dict.get (Dict.set products id added) k = Dict.get products k)
    /\ (forall w' nm2 pr2 q2,
          fst (Inventory.add_product (Dict.set products id added) w' id
                 nm2 pr2 q2)
          = Dict.set products id added)).
  { split; [apply set_absent; now apply contains_get |].
    split; [apply get_set_eq |].
    split; [intros k Hk; now apply get_set_ne |].
    intros w' nm2 pr2 q2. rewrite add_product_present; [reflexivity |].
    unfold Dict.contains. now rewrite get_set_eq. }
  destruct Hrest as (H1 & H2 & H3 & H4).
  fold added.
  destruct (snd (Inventory.written (Dict.set products id added))) eqn:Hw;
    cbn [fst snd];
    (split; [exact H1 |]); (split; [exact H2 |]); (split; [exact H3 |]);
    (split; [reflexivity |]); (split; [reflexivity |]);
    (split; [apply H4 |]); intros Hp;
    pose proof (written_printable _ Hp) as Hall.
  - split; [reflexivity |]. cbn. unfold Inventory.inventory_text.
    now rewrite Hall.
  - rewrite Hall in Hw. discriminate Hw.
Qed.

Lemma add_product_new_identifier_witness :
  let (products', w') :=
    Inventory.add_product [("p1", widget)] empty_world "p2" "Nut, 5 mm"
      0.5%float 0 in
  products' = ([("p1", widget)] ++ [("p2", nut)])%list
  /\ Dict.get products' "p2" = Some nut
  /\ (forall k, k <> "p2" -> Dict.get products' k = Dict.get [("p1", widget)] k)
  /\ inventory_csv w' = Some (Inventory.inventory_text products')
  /\ sales_csv w' = sales_csv empty_world
  /\ (forall nm2 pr2 q2,
        fst (Inventory.add_product products' w' "p2" nm2 pr2 q2) = products')
  /\ (printable products' ->
      snd (Inventory.add_product_call [("p1", widget)] empty_world "p2"
             "Nut, 5 mm" 0.5%float 0) = None
      /\ inventory_csv w'
         = Some (Csv.writerows
                   (Inventory.header ::
                    map product_fields (Dict.values products')))).
Proof.
  apply (add_product_new_identifier [("p1", widget)] empty_world
           "p2" "Nut, 5 mm" 0.5%float 0).
  reflexivity.
Defined.

Lemma inventory_table_app (a b : Dict.t Product) :
  inventory_table (a ++ b)%list
  = (inventory_table a ++ inventory_table b)%list.
Proof.
  unfold inventory_table, Dict.values. now rewrite !map_app.
Qed.

(** X9. After a product is added under a new identifier, the inventory
    report is the table of the products there were, followed by a row with
    the identifier, the name, the price and the quantity given. *)
Theorem added_product_is_in_the_report
    (tabulate : list (list cell) -> headers -> string)
    (products : Dict.t Product) (w : world)
    (id nm : string) (pr : float) (q : Z) :
  Dict.contains products id = false ->
  let (products', w') := Inventory.add_product products w id nm pr q in
  console (view_inventory tabulate products' w')
  = (console w' ++
     [Line (tabulate
              (inventory_table products ++
               [[Str id; Str nm; Float pr; Int q]])
              (Headers ["Product ID"; "Name"; "Price"; "Stock"]))])%list.
Proof.
  intros Hnew.
  unfold Inventory.add_product, Inventory.add_product_call,
    Inventory.save_inventory.
  rewrite Hnew.
  rewrite set_absent by now apply contains_get.
  destruct (snd (Inventory.written _)); cbn [fst];
    unfold view_inventory; rewrite inventory_table_app;
    destruct products; reflexivity.
Qed.

Lemma added_product_is_in_the_report_witness :
  let (products', w') :=
    Inventory.add_product [("p1", widget)] empty_world "p2" "Nut, 5 mm"
      0.5%float 0 in
  console (view_inventory cells_text products' w')
  = (console w' ++
     [Line (cells_text
              (inventory_table [("p1", widget)] ++
               [[Str "p2"; Str "Nut, 5 mm"; Float 0.5%float; Int 0]])
              (Headers ["Product ID"; "Name"; "Price"; "Stock"]))])%list.
Proof.
  apply (added_product_is_in_the_report cells_text [("p1", widget)]
           empty_world "p2" "Nut, 5 mm" 0.5%float 0).
  reflexivity.
Defined.

(** ** Rows of the same identifier, and the first row *)

Lemma products_of_other (rows : list Csv.row) (k : string) :
  (forall r p, In r rows -> row_product r = Some p -> product_id p <> k) ->
  forall d, Dict.get (products_of rows d) k = Dict.get d k.
Proof.
  induction rows as [|r rows IH]; intros Hrows d; [reflexivity |].
  cbn [products_of].
  assert (Hrest : forall r' p, In r' rows -> row_product r' = Some p ->
                               product_id p <> k)
    by (intros r' p Hin; apply Hrows; now right).
  destruct (row_product r) as [p|] eqn:Hp; [| now apply IH].
  rewrite IH by exact Hrest.
  apply get_set_ne. intros E. apply (Hrows r p); [now left | exact Hp | auto].
Qed.

(** X10. When several rows of the inventory file have the same identifier,
    the last one wins: a file whose rows are all loadable gives, under the
    identifier of a row, the product of that row when no later row has
    that identifier. *)
Theorem load_inventory_last_row_wins
    (text : string) (pre post : list Csv.row) (r : Csv.row) (p : Product) :
  tl (fst (Csv.reader text)) = (pre ++ r :: post)%list ->
  Forall loadable (pre ++ r :: post) ->
  row_product r = Some p ->
  (forall r' p', In r' post -> row_product r' = Some p' ->
                 product_id p' <> product_id p) ->
  Dict.get (fst (Inventory.load_inventory (Some text))) (product_id p) = Some p.
Proof.
  intros Hrows Hall Hp Hpost.
  rewrite load_inventory_all_loadable by now rewrite Hrows.
  cbn [fst]. rewrite Hrows.
  assert (Happ : forall a b d,
             products_of (a ++ b) d = products_of b (products_of a d)).
  { induction a as [|x a IH]; intros b d; [reflexivity |].
    cbn [app products_of]. destruct (row_product x); apply IH. }
  rewrite Happ. cbn [products_of]. rewrite Hp.
  rewrite products_of_other by exact Hpost. apply get_set_eq.
Qed.

Lemma load_inventory_last_row_wins_witness :
  Dict.get (fst (Inventory.load_inventory (Some repeated_inventory))) "p1"
  = Some widget.
Proof.
  apply (load_inventory_last_row_wins repeated_inventory
           [["p1"; "Old"; "1.0"; "1"]; ["p2"; "Nut, 5 mm"; "0.5"; "0"]] []
           ["p1"; "Widget"; "9.99"; "10"] widget).
  - vm_compute. reflexivity.
  - constructor; [right; vm_compute; discriminate |].
    constructor; [right; vm_compute; discriminate |].
    constructor; [right; vm_compute; discriminate | constructor].
  - vm_compute. reflexivity.
  - intros r' p' [].
Defined.

(** X11. The first row of the inventory file is skipped without a look at
    it: two files written with the same rows after different first rows
    load the same products, so a file without its header loses its first
    product. *)
Theorem load_inventory_skips_first_row
    (h h' : Csv.row) (rows : list Csv.row) :
  rows_ok (h :: rows) ->
  rows_ok (h' :: rows) ->
  Inventory.load_inventory (Some (Csv.writerows (h :: rows)))
  = Inventory.load_inventory (Some (Csv.writerows (h' :: rows)))
  /\ fst (Inventory.load_inventory (Some (Csv.writerows (h :: rows))))
     = fst (Inventory.load_rows rows Dict.empty).
Proof.
  intros H H'. rewrite !load_inventory_of_rows by assumption.
  split; [reflexivity |].
  now destruct (Inventory.load_rows rows Dict.empty) as [d [e|]].
Qed.

Lemma load_inventory_skips_first_row_witness :
  Inventory.load_inventory
    (Some (Csv.writerows [["p1"; "Widget"; "9.99"; "10"];
                          ["p2"; "Nut, 5 mm"; "0.5"; "0"]]))
  = Inventory.load_inventory
      (Some (Csv.writerows [Inventory.header;
                            ["p2"; "Nut, 5 mm"; "0.5"; "0"]]))
  /\ fst (Inventory.load_inventory
            (Some (Csv.writerows [["p1"; "Widget"; "9.99"; "10"];
                                  ["p2"; "Nut, 5 mm"; "0.5"; "0"]])))
     = fst (Inventory.load_rows [["p2"; "Nut, 5 mm"; "0.5"; "0"]] Dict.empty).
Proof.
  apply (load_inventory_skips_first_row
           ["p1"; "Widget"; "9.99"; "10"] Inventory.header
           [["p2"; "Nut, 5 mm"; "0.5"; "0"]]);
    repeat constructor; vm_compute; congruence.
Defined.

(** ** The identifiers of the ledger *)

Lemma sale_ids_spec (rows : list Csv.row) (x : string) :
  x ∈ SalesManager.sale_ids rows <-> exists fields, In (x :: fields) rows.
Proof.
  induction rows as [|[|id fields] rows IH]; cbn [SalesManager.sale_ids].
  - split; [intros H; now apply not_elem_of_empty in H | intros [f []]].
  - rewrite IH. split; intros [f Hf]; exists f; [now right |].
    destruct Hf as [E | Hf]; [discriminate | exact Hf].
  - rewrite elem_of_union, elem_of_singleton, IH. split.
    + intros [-> | [f Hf]]; [exists fields; now left | exists f; now right].
    + intros [f [E | Hf]]; [left; congruence | right; eauto].
Qed.


Lemma sale_ids_app (a b : list Csv.row) :
  SalesManager.sale_ids (a ++ b)
  = SalesManager.sale_ids a ∪ SalesManager.sale_ids b.
Proof.
  apply set_eq. intros x. rewrite elem_of_union, !sale_ids_spec. split.
  - intros [f Hf]. apply in_app_or in Hf as [Hf | Hf]; eauto.
  - intros [[f Hf] | [f Hf]]; exists f; apply in_or_app; auto.
Qed.

Lemma sale_ids_items (id : string) (items : list Sale.item) :
  items <> [] ->
  SalesManager.sale_ids (map (item_fields id) items) = {[ id ]}.
Proof.
  intros Hne. apply set_eq. intros x.
  rewrite sale_ids_spec, elem_of_singleton. split.
  - intros [f Hf]. apply in_map_iff in Hf as (i & E & _).
    unfold item_fields in E. congruence.
  - intros ->. destruct items as [|i items]; [congruence |].
    eexists. left. reflexivity.
Qed.

(** On a file written from rows that are read back as written,
    [get_existing_sales] returns the first fields of the rows after the
    first. *)
Lemma get_existing_sales_of_rows (rows : list Csv.row) :
  rows_ok rows ->
  SalesManager.get_existing_sales (Some (Csv.writerows rows))
  = Returned (SalesManager.sale_ids (tl rows)).
Proof.
  intros Hok. cbn [SalesManager.get_existing_sales].
  now rewrite reader_writerows.
Qed.

(** X13. On a sales file written by the program from rows that are read
    back as written, [get_existing_sales] returns the first fields of the
    rows after the header.  A sale with items, saved under an identifier
    that is not among them, adds its rows after those of the file and its
    identifier to those that [get_existing_sales] returns, and nothing
    else; a sale saved under that identifier afterwards is rejected and
    the file is left as it is. *)
Theorem save_sale_registers_identifier
    (w : world) (sale : Sale.t) (h : Csv.row) (rows : list Csv.row) :
  sales_csv w = Some (Csv.writerows (h :: rows)) ->
  rows_ok (h :: rows) ->
  sale_text_ok sale ->
  items_printable sale ->
  Sale.items sale <> [] ->
  Sale.sale_id sale ∉ SalesManager.sale_ids rows ->
  exists w',
    SalesManager.get_existing_sales (sales_csv w)
    = Returned (SalesManager.sale_ids rows)
    /\ SalesManager.save_sale w sale = Returned w'
    /\ sales_csv w'
       = Some (Csv.writerows
                 (h :: rows ++
                  map (item_fields (Sale.sale_id sale)) (Sale.items sale)))
    /\ SalesManager.get_existing_sales (sales_csv w')
       = Returned (SalesManager.sale_ids rows ∪ {[ Sale.sale_id sale ]})
    /\ forall again : Sale.t,
         Sale.sale_id again = Sale.sale_id sale ->
         exists w'',
           SalesManager.save_sale w' again = Returned w''
           /\ sales_csv w'' = sales_csv w'.
Proof.
  intros Hfile Hok Hsale Hp Hitems Hnew.
  assert (Hids : SalesManager.get_existing_sales (sales_csv w)
                 = Returned (SalesManager.sale_ids rows))
    by (rewrite Hfile; now apply get_existing_sales_of_rows).
  rewrite (save_sale_fresh w sale _ Hids Hnew Hp).
  eexists. split; [exact Hids |]. split; [reflexivity |].
  assert (Htext : sales_csv
                    (log (write_sales_csv w
                            (SalesManager.file_text (sales_csv w)
                             +:+ SalesManager.sale_text sale))
                       INFO
                       (Message ("Sale " +:+ Sale.sale_id sale
                                 +:+ " recorded successfully.")))
                  = Some (Csv.writerows
                            (h :: rows ++
                             map (item_fields (Sale.sale_id sale))
                                 (Sale.items sale)))).
  { cbn. rewrite Hfile. cbn [SalesManager.file_text].
    rewrite (sale_text_printable sale Hp).
    now rewrite <- writerows_app. }
  assert (Hok' : rows_ok
                   (h :: rows ++
                    map (item_fields (Sale.sale_id sale)) (Sale.items sale))).
  { unfold rows_ok in *. apply Forall_cons in Hok as [Hh Hrows].
    constructor; [exact Hh |]. apply Forall_app. split; [exact Hrows |].
    now apply item_rows_ok. }
  assert (Hids' : SalesManager.get_existing_sales
                    (Some (Csv.writerows
                             (h :: rows ++
                              map (item_fields (Sale.sale_id sale))
                                  (Sale.items sale))))
                  = Returned
                      (SalesManager.sale_ids rows ∪ {[ Sale.sale_id sale ]})).
  { rewrite get_existing_sales_of_rows by exact Hok'.
    cbn [tl]. now rewrite sale_ids_app, sale_ids_items. }
  split; [exact Htext |]. rewrite Htext. split; [exact Hids' |].
  intros again Hagain.
  rewrite (save_sale_duplicate _ again
             (SalesManager.sale_ids rows ∪ {[ Sale.sale_id sale ]})).
  - eexists. split; [reflexivity |]. cbn. exact Htext.
  - rewrite Htext. exact Hids'.
  - rewrite Hagain. apply elem_of_union_r. now apply elem_of_singleton.
Qed.

Lemma save_sale_registers_identifier_witness :
  exists w',
    SalesManager.get_existing_sales (sales_csv (ShopSystem.env shop_after_S1))
    = Returned (SalesManager.sale_ids [["S1"; "p1"; "Widget"; "3"; "29.97"]])
    /\ SalesManager.save_sale (ShopSystem.env shop_after_S1) sale_S2
       = Returned w'
    /\ sales_csv w'
       = Some (Csv.writerows
                 (SalesManager.header ::
                  [["S1"; "p1"; "Widget"; "3"; "29.97"]] ++
                  map (item_fields "S2") (Sale.items sale_S2)))
    /\ SalesManager.get_existing_sales (sales_csv w')
       = Returned
           (SalesManager.sale_ids [["S1"; "p1"; "Widget"; "3"; "29.97"]]
            ∪ {[ "S2" ]})
    /\ forall again : Sale.t,
         Sale.sale_id again = "S2" ->
         exists w'',
           SalesManager.save_sale w' again = Returned w''
           /\ sales_csv w'' = sales_csv w'.
Proof.
  apply (save_sale_registers_identifier (ShopSystem.env shop_after_S1)
           sale_S2 SalesManager.header
           [["S1"; "p1"; "Widget"; "3"; "29.97"]]).
  - reflexivity.
  - repeat constructor; vm_compute; congruence.
  - repeat constructor; vm_compute; congruence.
  - repeat constructor; vm_compute; congruence.
  - discriminate.
  - vm_compute. intros H. discriminate H.
Defined.

(** X14. On a sales file written by the program, the sales report says
    that no sale is recorded when the file has its first row only, and is
    otherwise the table of all the rows of the file, the first one as the
    headers. *)
Theorem view_sales_shows_the_rows
    (tabulate : list (list cell) -> headers -> string)
    (w : world) (h : Csv.row) (rows : list Csv.row) :
  sales_csv w = Some (Csv.writerows (h :: rows)) ->
  rows_ok (h :: rows) ->
  view_sales tabulate w
  = Returned
      (print w
         (Line match rows with
               | [] => "No sales recorded yet."
               | _ => tabulate (map (map Str) (h :: rows)) FirstRow
               end)).
Proof.
  intros Hfile Hok. unfold view_sales.
  rewrite Hfile, reader_writerows by exact Hok.
  destruct rows; reflexivity.
Qed.

Lemma view_sales_shows_the_rows_witness :
  view_sales cells_text (ShopSystem.env shop_after_S1)
  = Returned
      (print (ShopSystem.env shop_after_S1)
         (Line (cells_text
                  (map (map Str)
                     [SalesManager.header;
                      ["S1"; "p1"; "Widget"; "3"; "29.97"]])
                  FirstRow))).
Proof.
  apply (view_sales_shows_the_rows cells_text (ShopSystem.env shop_after_S1)
           SalesManager.header [["S1"; "p1"; "Widget"; "3"; "29.97"]]).
  - reflexivity.
  - repeat constructor; vm_compute; congruence.
Defined.

(** ** Starting the program *)

(** X15. Starting the program writes nothing in the inventory file and
    creates the sales file, with its header, only when it is missing: an
    existing sales file is kept as it is.  Starting it again loads the same
    products and leaves both files as they are. *)
Theorem start_is_stable (w : world) :
  let s := ShopSystem.init w in
  let s2 := ShopSystem.init (ShopSystem.env s) in
  inventory_csv (ShopSystem.env s) = inventory_csv w
  /\ sales_csv (ShopSystem.env s)
     = Some (match sales_csv w with
             | Some text => text
             | None => Csv.writerow SalesManager.header
             end)
  /\ existing_ids (sales_csv (ShopSystem.env s)) = existing_ids (sales_csv w)
  /\ ShopSystem.products s2 = ShopSystem.products s
  /\ inventory_csv (ShopSystem.env s2) = inventory_csv (ShopSystem.env s)
  /\ sales_csv (ShopSystem.env s2) = sales_csv (ShopSystem.env s).
Proof.
  cbn zeta.
  split; [apply init_inventory_csv |].
  split; [apply init_sales_csv |].
  split; [rewrite init_sales_csv; now destruct (sales_csv w) |].
  split; [now rewrite !init_products, init_inventory_csv |].
  split; [apply init_inventory_csv |].
  now rewrite (init_sales_csv (ShopSystem.env (ShopSystem.init w))),
    init_sales_csv.
Qed.

Lemma forall_entries_set {V : Type} (P : string * V -> Prop)
    (d : Dict.t V) (k : string) (v : V) :
  Forall P d -> P (k, v) -> Forall P (Dict.set d k v).
Proof.
  intros Hd Hv. induction d as [|[k' v'] d IH]; cbn.
  - constructor; [exact Hv | constructor].
  - apply Forall_cons in Hd as [Hhd Htl].
    destruct (String.eqb k k'); constructor; auto.
Qed.

Lemma forall_entries_get {V : Type} (P : string * V -> Prop)
    (d : Dict.t V) (k : string) (v : V) :
  Forall P d -> Dict.get d k = Some v -> P (k, v).
Proof.
  intros Hd. induction d as [|[k' v'] d IH]; cbn; [discriminate |].
  apply Forall_cons in Hd as [Hhd Htl].
  destruct (String.eqb_spec k k') as [-> | Hne]; [| auto].
  now intros [= <-].
Qed.

Lemma writerows_until_ok (rows : list (option Csv.row)) :
  snd (Csv.writerows_until rows) = true -> Forall (fun r => r <> None) rows.
Proof.
  induction rows as [|[r|] rows IH]; cbn [Csv.writerows_until];
    [constructor | | discriminate].
  destruct (Csv.writerows_until rows) as [text ok]. cbn [snd] in *.
  intros H. constructor; [discriminate | auto].
Qed.

(** When the loop of [save_inventory] comes to its end, every quantity has
    a text. *)
Lemma written_ok_printable (d : Dict.t Product) :
  snd (Inventory.written d) = true -> printable d.
Proof.
  unfold Inventory.written. intros H.
  apply writerows_until_ok in H. apply Forall_cons in H as [_ H].
  unfold printable, Dict.values in *.
  induction d as [|[k p] d IH]; [constructor |].
  cbn [map snd] in H. apply Forall_cons in H as [Hp H].
  constructor; [| now apply IH].
  cbn [snd]. unfold Inventory.product_row in Hp.
  now destruct (PyInt.str (quantity p)).
Qed.

Lemma process_sale_printable (stdin rest : list string) (s s' : ShopSystem.t) :
  ShopSystem.process_sale stdin s = Returned (s', rest) ->
  printable (ShopSystem.products s').
Proof.
  unfold ShopSystem.process_sale.
  destruct stdin as [|line tail]; [discriminate |].
  destruct (ShopSystem.collect tail s _) as [[[s1 sale] rest1]|e];
    [| discriminate].
  unfold ShopSystem.finish_sale, Inventory.save_inventory.
  destruct (snd (Inventory.written (ShopSystem.products s1))) eqn:Hw;
    [| discriminate].
  destruct (SalesManager.save_sale _ sale) as [w2|e]; [| discriminate].
  intros [= <- _]. cbn. now apply written_ok_printable.
Qed.

(** X16. After a sale is processed, the program started again has the
    products that were in memory, with their quantities as the sale left
    them, when the identifiers, the names and the prices are read back as
    they are written: they hold no carriage return, their texts are
    within the limit of [csv] on the size of a field, and each price is
    read back from its own text. *)
Theorem restart_after_sale
    (stdin rest : list string) (s s' : ShopSystem.t) :
  well_keyed (ShopSystem.products s) ->
  Forall (fun e => fields_ok (snd e)) (ShopSystem.products s) ->
  ShopSystem.process_sale stdin s = Returned (s', rest) ->
  ShopSystem.products (ShopSystem.init (ShopSystem.env s'))
  = ShopSystem.products s'.
Proof.
  intros Hwk Hok Hp.
  pose proof (process_sale_well_keyed _ _ _ _ Hwk Hp) as Hwk'.
  pose proof (process_sale_files _ _ _ _ Hp) as [Hfile _].
  pose proof (process_sale_printable _ _ _ _ Hp) as Hprint.
  assert (Hok' : Forall (fun e => fields_ok (snd e)) (ShopSystem.products s')).
  { apply process_sale_cases in Hp
      as (line & tail & s1 & sale & w2 & -> & Hc & _ & ->).
    cbn.
    apply (collect_invariant
             (fun s0 _ => Forall (fun e => fields_ok (snd e))
                            (ShopSystem.products s0)))
      with (stdin := tail) (s := s) (sale := Sale.new (Text.strip line))
           (sale' := sale) (rest := rest); auto.
    intros s0 sale0 pid product answer s0' sale0' H0 Hget Hs.
    apply sell_cases in Hs
      as [(l & -> & _) | (q & total & _ & _ & -> & _)]; [exact H0 |].
    cbn. apply forall_entries_set; [exact H0 |].
    exact (forall_entries_get _ _ _ _ H0 Hget). }
  rewrite init_products, Hfile.
  rewrite load_saved_inventory; [reflexivity | exact Hwk' |].
  unfold printable in Hprint.
  clear - Hok' Hprint.
  induction Hok' as [|e d (Hid & Hname & Hprice & Hlim) _ IH];
    [constructor |].
  apply Forall_cons in Hprint as [Hq Hprint].
  constructor; [| now apply IH].
  repeat split; auto; apply Hid || apply Hname.
Qed.

Lemma restart_after_sale_witness :
  exists s',
    ShopSystem.process_sale ["S2"; "p1"; "3"; "done"] shop_after_S1
      = Returned (s', [])
    /\ ShopSystem.products s' = [("p1", with_quantity widget 7)]
    /\ ShopSystem.products (ShopSystem.init (ShopSystem.env s'))
       = ShopSystem.products s'.
Proof.
  eexists. split; [vm_compute; reflexivity |].
  split; [reflexivity |].
  apply (restart_after_sale ["S2"; "p1"; "3"; "done"] [] shop_after_S1).
  - split; [apply (bool_decide_unpack _); vm_compute; reflexivity
           | repeat constructor].
  - repeat constructor; vm_compute; congruence.
  - vm_compute. reflexivity.
Defined.

(** ** A sale under a new identifier *)

(** The quantities that [sell] records were read by [int]: they have a
    text. *)
Lemma sell_items_printable (s s' : ShopSystem.t) (sale sale' : Sale.t)
    (pid : string) (product : Product) (answer : string) :
  items_printable sale ->
  ShopSystem.sell s sale pid product answer = Returned (s', sale') ->
  items_printable sale'.
Proof.
  intros Hp. unfold ShopSystem.sell.
  destruct (PyInt.parse (Text.strip answer)) as [q|] eqn:Hq;
    [| now intros [= _ <-]].
  destruct (q >? quantity product); [now intros [= _ <-] |].
  unfold Sale.add_item.
  destruct (PyFloat.mul_int (price product) q); [| discriminate].
  intros [= _ <-]. unfold items_printable. cbn [Sale.items].
  apply Forall_app. split; [exact Hp |].
  constructor; [| constructor]. cbn. now apply parse_printable in Hq.
Qed.

Lemma collect_items_printable (stdin rest : list string)
    (s s' : ShopSystem.t) (id : string) (sale : Sale.t) :
  ShopSystem.collect stdin s (Sale.new id) = Returned (s', sale, rest) ->
  items_printable sale.
Proof.
  intros Hc.
  apply (collect_invariant (fun _ sale0 => items_printable sale0))
    with (stdin := stdin) (s := s) (sale := Sale.new id) (s' := s')
         (rest := rest); [auto | | constructor | exact Hc].
  intros s0 sale0 pid product answer s1 sale1 H0 _.
  now apply sell_items_printable.
Qed.

(** X18. A sale processed under an identifier that is not among those
    that [get_existing_sales] returns, when every quantity on hand has a
    text, is recorded: the inventory file holds the row of each of the
    products that the collection of the items left, the rows of the items
    collected are appended to the sales file, and the success is logged. *)
Theorem process_sale_records_new_sale
    (s s1 : ShopSystem.t) (line : string) (stdin rest : list string)
    (sale : Sale.t) (ids : gset string) :
  ShopSystem.collect stdin s (Sale.new (Text.strip line))
    = Returned (s1, sale, rest) ->
  SalesManager.get_existing_sales (sales_csv (ShopSystem.env s))
  = Returned ids ->
  Text.strip line ∉ ids ->
  printable (ShopSystem.products s1) ->
  exists s2,
    ShopSystem.process_sale (line :: stdin) s = Returned (s2, rest)
    /\ ShopSystem.products s2 = ShopSystem.products s1
    /\ inventory_csv (ShopSystem.env s2)
       = Some (Csv.writerows
                 (Inventory.header ::
                  map product_fields (Dict.values (ShopSystem.products s1))))
    /\ sales_csv (ShopSystem.env s2)
       = Some (SalesManager.file_text (sales_csv (ShopSystem.env s))
               +:+ Csv.writerows
                     (map (item_fields (Text.strip line)) (Sale.items sale)))
    /\ shop_log (ShopSystem.env s2)
       = (shop_log (ShopSystem.env s) ++
          [(INFO, Message ("Sale " +:+ Text.strip line
                           +:+ " recorded successfully."))])%list.
Proof.
  intros Hc Hids Hnew Hp.
  pose proof (collect_items_printable _ _ _ _ _ _ Hc) as Hitems.
  unfold ShopSystem.process_sale. rewrite Hc.
  destruct (collect_keeps_files _ _ _ _ _ _ Hc) as (_ & Hsales & Hlog & Hid).
  cbn in Hid. unfold ShopSystem.finish_sale.
  rewrite save_inventory_printable by exact Hp.
  rewrite (save_sale_fresh _ sale ids)
    by (cbn; rewrite ?Hid, ?Hsales; assumption).
  eexists. split; [reflexivity |]. cbn.
  rewrite (sale_text_printable sale Hitems), Hid, Hsales, Hlog.
  unfold Inventory.inventory_text. rewrite (written_printable _ Hp). auto.
Qed.

Lemma process_sale_records_new_sale_witness :
  exists s2,
    ShopSystem.process_sale ["S2"; "p1"; "3"; "done"] shop_after_S1
      = Returned (s2, [])
    /\ ShopSystem.products s2 = [("p1", with_quantity widget 7)]
    /\ inventory_csv (ShopSystem.env s2)
       = Some (Csv.writerows
                 (Inventory.header ::
                  map product_fields
                    (Dict.values [("p1", with_quantity widget 7)])))
    /\ sales_csv (ShopSystem.env s2)
       = Some (SalesManager.file_text
                 (sales_csv (ShopSystem.env shop_after_S1))
               +:+ Csv.writerows
                     (map (item_fields (Text.strip "S2"))
                          (Sale.items sale_S2)))
    /\ shop_log (ShopSystem.env s2)
       = (shop_log (ShopSystem.env shop_after_S1) ++
          [(INFO, Message ("Sale " +:+ Text.strip "S2"
                           +:+ " recorded successfully."))])%list.
Proof.
  apply (process_sale_records_new_sale
           shop_after_S1
           (ShopSystem.say
              {| ShopSystem.products := [("p1", with_quantity widget 7)];
                 ShopSystem.env := ShopSystem.env shop_after_S1 |}
              (AddedToSale 3 "Widget" 0x1.df851eb851eb8p+4%float))
           "S2" ["p1"; "3"; "done"] []
           {| Sale.sale_id := "S2"; Sale.items := Sale.items sale_S2 |}
           (existing_ids (sales_csv (ShopSystem.env shop_after_S1)))).
  - vm_compute. reflexivity.
  - vm_compute. reflexivity.
  - vm_compute. intros H. discriminate H.
  - repeat constructor; vm_compute; congruence.
Defined.

(** ** A sales file that is missing *)

(** X19. When the sales file is missing, [save_sale] creates it with the
    rows of the sale and no header.  The first of these rows is then taken
    for the header: [get_existing_sales] does not return the identifier of
    a sale of one item afterwards, and returns that of a sale of several
    items.  The fields of the sale are read back as written, and the
    quantities of its items have a text. *)
Theorem save_sale_without_file (w : world) (sale : Sale.t) :
  sales_csv w = None ->
  sale_text_ok sale ->
  items_printable sale ->
  exists w',
    SalesManager.save_sale w sale = Returned w'
    /\ sales_csv w'
       = Some (Csv.writerows
                 (map (item_fields (Sale.sale_id sale)) (Sale.items sale)))
    /\ SalesManager.get_existing_sales (sales_csv w')
       = Returned match Sale.items sale with
                  | [] | [_] => ∅
                  | _ => {[ Sale.sale_id sale ]}
                  end.
Proof.
  intros Hnone Hok Hp.
  rewrite (save_sale_fresh w sale ∅)
    by (rewrite ?Hnone; (reflexivity || apply not_elem_of_empty || exact Hp)).
  eexists. split; [reflexivity |].
  cbn [sales_csv log write_sales_csv]. rewrite Hnone.
  cbn [SalesManager.file_text]. rewrite str_app_nil_l.
  rewrite (sale_text_printable sale Hp).
  split; [reflexivity |].
  rewrite get_existing_sales_of_rows by now apply item_rows_ok.
  destruct (Sale.items sale) as [|i [|j items]]; [reflexivity | reflexivity |].
  cbn [map tl]. f_equal.
  now apply (sale_ids_items (Sale.sale_id sale) (j :: items)).
Qed.

Lemma save_sale_without_file_witness :
  exists w',
    SalesManager.save_sale empty_world sale_S2 = Returned w'
    /\ sales_csv w'
       = Some (Csv.writerows
                 (map (item_fields (Sale.sale_id sale_S2))
                      (Sale.items sale_S2)))
    /\ SalesManager.get_existing_sales (sales_csv w') = Returned ∅.
Proof.
  apply (save_sale_without_file empty_world sale_S2).
  - reflexivity.
  - repeat constructor; vm_compute; congruence.
  - repeat constructor; vm_compute; congruence.
Defined.

(** ** Carriage returns and the identifiers of the ledger *)

Section ReadNoCr.
Import Csv.

Lemma save_field_ok (p : parser) :
  parser_ok p -> parser_ok (parse_save_field p).
Proof.
  intros [Hf Hfs]. split; [split; [reflexivity | discriminate] |].
  cbn. apply Forall_app. split; [exact Hfs | now constructor].
Qed.

Lemma add_char_ok (p p' : parser) (c : ascii) :
  parser_ok p -> c <> CR -> parse_add_char p c = Some p' -> parser_ok p'.
Proof.
  intros [[Hf Hlim] Hfs] Hc. unfold parse_add_char.
  destruct (Z.ltb_spec (Z.of_nat (String.length (field p))) field_limit)
    as [Hlt|]; [| discriminate].
  intros [= <-]. split; [| exact Hfs]. cbn. split.
  - apply has_cr_app. split; [exact Hf |]. now apply has_cr_cons.
  - unfold within_limit. rewrite length_str_app. cbn [String.length]. lia.
Qed.

Lemma set_state_ok (p : parser) (s : state) :
  parser_ok p -> parser_ok (set_state p s).
Proof. intros [Hf Hfs]. now split. Qed.

Lemma add_char_to_ok (p p' : parser) (c : ascii) (s : state) :
  parser_ok p -> c <> CR -> add_char_to p c s = Some p' -> parser_ok p'.
Proof.
  intros Hp Hc. unfold add_char_to.
  destruct (parse_add_char p c) as [q|] eqn:E; [| discriminate].
  intros [= <-]. apply (add_char_ok p q c Hp Hc) in E as [Hf Hfs].
  now split.
Qed.

Lemma process_keeps_ok (p p' : parser) (i : input) :
  parser_ok p ->
  (forall c, i = Char c -> c <> CR) ->
  parse_process_char p i = Some p' ->
  parser_ok p'.
Proof.
  intros Hp Hc H.
  assert (Hadd : forall c q, i = Char c ->
                             parse_add_char p c = Some q -> parser_ok q)
    by (intros c q E; apply add_char_ok; auto).
  assert (Hto : forall c s q, i = Char c ->
                              add_char_to p c s = Some q -> parser_ok q)
    by (intros c s q E; apply add_char_to_ok; auto).
  assert (Hstart : forall c q, i = Char c ->
                     add_char_to (set_state p START_FIELD) c IN_FIELD = Some q ->
                     parser_ok q).
  { intros c q E. apply add_char_to_ok; [now apply set_state_ok | auto]. }
  unfold parse_process_char, start_field in H.
  destruct (st p), i as [c|];
    repeat match type of H with
           | context [if ?b then _ else _] => destruct b
           end;
    try discriminate;
    try (injection H as <-; auto using save_field_ok, set_state_ok; fail);
    eauto.
Qed.

Lemma at_eof_rows_ok (p : parser) : parser_ok p -> rows_ok (fst (at_eof p)).
Proof.
  intros Hp. unfold at_eof. destruct (_ || _); [| constructor].
  constructor; [| constructor]. now apply save_field_ok.
Qed.

Lemma push_rows_ok (r : row) (rs : records) :
  Forall field_ok r -> rows_ok (fst rs) -> rows_ok (fst (push r rs)).
Proof. intros Hr Hrs. now constructor. Qed.

Lemma feed_rows_ok (s : string) :
  forall p midline,
    has_cr s = false -> parser_ok p -> rows_ok (fst (feed p midline s)).
Proof.
  assert (Hreset : parser_ok parse_reset)
    by (split; [split; [reflexivity | discriminate] | constructor]).
  assert (Heol : forall p (k : parser -> records),
             parser_ok p ->
             (forall q, parser_ok q -> rows_ok (fst (k q))) ->
             rows_ok (fst (end_of_line p k))).
  { intros p k Hp Hk. unfold end_of_line.
    destruct (parse_process_char p EOL) as [p'|] eqn:E; [| constructor].
    assert (Hp' : parser_ok p')
      by (apply (process_keeps_ok p p' EOL Hp); [intros c H; discriminate H | exact E]).
    destruct (is_start_record (st p')); [| now apply Hk].
    apply push_rows_ok; [apply Hp' | now apply Hk]. }
  induction s as [|c r IH]; intros p midline Hs Hp.
  - cbn [feed]. destruct midline; [| now apply at_eof_rows_ok].
    apply Heol; [exact Hp | apply at_eof_rows_ok].
  - apply has_cr_cons in Hs as [Hc Hr]. cbn [feed].
    destruct (parse_process_char p (Char c)) as [p'|] eqn:E; [| constructor].
    assert (Hp' : parser_ok p').
    { apply (process_keeps_ok p p' (Char c) Hp); [| exact E].
      now intros c0 [= <-]. }
    destruct (Ascii.eqb c LF); [| now apply IH].
    apply Heol; [exact Hp' |]. intros q Hq. now apply IH.
Qed.

(** No field read from a file in text mode holds a carriage return, and
    none is over the limit on the size of a field. *)
Lemma reader_rows_ok (text : string) : rows_ok (fst (reader text)).
Proof.
  unfold reader. apply feed_rows_ok.
  - apply universal_newlines_no_cr.
  - split; [split; [reflexivity | discriminate] | constructor].
Qed.

End ReadNoCr.

Lemma existing_ids_no_cr (file : option string) (x : string) :
  x ∈ existing_ids file -> has_cr x = false.
Proof.
  destruct file as [text|]; cbn [existing_ids];
    [| intros H; now apply not_elem_of_empty in H].
  intros H. apply sale_ids_spec in H as [fields Hin].
  pose proof (reader_rows_ok text) as Hok. unfold rows_ok in Hok.
  destruct (fst (Csv.reader text)) as [|h rows]; [destruct Hin |].
  apply Forall_cons in Hok as [_ Hrows]. cbn in Hin.
  rewrite Forall_forall in Hrows.
  apply list_elem_of_In in Hin. specialize (Hrows _ Hin).
  now apply Forall_cons in Hrows as [[Hx _] _].
Qed.

(** X20. An identifier that holds a carriage return is never among those
    that [get_existing_sales] returns, whatever the sales file holds: when
    the quantities of its items have a text, a sale under such an
    identifier is not rejected, and saving it twice appends its rows
    twice. *)
Theorem save_sale_with_carriage_return
    (w : world) (sale : Sale.t) (ids : gset string) :
  has_cr (Sale.sale_id sale) = true ->
  SalesManager.get_existing_sales (sales_csv w) = Returned ids ->
  items_printable sale ->
  (Sale.sale_id sale ∉ ids)
  /\ exists w',
       SalesManager.save_sale w sale = Returned w'
       /\ sales_csv w'
          = Some (SalesManager.file_text (sales_csv w)
                  +:+ SalesManager.sale_text sale)
       /\ forall ids',
            SalesManager.get_existing_sales (sales_csv w') = Returned ids' ->
            exists w'',
              SalesManager.save_sale w' sale = Returned w''
              /\ sales_csv w''
                 = Some (SalesManager.file_text (sales_csv w)
                         +:+ SalesManager.sale_text sale
                         +:+ SalesManager.sale_text sale).
Proof.
  intros Hcr Hids Hp.
  assert (Hnew : forall file found,
             SalesManager.get_existing_sales file = Returned found ->
             Sale.sale_id sale ∉ found).
  { intros file found Hfound Hin.
    apply get_existing_sales_ids in Hfound. subst found.
    apply existing_ids_no_cr in Hin. congruence. }
  split; [exact (Hnew _ _ Hids) |].
  rewrite (save_sale_fresh w sale ids Hids (Hnew _ _ Hids) Hp).
  eexists. split; [reflexivity |]. split; [reflexivity |].
  intros ids' Hids'.
  rewrite (save_sale_fresh _ sale ids' Hids' (Hnew _ _ Hids') Hp).
  eexists. split; [reflexivity |]. cbn. now rewrite str_app_assoc.
Qed.

Lemma save_sale_with_carriage_return_witness :
  (Sale.sale_id sale_two_lines
     ∉ existing_ids (sales_csv (ShopSystem.env shop_after_S1)))
  /\ exists w',
       SalesManager.save_sale (ShopSystem.env shop_after_S1) sale_two_lines
       = Returned w'
       /\ sales_csv w'
          = Some (SalesManager.file_text
                    (sales_csv (ShopSystem.env shop_after_S1))
                  +:+ SalesManager.sale_text sale_two_lines)
       /\ forall ids',
            SalesManager.get_existing_sales (sales_csv w') = Returned ids' ->
            exists w'',
              SalesManager.save_sale w' sale_two_lines = Returned w''
              /\ sales_csv w''
                 = Some (SalesManager.file_text
                           (sales_csv (ShopSystem.env shop_after_S1))
                         +:+ SalesManager.sale_text sale_two_lines
                         +:+ SalesManager.sale_text sale_two_lines).
Proof.
  apply (save_sale_with_carriage_return (ShopSystem.env shop_after_S1)
           sale_two_lines
           (existing_ids (sales_csv (ShopSystem.env shop_after_S1)))).
  - reflexivity.
  - vm_compute. reflexivity.
  - repeat constructor; vm_compute; congruence.
Defined.

(** ** The limit on the digits of a quantity *)

Lemma load_rows_printable (rows : list Csv.row) :
  forall d, printable d -> printable (fst (Inventory.load_rows rows d)).
Proof.
  induction rows as [|r rows IH]; intros d Hd; [exact Hd |].
  cbn [Inventory.load_rows].
  destruct (length r <? 4)%nat; [now apply IH |].
  destruct r as [|i [|n [|p [|q [|x r]]]]]; try exact Hd.
  destruct (PyFloat.parse p) as [pv|]; [| exact Hd].
  destruct (PyInt.parse q) as [qv|] eqn:Hq; [| exact Hd].
  apply IH. apply forall_entries_set; [exact Hd |].
  cbn. now apply parse_printable in Hq.
Qed.

Lemma init_printable (w : world) :
  printable (ShopSystem.products (ShopSystem.init w)).
Proof.
  rewrite init_products.
  destruct (inventory_csv w) as [text|]; [| constructor].
  unfold Inventory.load_inventory.
  destruct (Csv.reader text) as [rows ok].
  pose proof (load_rows_printable (tl rows) Dict.empty ltac:(constructor))
    as H.
  destruct (Inventory.load_rows (tl rows) Dict.empty) as [d [e|]]; exact H.
Qed.

Lemma shop_add_product_printable (stdin rest : list string)
    (s s' : ShopSystem.t) :
  printable (ShopSystem.products s) ->
  ShopSystem.add_product stdin s = Returned (s', rest) ->
  printable (ShopSystem.products s').
Proof.
  intros Hs. unfold ShopSystem.add_product.
  destruct stdin as [|l1 [|l2 [|l3 tail]]]; try discriminate.
  destruct (PyFloat.parse (Text.strip l3)) as [pr|];
    [| now intros [= <- _]].
  destruct tail as [|l4 tail']; [discriminate |].
  destruct (PyInt.parse (Text.strip l4)) as [q|];
    [| now intros [= <- _]].
  unfold Inventory.add_product_call, Inventory.save_inventory.
  destruct (Dict.contains _ _); [now intros [= <- _] |].
  destruct (snd (Inventory.written _)) eqn:Hw; [| discriminate].
  intros [= <- _]. cbn. now apply written_ok_printable.
Qed.

(** X21. From the start of the program to the end of the menu, every
    quantity on hand has a text: [int] gives the quantities that are
    loaded and typed at most as many digits as [str] accepts, and a save
    of the inventory that returns has written them all.  The inventory
    report is then never given a quantity that [str] refuses, and a save
    of the inventory then writes the row of each product. *)
Theorem menu_keeps_quantities_printable
    (tabulate : list (list cell) -> headers -> string)
    (w : world) (fuel : nat) (stdin rest : list string) (s' : ShopSystem.t) :
  menu tabulate fuel stdin (ShopSystem.init w) = Some (Returned (s', rest)) ->
  printable (ShopSystem.products s')
  /\ forall w', Inventory.save_inventory (ShopSystem.products s') w'
                = (write_inventory_csv w'
                     (Csv.writerows
                        (Inventory.header ::
                         map product_fields
                           (Dict.values (ShopSystem.products s')))),
                   None).
Proof.
  intros Hmenu.
  assert (Hp : printable (ShopSystem.products s')).
  { revert Hmenu.
    apply (menu_invariant tabulate
             (fun s => printable (ShopSystem.products s))).
    - auto.
    - intros stdin0 s0 s0' rest0. apply shop_add_product_printable.
    - intros stdin0 s0 s0' rest0 _. apply process_sale_printable.
    - apply init_printable. }
  split; [exact Hp |]. intros w'.
  rewrite save_inventory_printable by exact Hp.
  unfold Inventory.inventory_text. now rewrite (written_printable _ Hp).
Qed.

Lemma menu_keeps_quantities_printable_witness :
  printable (ShopSystem.products session_end)
  /\ forall w', Inventory.save_inventory (ShopSystem.products session_end) w'
                = (write_inventory_csv w'
                     (Csv.writerows
                        (Inventory.header ::
                         map product_fields
                           (Dict.values (ShopSystem.products session_end)))),
                   None).
Proof.
  apply (menu_keeps_quantities_printable cells_text empty_world 20 session []
           session_end).
  vm_compute. reflexivity.
Defined.

(** The loop of [save_inventory] stops at the first product whose quantity
    has no text. *)
Lemma written_stops (d1 d2 : Dict.t Product) (k : string) (p : Product) :
  printable d1 ->
  PyInt.str (quantity p) = None ->
  Inventory.written (d1 ++ (k, p) :: d2)%list
  = (Csv.writerows (Inventory.header :: map product_fields (Dict.values d1)),
     false).
Proof.
  intros Hd Hp. unfold Inventory.written.
  assert (H : Csv.writerows_until
                (map Inventory.product_row
                   (Dict.values (d1 ++ (k, p) :: d2)%list))
              = (Csv.writerows (map product_fields (Dict.values d1)), false)).
  { unfold Dict.values.
    induction Hd as [|[k1 p1] d1 Hp1 _ IH].
    - cbn. unfold Inventory.product_row. now rewrite Hp.
    - cbn [app map snd Csv.writerows_until] in *. rewrite IH.
      unfold Inventory.product_row. now rewrite (str_some _ Hp1). }
  cbn [Csv.writerows_until]. now rewrite H.
Qed.

(** X22. A sale that leaves a product with a quantity of more digits than
    [str] accepts stops the program: [process_sale] raises [ValueError]
    when it saves the inventory, the sale is not saved, and the inventory
    file is left with the header and the rows of the products that come
    before that product: the rows of that product and of those after it
    are no longer in the file. *)
Theorem sale_past_digit_limit_stops
    (s s1 : ShopSystem.t) (line : string) (stdin rest : list string)
    (sale : Sale.t) (d1 d2 : Dict.t Product) (k : string) (p : Product) :
  ShopSystem.collect stdin s (Sale.new (Text.strip line))
    = Returned (s1, sale, rest) ->
  ShopSystem.products s1 = (d1 ++ (k, p) :: d2)%list ->
  printable d1 ->
  PyInt.str (quantity p) = None ->
  ShopSystem.process_sale (line :: stdin) s = Raised ValueError
  /\ Inventory.save_inventory (ShopSystem.products s1) (ShopSystem.env s1)
     = (write_inventory_csv (ShopSystem.env s1)
          (Csv.writerows
             (Inventory.header :: map product_fields (Dict.values d1))),
        Some ValueError).
Proof.
  intros Hc Hprod Hd Hp.
  assert (Hsave : Inventory.save_inventory (ShopSystem.products s1)
                    (ShopSystem.env s1)
                  = (write_inventory_csv (ShopSystem.env s1)
                       (Csv.writerows
                          (Inventory.header ::
                           map product_fields (Dict.values d1))),
                     Some ValueError)).
  { unfold Inventory.save_inventory, Inventory.inventory_text.
    now rewrite Hprod, (written_stops d1 d2 k p Hd Hp). }
  split; [| exact Hsave].
  unfold ShopSystem.process_sale. rewrite Hc.
  unfold ShopSystem.finish_sale. now rewrite Hsave.
Qed.

(** One more is added to a stock of 4300 nines by the sale of -1: the
    program stops, and the inventory file holds the widgets only. *)
Lemma sale_past_digit_limit_stops_witness :
  let s := {| ShopSystem.products := [("p1", widget); ("p2", hoard)];
              ShopSystem.env := ShopSystem.env shop_after_S1 |} in
  let s1 := ShopSystem.say
              {| ShopSystem.products :=
                   [("p1", widget); ("p2", with_quantity hoard past_limit)];
                 ShopSystem.env := ShopSystem.env shop_after_S1 |}
              (AddedToSale (-1) "Grain" (-1)%float) in
  ShopSystem.process_sale ("S2" :: ["p2"; "-1"; "done"]) s = Raised ValueError
  /\ Inventory.save_inventory (ShopSystem.products s1) (ShopSystem.env s1)
     = (write_inventory_csv (ShopSystem.env s1)
          (Csv.writerows
             (Inventory.header ::
              map product_fields (Dict.values [("p1", widget)]))),
        Some ValueError).
Proof.
  apply (sale_past_digit_limit_stops
           {| ShopSystem.products := [("p1", widget); ("p2", hoard)];
              ShopSystem.env := ShopSystem.env shop_after_S1 |}
           (ShopSystem.say
              {| ShopSystem.products :=
                   [("p1", widget); ("p2", with_quantity hoard past_limit)];
                 ShopSystem.env := ShopSystem.env shop_after_S1 |}
              (AddedToSale (-1) "Grain" (-1)%float))
           "S2" ["p2"; "-1"; "done"] []
           {| Sale.sale_id := "S2";
              Sale.items :=
                [{| Sale.item_product_id := "p2"; Sale.item_name := "Grain";
                    Sale.item_quantity := -1;
                    Sale.item_total_price := (-1)%float |}] |}
           [("p1", widget)] [] "p2" (with_quantity hoard past_limit)).
  - vm_compute. reflexivity.
  - reflexivity.
  - repeat constructor; vm_compute; congruence.
  - vm_compute. reflexivity.
Defined.

(** ** A field over the limit of [csv] *)

Section FieldOverLimit.
Import Text Csv.

Lemma special_no_cr (f : string) :
  contains_char is_special f = false -> has_cr f = false.
Proof.
  induction f as [|a f IH]; [reflexivity |]. cbn [contains_char].
  intros H. apply orb_false_iff in H as [Ha Hf].
  apply not_special in Ha as (_ & _ & Hcr & _).
  apply has_cr_cons. split; [now apply Ascii.eqb_neq | auto].
Qed.

Lemma universal_newlines_prefix (a b : string) :
  has_cr a = false ->
  universal_newlines (a +:+ b) = a +:+ universal_newlines b.
Proof.
  intros Ha. induction a as [|c a IH]; [reflexivity |].
  apply has_cr_cons in Ha as [Hc Ha]. apply Ascii.eqb_neq in Hc.
  rewrite !str_app_cons. cbn [universal_newlines]. rewrite Hc.
  now rewrite IH.
Qed.

(** The reader goes through the rows that are read back as written,
    whatever follows them. *)
Lemma reader_after_rows (pre : list row) (t : string) :
  rows_ok pre ->
  reader (writerows pre +:+ t)
  = ((pre ++ fst (reader t))%list, snd (reader t)).
Proof.
  intros H. unfold reader, writerows.
  induction H as [|fields rest Hf _ IH].
  - cbn [map concat_strings app]. rewrite str_app_nil_l.
    now destruct (feed parse_reset false (universal_newlines t)).
  - cbn [map concat_strings]. rewrite writerow_record_text, !str_app_assoc.
    rewrite universal_newlines_line
      by (apply record_text_no_cr; eapply Forall_impl;
          [exact Hf | now intros f []]).
    rewrite feed_record by exact Hf.
    now rewrite IH.
Qed.

(** The body of a field written without quotes that goes over the
    limit. *)
Lemma feed_long_field (f : string) :
  contains_char is_special f = false ->
  forall acc fs m tail,
    within_limit acc ->
    field_limit < Z.of_nat (String.length (acc +:+ f)) ->
    feed (mk IN_FIELD acc fs) m (f +:+ tail) = ([], false).
Proof.
  induction f as [|a f IH]; intros Hf acc fs m tail Hacc Hlong.
  - rewrite str_app_nil_r in Hlong. unfold within_limit in Hacc. lia.
  - cbn in Hf. apply orb_false_iff in Hf as [Ha Hf].
    apply not_special in Ha as (Hcomma & Hquote & Hcr & Hlf).
    rewrite str_app_cons. cbn [feed].
    assert (Hp : parse_process_char (mk IN_FIELD acc fs) (Char a)
                 = parse_add_char (mk IN_FIELD acc fs) a).
    { unfold parse_process_char, is_newline. cbn [st mk].
      now rewrite Hlf, Hcr, Hcomma. }
    rewrite Hp.
    destruct (Z.ltb_spec (Z.of_nat (String.length acc)) field_limit)
      as [Hlt | Hge].
    + rewrite (add_char_within _ _ _ _ Hlt), Hlf.
      apply IH; [exact Hf | |].
      * unfold within_limit. rewrite length_str_app. cbn [String.length]. lia.
      * now rewrite str_app_assoc, str_app_cons, str_app_nil_l.
    + unfold parse_add_char. cbn [field mk].
      destruct (Z.ltb_spec (Z.of_nat (String.length acc)) field_limit);
        [lia | reflexivity].
Qed.

Lemma feed_long_field_start (f : string) (fs : row) (m : bool)
    (tail : string) :
  contains_char is_special f = false ->
  field_limit < Z.of_nat (String.length f) ->
  feed (mk START_FIELD EmptyString fs) m (f +:+ tail) = ([], false).
Proof.
  intros Hf Hlong.
  destruct f as [|a f]; [cbn in Hlong; unfold field_limit in Hlong; lia |].
  cbn in Hf. apply orb_false_iff in Hf as [Ha Hf].
  apply not_special in Ha as (Hcomma & Hquote & Hcr & Hlf).
  rewrite str_app_cons. cbn [feed].
  assert (Hp : parse_process_char (mk START_FIELD "" fs) (Char a)
               = Some (mk IN_FIELD (String a "") fs)).
  { unfold parse_process_char, start_field, is_newline, add_char_to.
    cbn [st mk]. rewrite Hlf, Hcr, Hquote, Hcomma. cbn [orb].
    now rewrite (add_char_within START_FIELD "" fs a within_limit_empty). }
  rewrite Hp, Hlf.
  apply feed_long_field; [exact Hf | | exact Hlong].
  unfold within_limit, field_limit. cbn. lia.
Qed.

Lemma join_fields_split (a b : row) (f : string) :
  exists tail,
    join_fields (a ++ f :: b)%list = fields_prefix a +:+ write_field f +:+ tail.
Proof.
  induction a as [|x a [tail IH]].
  - unfold fields_prefix. cbn [app map concat_strings].
    rewrite ?str_app_nil_l.
    destruct b as [|g b].
    + exists EmptyString. cbn [join_fields]. now rewrite str_app_nil_r.
    + eexists. reflexivity.
  - exists tail. rewrite <- app_comm_cons.
    remember (a ++ f :: b)%list as l eqn:El.
    destruct l as [|y l]; [destruct a; discriminate |].
    change (join_fields (x :: y :: l))
      with (write_field x +:+ String COMMA (join_fields (y :: l))).
    rewrite IH. unfold fields_prefix. cbn [map concat_strings].
    now rewrite !str_app_assoc, str_app_cons, str_app_nil_l.
Qed.

Lemma fields_prefix_no_cr (a : row) :
  Forall field_ok a -> has_cr (fields_prefix a) = false.
Proof.
  intros H. unfold fields_prefix.
  induction H as [|x a [Hx _] _ IH]; [reflexivity |].
  cbn [map concat_strings]. apply has_cr_app. split; [| exact IH].
  apply has_cr_app. split; [now apply write_field_no_cr | reflexivity].
Qed.

(** The fields written before the long one are read. *)
Lemma feed_prefix (a : row) :
  Forall field_ok a ->
  forall fs m c r,
    feed (mk START_FIELD EmptyString fs) m (fields_prefix a +:+ String c r)
    = feed (mk START_FIELD EmptyString (fs ++ a)%list) true (String c r).
Proof.
  intros H. induction H as [|x a [_ Hx] _ IH]; intros fs m c r.
  - rewrite List.app_nil_r. apply feed_midline.
  - unfold fields_prefix. cbn [map concat_strings].
    fold (fields_prefix a).
    rewrite !str_app_assoc, str_app_cons, str_app_nil_l.
    rewrite feed_field by (reflexivity || exact Hx).
    rewrite after_field_comma, IH.
    now rewrite <- List.app_assoc.
Qed.

Lemma long_row_head (a : row) (f tail : string) :
  contains_char is_special f = false ->
  f <> EmptyString ->
  exists c t,
    fields_prefix a +:+ f +:+ tail = String c t
    /\ Ascii.eqb c LF = false /\ Ascii.eqb c CR = false.
Proof.
  intros Hf Hne.
  destruct a as [|x a].
  - destruct f as [|c f]; [congruence |].
    cbn in Hf. apply orb_false_iff in Hf as [Hc _].
    apply not_special in Hc as (_ & _ & ? & ?).
    exists c. eexists. split; [reflexivity | auto].
  - unfold fields_prefix. cbn [map concat_strings]. unfold write_field.
    destruct (contains_char is_special x) eqn:Hs.
    + eexists _, _. split; [reflexivity | split; reflexivity].
    + destruct x as [|c x].
      * eexists _, _. split; [reflexivity | split; reflexivity].
      * cbn in Hs. apply orb_false_iff in Hs as [Hc _].
        apply not_special in Hc as (_ & _ & ? & ?).
        exists c. eexists. split; [reflexivity | auto].
Qed.

(** The reader raises on a row with a field over the limit. *)
Lemma reader_long_field (a b : row) (f t : string) :
  Forall field_ok a ->
  contains_char is_special f = false ->
  field_limit < Z.of_nat (String.length f) ->
  reader (writerow (a ++ f :: b)%list +:+ t) = ([], false).
Proof.
  intros Ha Hf Hlong.
  assert (Hne : f <> EmptyString)
    by (intros ->; cbn in Hlong; unfold field_limit in Hlong; lia).
  assert (Hrow : writerow (a ++ f :: b)%list
                 = join_fields (a ++ f :: b)%list +:+ line_terminator).
  { unfold writerow. destruct a as [|x a]; cbn [app].
    - destruct f; [congruence |]. now destruct b.
    - now destruct x, a. }
  destruct (join_fields_split a b f) as [tail Hsplit].
  rewrite Hrow, Hsplit. unfold write_field. rewrite Hf.
  rewrite !str_app_assoc. unfold reader.
  rewrite universal_newlines_prefix by now apply fields_prefix_no_cr.
  rewrite universal_newlines_prefix by now apply special_no_cr.
  destruct (long_row_head a f
              (universal_newlines (tail +:+ line_terminator +:+ t)) Hf Hne)
    as (c & rest & Heq & Hlf & Hcr).
  rewrite Heq, feed_start_record by assumption. rewrite <- Heq.
  destruct f as [|c0 f0]; [congruence |].
  rewrite str_app_cons.
  rewrite (feed_prefix a Ha [] false c0).
  rewrite <- str_app_cons.
  now apply feed_long_field_start.
Qed.

End FieldOverLimit.

Lemma zeros_length (n : nat) : String.length (PyFloat.zeros n) = n.
Proof. induction n as [|n IH]; [reflexivity |]. cbn. now rewrite IH. Qed.

Lemma zeros_not_special (n : nat) :
  Text.contains_char Csv.is_special (PyFloat.zeros n) = false.
Proof. induction n as [|n IH]; [reflexivity |]. exact IH. Qed.

(** X23. A file in which a field written without quotes has more than
    131072 characters, after rows that are read back as written, makes
    [csv.reader] raise after these rows.  As a sales file, it makes
    [get_existing_sales], [save_sale] and the sales report raise
    [csv.Error], which no handler of the program catches; as an inventory
    file, the products of the rows before are loaded and the error is
    logged. *)
Theorem field_over_limit_raises
    (pre post : list Csv.row) (a b : Csv.row) (f : string) :
  rows_ok pre ->
  Forall field_ok a ->
  Text.contains_char Csv.is_special f = false ->
  Csv.field_limit < Z.of_nat (String.length f) ->
  let text := Csv.writerows (pre ++ (a ++ f :: b) :: post)%list in
  Csv.reader text = (pre, false)
  /\ SalesManager.get_existing_sales (Some text) = Raised CsvError
  /\ (forall w sale,
        sales_csv w = Some text ->
        SalesManager.save_sale w sale = Raised CsvError)
  /\ (forall tabulate w,
        sales_csv w = Some text ->
        view_sales tabulate w = Raised CsvError)
  /\ (Forall loadable (tl pre) ->
      Inventory.load_inventory (Some text)
      = (products_of (tl pre) Dict.empty,
         [(ERROR, ErrorLoadingInventory CsvError)])).
Proof.
  intros Hpre Ha Hf Hlong text.
  assert (Hread : Csv.reader text = (pre, false)).
  { unfold text. rewrite writerows_app.
    rewrite reader_after_rows by exact Hpre.
    assert (Hrow : Csv.reader (Csv.writerows ((a ++ f :: b)%list :: post))
                   = ([], false))
      by apply (reader_long_field a b f _ Ha Hf Hlong).
    rewrite Hrow. cbn [fst snd]. now rewrite List.app_nil_r. }
  split; [exact Hread |].
  split; [cbn [SalesManager.get_existing_sales]; now rewrite Hread |].
  split; [| split].
  - intros w sale Hw. unfold SalesManager.save_sale. rewrite Hw.
    cbn [SalesManager.get_existing_sales]. now rewrite Hread.
  - intros tabulate w Hw. unfold view_sales. now rewrite Hw, Hread.
  - intros Hload.
    rewrite load_inventory_all_loadable by now rewrite Hread.
    now rewrite Hread.
Qed.

(** The ledger holds a sale of a product whose name has 131073
    characters. *)
Lemma field_over_limit_raises_witness :
  let text :=
    Csv.writerows
      ([SalesManager.header] ++
       (["S1"; "p1"] ++ long_name :: ["3"; "29.97"]) :: [])%list in
  Csv.reader text = ([SalesManager.header], false)
  /\ SalesManager.get_existing_sales (Some text) = Raised CsvError
  /\ (forall w sale,
        sales_csv w = Some text ->
        SalesManager.save_sale w sale = Raised CsvError)
  /\ (forall tabulate w,
        sales_csv w = Some text ->
        view_sales tabulate w = Raised CsvError)
  /\ (Forall loadable (tl [SalesManager.header]) ->
      Inventory.load_inventory (Some text)
      = (products_of (tl [SalesManager.header]) Dict.empty,
         [(ERROR, ErrorLoadingInventory CsvError)])).
Proof.
  apply (field_over_limit_raises [SalesManager.header] [] ["S1"; "p1"]
           ["3"; "29.97"] long_name).
  - repeat constructor; vm_compute; congruence.
  - repeat constructor; vm_compute; congruence.
  - apply zeros_not_special.
  - unfold long_name. rewrite zeros_length, Z2Nat.id by lia.
    unfold Csv.field_limit. lia.
Defined.
